(** * footprint-metric-adapters: window strategies, percentile math and the
      MetricCollector, embedded from the TypeScript/JavaScript sources.

    Modelling conventions.
    - A JavaScript [number] that the program only ever uses as an integer
      (timestamps in Unix ms, counters, array lengths and indices) is a [Z] or a
      [nat]; all of them stay far below 2^53, where binary64 is exact.
    - A JavaScript [number] that carries a measurement (the [value] of a
      [MetricEntry], percentiles, means) is an element of an abstract carrier
      [num] with the operations the sources apply to it ([JSNumber]).  Two
      instances are given: [binary64] (IEEE 754 doubles, the arithmetic the
      program really runs on) and [exact] (rationals, the arithmetic with no
      rounding).  What holds of the control flow holds for every instance;
      order and bounds of computed percentiles are proved on [exact] and
      evaluated on [binary64].
    - [Date.now()] is an explicit argument [now] of every operation that reads
      the clock.
    - A JavaScript array that may contain holes is a [list (option A)].
    - [throw] is the [Throw] constructor of [completion]. *)

From Stdlib Require Import ZArith QArith Qround Lia Lqa Bool List Sorted.
From Stdlib Require Import PrimFloat SpecFloat FloatOps.
From Stdlib Require Import Ascii.
From stdpp Require Import base option list gmap strings.
Import ListNotations.

Local Open Scope Z_scope.

(* ===================================================================== *)
(** * Part I.  The embedding                                              *)
(* ===================================================================== *)

(** ** Completions: a call either returns normally or throws. *)

Inductive JSError : Type :=
  | RangeError
  | TypeError
  | UserError (msg : string).

Inductive completion (A : Type) : Type :=
  | Normal (a : A)
  | Throw (err : JSError).
Arguments Normal {A} a.
Arguments Throw {A} err.

Definition cbind {A B : Type} (c : completion A) (k : A -> completion B) : completion B :=
  match c with
  | Normal a => k a
  | Throw err => Throw err
  end.

(** [try { c } catch { h }] *)
Definition try_catch {A : Type} (c : completion A) (h : JSError -> completion A) : completion A :=
  match c with
  | Normal a => Normal a
  | Throw err => h err
  end.

Notation "x <- c ;; k" := (cbind c (fun x => k))
  (at level 100, c at next level, right associativity).

(** ** Numbers *)

(** The operations the sources apply to measurement-carrying numbers. *)
Class JSNumber (num : Type) : Type := {
  of_Z : Z -> num;                 (* an integer literal, or an integer-valued number *)
  nadd : num -> num -> num;        (* a + b *)
  nsub : num -> num -> num;        (* a - b *)
  nmul : num -> num -> num;        (* a * b *)
  ndiv : num -> num -> num;        (* a / b *)
  nfloor : num -> num;             (* Math.floor *)
  nceil : num -> num;              (* Math.ceil *)
  neqb : num -> num -> bool;       (* a === b *)
  nltb : num -> num -> bool;       (* a < b *)
  nleb : num -> num -> bool;       (* a <= b *)
  to_index : num -> option nat;    (* the array index a number denotes as a subscript *)
  undef_num : num                  (* what an [undefined] operand becomes in arithmetic *)
}.

(** *** IEEE 754 binary64, on Rocq's primitive floats. *)
Module Binary64.

(** The double nearest to the integer [z]. *)
Definition of_Z (z : Z) : float := SF2Prim (binary_normalize prec emax z 0 false).

(** [Math.floor]: infinities, NaN, zeros and integral values are returned as
    they are; otherwise the mantissa is shifted down. *)
Definition floor (x : float) : float :=
  match Prim2SF x with
  | S754_finite s m e =>
      if 0 <=? e then x
      else if Z.pos m mod 2 ^ (- e) =? 0 then x
      else
        let q := Z.pos m / 2 ^ (- e) in
        if s then PrimFloat.opp (of_Z (q + 1)) else of_Z q
  | _ => x
  end.

(** [Math.ceil x = - Math.floor (- x)], signed zeros included. *)
Definition ceil (x : float) : float := PrimFloat.opp (floor (PrimFloat.opp x)).

(** [a[x]]: [x] names an element when it is a non-negative integer below
    2^32 - 1 (and [-0] names element 0); any other number names a property
    that an array does not have. *)
Definition to_index (x : float) : option nat :=
  match Prim2SF x with
  | S754_zero _ => Some 0%nat
  | S754_finite false m e =>
      if 0 <=? e then
        (if Z.pos m * 2 ^ e <? 2 ^ 32 - 1 then Some (Z.to_nat (Z.pos m * 2 ^ e)) else None)
      else if Z.pos m mod 2 ^ (- e) =? 0 then Some (Z.to_nat (Z.pos m / 2 ^ (- e)))
      else None
  | _ => None
  end.

End Binary64.

#[export] Instance binary64 : JSNumber float := {
  of_Z := Binary64.of_Z;
  nadd := PrimFloat.add;
  nsub := PrimFloat.sub;
  nmul := PrimFloat.mul;
  ndiv := PrimFloat.div;
  nfloor := Binary64.floor;
  nceil := Binary64.ceil;
  neqb := PrimFloat.eqb;
  nltb := PrimFloat.ltb;
  nleb := PrimFloat.leb;
  to_index := Binary64.to_index;
  undef_num := PrimFloat.nan
}.

(** *** Exact arithmetic, on the rationals.  There is no NaN here: [undef_num]
    is a placeholder, and the theorems stated on this instance show that the
    subscripts they meet are in range. *)
Module Exact.

Definition to_index (x : Q) : option nat :=
  if Qeq_bool x (inject_Z (Qfloor x)) && (0 <=? Qfloor x)
  then Some (Z.to_nat (Qfloor x)) else None.

End Exact.

#[export] Instance exact : JSNumber Q := {
  of_Z := inject_Z;
  nadd := Qplus;
  nsub := Qminus;
  nmul := Qmult;
  ndiv := Qdiv;
  nfloor := fun x => inject_Z (Qfloor x);
  nceil := fun x => inject_Z (Qceiling x);
  neqb := Qeq_bool;
  nltb := fun x y => negb (Qle_bool y x);
  nleb := Qle_bool;
  to_index := Exact.to_index;
  undef_num := 0%Q
}.

(** ** Core types (core/types) *)

Inductive MetricType : Type :=
  | latency | errorCount | readCount | writeCount | commitCount | stageInvocation | custom.

Definition MetricType_eqb (a b : MetricType) : bool :=
  match a, b with
  | latency, latency | errorCount, errorCount | readCount, readCount
  | writeCount, writeCount | commitCount, commitCount
  | stageInvocation, stageInvocation | custom, custom => true
  | _, _ => false
  end.

Inductive StrategyType : Type := ringBuffer | tumbling | sliding.

Section Model.

Context {num : Type} `{JSNumber num}.

Record MetricEntry : Type := mkEntry {
  stageName : string;
  metric : MetricType;
  value : num;
  timestamp : Z;
  metadata : option (list (string * string))
}.

Record PercentileResult : Type := mkPercentiles {
  pr_min : num;
  pr_max : num;
  p50 : num;
  p95 : num;
  p99 : num;
  mean : num;
  count : nat
}.

(** ** strategies/percentile *)

(** [a[i]] for a computed number subscript [i], as an operand. *)
Definition js_get (a : list num) (i : num) : num :=
  match to_index i with
  | Some k => nth k a undef_num
  | None => undef_num
  end.

Definition percentile (sorted : list num) (p : num) : num :=
  if (length sorted =? 0)%nat then of_Z 0
  else if (length sorted =? 1)%nat then nth 0 sorted undef_num
  else
    let index := nmul (ndiv p (of_Z 100)) (of_Z (Z.of_nat (length sorted) - 1)) in
    let lower := nfloor index in
    let upper := nceil index in
    if neqb lower upper then js_get sorted lower
    else
      let weight := nsub index lower in
      nadd (nmul (js_get sorted lower) (nsub (of_Z 1) weight))
           (nmul (js_get sorted upper) weight).

(** [Array.prototype.sort((a, b) => a - b)]: a stable sort by the sign of the
    comparator; as an insertion sort. *)
Fixpoint sort_insert (x : num) (l : list num) : list num :=
  match l with
  | [] => [x]
  | y :: l' => if nltb (nsub y x) (of_Z 0) then y :: sort_insert x l' else x :: l
  end.

Definition js_sort (l : list num) : list num := foldr sort_insert [] l.

Definition computePercentiles (entries : list MetricEntry) (m : MetricType) : PercentileResult :=
  let values :=
    js_sort (map value (List.filter (fun e => MetricType_eqb (metric e) m) entries)) in
  if (length values =? 0)%nat then
    mkPercentiles (of_Z 0) (of_Z 0) (of_Z 0) (of_Z 0) (of_Z 0) (of_Z 0) 0
  else
    let sum := fold_left (fun acc v => nadd acc v) values (of_Z 0) in
    mkPercentiles
      (nth 0 values undef_num)
      (nth (length values - 1) values undef_num)
      (percentile values (of_Z 50))
      (percentile values (of_Z 95))
      (percentile values (of_Z 99))
      (ndiv sum (of_Z (Z.of_nat (length values))))
      (length values).

(** A JavaScript [Map] with string keys, in insertion order. *)
Fixpoint map_get {V : Type} (m : list (string * V)) (k : string) : option V :=
  match m with
  | [] => None
  | (k', v) :: m' => if String.eqb k' k then Some v else map_get m' k
  end.

Fixpoint map_set {V : Type} (m : list (string * V)) (k : string) (v : V) : list (string * V) :=
  match m with
  | [] => [(k, v)]
  | (k', v') :: m' => if String.eqb k' k then (k, v) :: m' else (k', v') :: map_set m' k v
  end.

Definition computeStagePercentiles (entries : list MetricEntry) (m : MetricType)
  : list (string * PercentileResult) :=
  let byStage :=
    fold_left
      (fun byStage entry =>
         if negb (MetricType_eqb (metric entry) m) then byStage
         else
           let existing := default [] (map_get byStage (stageName entry)) in
           map_set byStage (stageName entry) (existing ++ [entry]))
      entries [] in
  map (fun kv => (fst kv, computePercentiles (snd kv) m)) byStage.

Definition computeStageErrors (entries : list MetricEntry) : list (string * num) :=
  fold_left
    (fun errors entry =>
       if negb (MetricType_eqb (metric entry) errorCount) then errors
       else
         let current := default (of_Z 0) (map_get errors (stageName entry)) in
         map_set errors (stageName entry) (nadd current (value entry)))
    entries [].

(** ** The strategy contract's result types (core/types) *)

Record WindowSnapshot : Type := mkSnapshot {
  snap_entries : list (option MetricEntry);
  snap_startTime : Z;
  snap_endTime : Z;
  snap_size : nat;
  snap_totalPushed : nat;
  snap_totalEvicted : nat
}.

Record WindowInfo : Type := mkWindowInfo {
  wi_type : StrategyType;
  wi_startTime : Z;
  wi_endTime : Z;
  wi_entryCount : nat
}.

Record MetricResult : Type := mkMetricResult {
  latencyPercentiles : PercentileResult;
  stagePercentiles : list (string * PercentileResult);
  totalErrors : num;
  stageErrors : list (string * num);
  totalInvocations : nat;
  windowInfo : WindowInfo;
  computedAt : Z
}.

(** The part of [getMetricResult] that the three strategies share: the
    aggregates over the entries the strategy hands over. *)
Definition sumErrors (entries : list MetricEntry) : num :=
  fold_left (fun sum e => nadd sum (value e))
            (List.filter (fun e => MetricType_eqb (metric e) errorCount) entries) (of_Z 0).

Definition countInvocations (entries : list MetricEntry) : nat :=
  length (List.filter (fun e => MetricType_eqb (metric e) stageInvocation) entries).

(** ** strategies/RingBufferStrategy *)

Record RingBufferStrategy : Type := mkRingBuffer {
  rb_buffer : list (option MetricEntry);   (* [None] is a hole *)
  rb_head : option nat;                    (* [None] is NaN *)
  rb_size : nat;
  rb_maxSize : nat;
  rb_totalPushed : nat;
  rb_totalEvicted : nat
}.

(** [new Array(len)] for an integer [len]: a RangeError unless [len] is a
    valid array length. *)
Definition new_Array {A : Type} (len : Z) : completion (list (option A)) :=
  if (0 <=? len) && (len <? 2 ^ 32) then Normal (replicate (Z.to_nat len) None)
  else Throw RangeError.

(** [a[i] = x] for an index [i]: an assignment past the end extends the array. *)
Definition array_set {A : Type} (a : list (option A)) (i : nat) (x : A) : list (option A) :=
  if (i <? length a)%nat then <[ i := Some x ]> a
  else a ++ replicate (i - length a) None ++ [Some x].

(** [a[i]] for an index [i]: [None] is [undefined]. *)
Definition array_get {A : Type} (a : list (option A)) (i : nat) : option A :=
  mjoin (a !! i).

(** [a % b] on non-negative integers: NaN when [b] is 0. *)
Definition js_mod (a b : nat) : option nat :=
  if (b =? 0)%nat then None else Some (a mod b)%nat.

(** [constructor(config?: { maxSize?: number })]; the outer option is a missing
    [config], the inner one a missing [maxSize]. *)
Definition RingBufferStrategy_new (config : option (option Z)) : completion RingBufferStrategy :=
  let maxSize := default 1000 (mjoin config) in
  buffer <- new_Array maxSize ;;
  Normal (mkRingBuffer buffer (Some 0%nat) 0 (Z.to_nat maxSize) 0 0).

Definition rb_push (rb : RingBufferStrategy) (entry : MetricEntry) : RingBufferStrategy :=
  let buffer :=
    match rb_head rb with
    | Some h => array_set (rb_buffer rb) h entry
    | None => rb_buffer rb      (* sets the property "NaN", which is no element *)
    end in
  let head :=
    match rb_head rb with
    | Some h => js_mod (h + 1) (rb_maxSize rb)
    | None => None
    end in
  let totalPushed := S (rb_totalPushed rb) in
  if (rb_size rb <? rb_maxSize rb)%nat then
    mkRingBuffer buffer head (S (rb_size rb)) (rb_maxSize rb) totalPushed (rb_totalEvicted rb)
  else
    mkRingBuffer buffer head (rb_size rb) (rb_maxSize rb) totalPushed (S (rb_totalEvicted rb)).

Definition rb_getEntries (rb : RingBufferStrategy) : list (option MetricEntry) :=
  if (rb_size rb =? 0)%nat then []
  else if (rb_size rb <? rb_maxSize rb)%nat then
    map (fun i => array_get (rb_buffer rb) i) (seq 0 (rb_size rb))
  else
    map (fun i =>
           match rb_head rb with
           | Some h =>
               match js_mod (h + i) (rb_maxSize rb) with
               | Some idx => array_get (rb_buffer rb) idx
               | None => None
               end
           | None => None
           end)
        (seq 0 (rb_maxSize rb)).

(** Reading a field of every element, as [filter((e) => e.metric === ...)]
    does first: a TypeError when an element is [undefined]. *)
Fixpoint deref_all (entries : list (option MetricEntry)) : completion (list MetricEntry) :=
  match entries with
  | [] => Normal []
  | None :: _ => Throw TypeError
  | Some e :: rest => es <- deref_all rest ;; Normal (e :: es)
  end.

(** [entries[i].timestamp] *)
Definition timestamp_at (entries : list (option MetricEntry)) (i : nat) : completion Z :=
  match array_get entries i with
  | Some e => Normal (timestamp e)
  | None => Throw TypeError
  end.

Definition rb_getPercentiles (rb : RingBufferStrategy) (m : MetricType)
  : completion PercentileResult :=
  entries <- deref_all (rb_getEntries rb) ;;
  Normal (computePercentiles entries m).

Definition rb_getStagePercentiles (rb : RingBufferStrategy) (stage : string) (m : MetricType)
  : completion PercentileResult :=
  entries <- deref_all (rb_getEntries rb) ;;
  Normal (computePercentiles (List.filter (fun e => String.eqb (stageName e) stage) entries) m).

Definition rb_getSnapshot (rb : RingBufferStrategy) : completion WindowSnapshot :=
  let entries := rb_getEntries rb in
  startTime <- (if (0 <? length entries)%nat then timestamp_at entries 0 else Normal 0) ;;
  endTime <- (if (0 <? length entries)%nat
              then timestamp_at entries (length entries - 1) else Normal 0) ;;
  Normal (mkSnapshot entries startTime endTime (length entries)
                     (rb_totalPushed rb) (rb_totalEvicted rb)).

Definition rb_getMetricResult (now : Z) (rb : RingBufferStrategy) : completion MetricResult :=
  let entries := rb_getEntries rb in
  es <- deref_all entries ;;
  startTime <- (if (0 <? length entries)%nat then timestamp_at entries 0 else Normal now) ;;
  endTime <- (if (0 <? length entries)%nat
              then timestamp_at entries (length entries - 1) else Normal now) ;;
  Normal (mkMetricResult
            (computePercentiles es latency)
            (computeStagePercentiles es latency)
            (sumErrors es)
            (computeStageErrors es)
            (countInvocations es)
            (mkWindowInfo ringBuffer startTime endTime (length entries))
            now).

Definition rb_clear (rb : RingBufferStrategy) : RingBufferStrategy :=
  mkRingBuffer (replicate (rb_maxSize rb) None) (Some 0%nat) 0 (rb_maxSize rb) 0 0.

Definition rb_getSize (rb : RingBufferStrategy) : nat := rb_size rb.

Definition rb_isFull (rb : RingBufferStrategy) : bool := (rb_maxSize rb <=? rb_size rb)%nat.

(** ** strategies/TumblingWindowStrategy *)

Record MetricBucket : Type := mkBucket {
  b_entries : list MetricEntry;
  b_startTime : Z;
  b_endTime : Z;
  b_percentiles : PercentileResult
}.

(** [maxArchivedBuckets] is a count, a [nat]; [windowMs] is any integer the
    caller configured. *)
Record TumblingWindowStrategy : Type := mkTumbling {
  tw_currentBucket : list MetricEntry;
  tw_bucketStartTime : Z;
  tw_windowMs : Z;
  tw_maxArchivedBuckets : nat;
  tw_archivedBuckets : list MetricBucket;
  tw_totalPushed : nat;
  tw_totalEvicted : nat
}.

Record TumblingConfig : Type := mkTumblingConfig {
  cfg_windowMs : option Z;
  cfg_maxArchivedBuckets : option nat
}.

Definition TumblingWindowStrategy_new (now : Z) (config : option TumblingConfig)
  : TumblingWindowStrategy :=
  mkTumbling [] now
             (default 60000 (config ≫= cfg_windowMs))
             (default 10%nat (config ≫= cfg_maxArchivedBuckets))
             [] 0 0.

(** [while (archivedBuckets.length > maxArchivedBuckets) { shift ... }] *)
Fixpoint evictArchived (maxArchived : nat) (buckets : list MetricBucket) (totalEvicted : nat)
  : list MetricBucket * nat :=
  match buckets with
  | [] => ([], totalEvicted)
  | evicted :: rest =>
      if (maxArchived <? length buckets)%nat
      then evictArchived maxArchived rest (totalEvicted + length (b_entries evicted))
      else (buckets, totalEvicted)
  end.

Definition tw_archiveBucket (st : TumblingWindowStrategy)
           (entries : list MetricEntry) (startTime endTime : Z) : TumblingWindowStrategy :=
  let bucket := mkBucket entries startTime endTime (computePercentiles entries latency) in
  let '(archived, totalEvicted) :=
    evictArchived (tw_maxArchivedBuckets st) (tw_archivedBuckets st ++ [bucket])
                  (tw_totalEvicted st) in
  mkTumbling (tw_currentBucket st) (tw_bucketStartTime st) (tw_windowMs st)
             (tw_maxArchivedBuckets st) archived (tw_totalPushed st) totalEvicted.

Definition tw_set_currentBucket (st : TumblingWindowStrategy) (b : list MetricEntry) :=
  mkTumbling b (tw_bucketStartTime st) (tw_windowMs st) (tw_maxArchivedBuckets st)
             (tw_archivedBuckets st) (tw_totalPushed st) (tw_totalEvicted st).

Definition tw_set_bucketStartTime (st : TumblingWindowStrategy) (t : Z) :=
  mkTumbling (tw_currentBucket st) t (tw_windowMs st) (tw_maxArchivedBuckets st)
             (tw_archivedBuckets st) (tw_totalPushed st) (tw_totalEvicted st).

Definition tw_closeBucket (st : TumblingWindowStrategy) (endTime : Z) : TumblingWindowStrategy :=
  let st' :=
    if (0 <? length (tw_currentBucket st))%nat
    then tw_archiveBucket st (tw_currentBucket st) (tw_bucketStartTime st) endTime
    else st in
  tw_set_currentBucket st' [].

(** The [while] loop of [push] that archives the skipped windows; [fuel]
    bounds the number of times the loop condition is evaluated, and [None]
    says the bound was reached with the loop still running. *)
Fixpoint tw_skipWindows (fuel : nat) (st : TumblingWindowStrategy) (entry : MetricEntry)
  : option TumblingWindowStrategy :=
  match fuel with
  | O => None
  | S fuel' =>
      if timestamp entry >=? tw_bucketStartTime st + tw_windowMs st then
        let st1 := tw_archiveBucket st [] (tw_bucketStartTime st)
                                    (tw_bucketStartTime st + tw_windowMs st) in
        tw_skipWindows fuel' (tw_set_bucketStartTime st1 (tw_bucketStartTime st1 + tw_windowMs st1))
                       entry
      else Some st
  end.

Definition tw_push (fuel : nat) (st : TumblingWindowStrategy) (entry : MetricEntry)
  : option TumblingWindowStrategy :=
  let st0 := mkTumbling (tw_currentBucket st) (tw_bucketStartTime st) (tw_windowMs st)
                        (tw_maxArchivedBuckets st) (tw_archivedBuckets st)
                        (S (tw_totalPushed st)) (tw_totalEvicted st) in
  let bucketEndTime := tw_bucketStartTime st0 + tw_windowMs st0 in
  st3 ← (if timestamp entry >=? bucketEndTime then
           tw_skipWindows fuel (tw_set_bucketStartTime (tw_closeBucket st0 bucketEndTime)
                                                       bucketEndTime) entry
         else Some st0);
  Some (tw_set_currentBucket st3 (tw_currentBucket st3 ++ [entry])).

(** Returns the flushed bucket, [None] for [null]. *)
Definition tw_flushCurrentBucket (now : Z) (st : TumblingWindowStrategy)
  : option MetricBucket * TumblingWindowStrategy :=
  if (length (tw_currentBucket st) =? 0)%nat then (None, st)
  else
    let endTime := now in
    let bucket := mkBucket (tw_currentBucket st) (tw_bucketStartTime st) endTime
                           (computePercentiles (tw_currentBucket st) latency) in
    let st1 := tw_archiveBucket st (tw_currentBucket st) (tw_bucketStartTime st) endTime in
    (Some bucket, tw_set_bucketStartTime (tw_set_currentBucket st1 []) endTime).

Definition tw_getPercentiles (st : TumblingWindowStrategy) (m : MetricType) : PercentileResult :=
  computePercentiles (tw_currentBucket st) m.


Definition tw_getSnapshot (st : TumblingWindowStrategy) : WindowSnapshot :=
  mkSnapshot (map Some (tw_currentBucket st))
             (tw_bucketStartTime st)
             (tw_bucketStartTime st + tw_windowMs st)
             (length (tw_currentBucket st))
             (tw_totalPushed st) (tw_totalEvicted st).

Definition tw_getMetricResult (now : Z) (st : TumblingWindowStrategy) : MetricResult :=
  let entries := tw_currentBucket st in
  mkMetricResult
    (computePercentiles entries latency)
    (computeStagePercentiles entries latency)
    (sumErrors entries)
    (computeStageErrors entries)
    (countInvocations entries)
    (mkWindowInfo tumbling (tw_bucketStartTime st)
                  (tw_bucketStartTime st + tw_windowMs st) (length entries))
    now.

Definition tw_clear (now : Z) (st : TumblingWindowStrategy) : TumblingWindowStrategy :=
  mkTumbling [] now (tw_windowMs st) (tw_maxArchivedBuckets st) [] 0 0.

Definition tw_getArchivedBuckets (st : TumblingWindowStrategy) : list MetricBucket :=
  tw_archivedBuckets st.

(** ** strategies/SlidingWindowStrategy *)

Record SlidingWindowStrategy : Type := mkSliding {
  sw_entries : list MetricEntry;
  sw_windowMs : Z;
  sw_totalPushed : nat;
  sw_totalEvicted : nat
}.

Definition SlidingWindowStrategy_new (config : option (option Z)) : SlidingWindowStrategy :=
  mkSliding [] (default 300000 (mjoin config)) 0 0.

(** [evictStale(referenceTime?)]: [referenceTime ?? Date.now()]. *)
Definition sw_evictStale (now : Z) (referenceTime : option Z) (st : SlidingWindowStrategy)
  : SlidingWindowStrategy :=
  let cutoff := default now referenceTime - sw_windowMs st in
  let before := length (sw_entries st) in
  let entries := List.filter (fun e => timestamp e >=? cutoff) (sw_entries st) in
  mkSliding entries (sw_windowMs st) (sw_totalPushed st)
            (sw_totalEvicted st + (before - length entries)).

(** [push] hands over the entry's timestamp, so the clock is not read. *)
Definition sw_push (st : SlidingWindowStrategy) (entry : MetricEntry) : SlidingWindowStrategy :=
  let st1 := mkSliding (sw_entries st ++ [entry]) (sw_windowMs st)
                       (S (sw_totalPushed st)) (sw_totalEvicted st) in
  sw_evictStale 0 (Some (timestamp entry)) st1.

Definition sw_getPercentiles (now : Z) (st : SlidingWindowStrategy) (m : MetricType)
  : PercentileResult * SlidingWindowStrategy :=
  let st1 := sw_evictStale now None st in
  (computePercentiles (sw_entries st1) m, st1).

Definition sw_getStagePercentiles (now : Z) (st : SlidingWindowStrategy)
           (stage : string) (m : MetricType) : PercentileResult * SlidingWindowStrategy :=
  let st1 := sw_evictStale now None st in
  (computePercentiles
     (List.filter (fun e => String.eqb (stageName e) stage) (sw_entries st1)) m, st1).

Definition sw_getSnapshot (now : Z) (st : SlidingWindowStrategy)
  : WindowSnapshot * SlidingWindowStrategy :=
  let st1 := sw_evictStale now None st in
  (mkSnapshot (map Some (sw_entries st1)) (now - sw_windowMs st1) now
              (length (sw_entries st1)) (sw_totalPushed st1) (sw_totalEvicted st1), st1).

Definition sw_getMetricResult (now : Z) (st : SlidingWindowStrategy)
  : MetricResult * SlidingWindowStrategy :=
  let st1 := sw_evictStale now None st in
  (mkMetricResult
     (computePercentiles (sw_entries st1) latency)
     (computeStagePercentiles (sw_entries st1) latency)
     (sumErrors (sw_entries st1))
     (computeStageErrors (sw_entries st1))
     (countInvocations (sw_entries st1))
     (mkWindowInfo sliding (now - sw_windowMs st1) now (length (sw_entries st1)))
     now, st1).

Definition sw_clear (st : SlidingWindowStrategy) : SlidingWindowStrategy :=
  mkSliding [] (sw_windowMs st) 0 0.

Definition sw_getSize (now : Z) (st : SlidingWindowStrategy) : nat * SlidingWindowStrategy :=
  let st1 := sw_evictStale now None st in
  (length (sw_entries st1), st1).

(** ** collector/MetricCollector *)

(** The injected strategy, as far as the collector's hooks use it; its
    methods return normally. *)
Class WindowStrategy (S : Type) : Type := {
  ws_push : S -> MetricEntry -> S;
  ws_clear : Z -> S -> S          (* the clock reading, for the strategies that ask *)
}.

Record StageEvent : Type := mkStageEvent {
  ev_stageName : string;
  ev_timestamp : Z;
  ev_duration : option num        (* [undefined] on start events and when not supplied *)
}.

Record ErrorEvent : Type := mkErrorEvent {
  ee_stageName : string;
  ee_timestamp : Z;
  ee_error : string;              (* [error?.message ?? String(error)] *)
  ee_operation : string;
  ee_path : string;
  ee_key : string
}.

Section Collector.

Context {S : Type} `{WindowStrategy S}.

Record MetricCollector : Type := mkCollector {
  mc_id : string;
  mc_strategy : S;
  mc_trackReads : bool;
  mc_trackWrites : bool;
  mc_trackCommits : bool;
  mc_onMetricEntry : option (MetricEntry -> completion unit);
  mc_stageStartTimes : gmap string Z;
  mc_observedStages : gset string;
  mc_totalErrors : nat;
  mc_totalInvocations : nat;
  mc_totalEntries : nat
}.

Record CollectorOptions : Type := mkOptions {
  opt_id : string;
  opt_strategy : S;
  opt_trackReads : option bool;
  opt_trackWrites : option bool;
  opt_trackCommits : option bool;
  opt_onMetricEntry : option (MetricEntry -> completion unit)
}.

Definition MetricCollector_new (options : CollectorOptions) : MetricCollector :=
  mkCollector (opt_id options) (opt_strategy options)
              (default true (opt_trackReads options))
              (default true (opt_trackWrites options))
              (default true (opt_trackCommits options))
              (opt_onMetricEntry options)
              ∅ ∅ 0 0 0.

Definition mc_emit (c : MetricCollector) (entry : MetricEntry) : completion MetricCollector :=
  let c1 := mkCollector (mc_id c) (ws_push (mc_strategy c) entry)
                        (mc_trackReads c) (mc_trackWrites c) (mc_trackCommits c)
                        (mc_onMetricEntry c) (mc_stageStartTimes c) (mc_observedStages c)
                        (mc_totalErrors c) (mc_totalInvocations c)
                        (Datatypes.S (mc_totalEntries c)) in
  _ <- match mc_onMetricEntry c1 with
       | Some callback => try_catch (callback entry) (fun _ => Normal tt)
       | None => Normal tt
       end ;;
  Normal c1.

Definition mc_onStageStart (c : MetricCollector) (event : StageEvent)
  : completion MetricCollector :=
  let c1 := mkCollector (mc_id c) (mc_strategy c)
                        (mc_trackReads c) (mc_trackWrites c) (mc_trackCommits c)
                        (mc_onMetricEntry c)
                        (<[ ev_stageName event := ev_timestamp event ]> (mc_stageStartTimes c))
                        ({[ ev_stageName event ]} ∪ mc_observedStages c)
                        (mc_totalErrors c) (Datatypes.S (mc_totalInvocations c))
                        (mc_totalEntries c) in
  mc_emit c1 (mkEntry (ev_stageName event) stageInvocation (of_Z 1) (ev_timestamp event) None).

Definition mc_delete_start (c : MetricCollector) (stage : string) : MetricCollector :=
  mkCollector (mc_id c) (mc_strategy c)
              (mc_trackReads c) (mc_trackWrites c) (mc_trackCommits c)
              (mc_onMetricEntry c)
              (delete stage (mc_stageStartTimes c)) (mc_observedStages c)
              (mc_totalErrors c) (mc_totalInvocations c) (mc_totalEntries c).

Definition mc_onStageEnd (c : MetricCollector) (event : StageEvent)
  : completion MetricCollector :=
  c1 <- match ev_duration event with
        | Some duration =>
            mc_emit c (mkEntry (ev_stageName event) latency duration (ev_timestamp event) None)
        | None =>
            match mc_stageStartTimes c !! ev_stageName event with
            | Some startTime =>
                let duration := of_Z (ev_timestamp event - startTime) in
                mc_emit c (mkEntry (ev_stageName event) latency duration
                                   (ev_timestamp event) None)
            | None => Normal c
            end
        end ;;
  Normal (mc_delete_start c1 (ev_stageName event)).

Definition mc_onError (c : MetricCollector) (event : ErrorEvent)
  : completion MetricCollector :=
  let c1 := mkCollector (mc_id c) (mc_strategy c)
                        (mc_trackReads c) (mc_trackWrites c) (mc_trackCommits c)
                        (mc_onMetricEntry c) (mc_stageStartTimes c)
                        ({[ ee_stageName event ]} ∪ mc_observedStages c)
                        (Datatypes.S (mc_totalErrors c)) (mc_totalInvocations c)
                        (mc_totalEntries c) in
  mc_emit c1 (mkEntry (ee_stageName event) errorCount (of_Z 1) (ee_timestamp event)
                      (Some [("error", ee_error event); ("operation", ee_operation event);
                             ("path", ee_path event); ("key", ee_key event)]%string)).

Definition mc_onRead (c : MetricCollector) (event : StageEvent) : completion MetricCollector :=
  if negb (mc_trackReads c) then Normal c
  else mc_emit c (mkEntry (ev_stageName event) readCount (of_Z 1) (ev_timestamp event) None).

Definition mc_onWrite (c : MetricCollector) (event : StageEvent) : completion MetricCollector :=
  if negb (mc_trackWrites c) then Normal c
  else mc_emit c (mkEntry (ev_stageName event) writeCount (of_Z 1) (ev_timestamp event) None).

Definition mc_onCommit (c : MetricCollector) (event : StageEvent) : completion MetricCollector :=
  if negb (mc_trackCommits c) then Normal c
  else mc_emit c (mkEntry (ev_stageName event) commitCount (of_Z 1) (ev_timestamp event) None).

Definition mc_reset (now : Z) (c : MetricCollector) : MetricCollector :=
  mkCollector (mc_id c) (ws_clear now (mc_strategy c))
              (mc_trackReads c) (mc_trackWrites c) (mc_trackCommits c)
              (mc_onMetricEntry c) ∅ ∅ 0 0 0.

End Collector.

End Model.

Arguments MetricEntry num : clear implicits.
Arguments PercentileResult num : clear implicits.
Arguments WindowSnapshot num : clear implicits.
Arguments MetricResult num : clear implicits.
Arguments RingBufferStrategy num : clear implicits.
Arguments MetricBucket num : clear implicits.
Arguments TumblingWindowStrategy num : clear implicits.
Arguments SlidingWindowStrategy num : clear implicits.
Arguments StageEvent num : clear implicits.
Arguments WindowStrategy num S : clear implicits.
Arguments MetricCollector num S : clear implicits.
Arguments CollectorOptions num S : clear implicits.

(* ===================================================================== *)
(** * Part II.  The notions the properties are stated with                *)
(* ===================================================================== *)

Section Notions.

Context {num : Type} `{JSNumber num}.

Local Abbreviation Entry := (MetricEntry num).
Local Abbreviation Bucket := (MetricBucket num).

(** ** The contents of a ring buffer *)

(** What a ring buffer with [c > 0] slots holds after the entries [l] have
    been pushed into a fresh (or freshly cleared) buffer: slot [g mod c]
    holds the [g]-th pushed entry for the last [c] values of [g]. *)
Record rb_repr (c : nat) (l : list Entry) (rb : RingBufferStrategy num) : Prop := {
  repr_max : rb_maxSize rb = c;
  repr_len : length (rb_buffer rb) = c;
  repr_head : rb_head rb = Some (length l mod c)%nat;
  repr_size : rb_size rb = Nat.min (length l) c;
  repr_pushed : rb_totalPushed rb = length l;
  repr_evicted : rb_totalEvicted rb = (length l - c)%nat;
  repr_slots : forall g : nat, (g < length l)%nat -> (length l <= g + c)%nat ->
                           array_get (rb_buffer rb) (g mod c)%nat = l !! g
}.

(** ** Clients of the ring buffer and of the sliding window *)

(** The calls a client can make on a ring buffer, and their effect on its state
    (the queries leave it as it is). *)
Inductive RbOp : Type :=
  | RbPush (entry : Entry)
  | RbGetPercentiles (m : MetricType)
  | RbGetStagePercentiles (stage : string) (m : MetricType)
  | RbGetSnapshot
  | RbGetMetricResult (now : Z)
  | RbGetSize
  | RbIsFull
  | RbClear.

Definition rb_step (rb : RingBufferStrategy num) (op : RbOp) : RingBufferStrategy num :=
  match op with
  | RbPush entry => rb_push rb entry
  | RbClear => rb_clear rb
  | _ => rb
  end.

Definition rb_run (ops : list RbOp) (rb : RingBufferStrategy num) : RingBufferStrategy num :=
  fold_left rb_step ops rb.

(** The calls a client can make on a sliding window; every query runs an
    eviction pass at the clock reading it is made at. *)
Inductive SwOp : Type :=
  | SwPush (entry : Entry)
  | SwGetPercentiles (now : Z) (m : MetricType)
  | SwGetStagePercentiles (now : Z) (stage : string) (m : MetricType)
  | SwGetSnapshot (now : Z)
  | SwGetMetricResult (now : Z)
  | SwGetSize (now : Z)
  | SwClear.

Definition sw_step (st : SlidingWindowStrategy num) (op : SwOp) : SlidingWindowStrategy num :=
  match op with
  | SwPush entry => sw_push st entry
  | SwGetPercentiles now m => snd (sw_getPercentiles now st m)
  | SwGetStagePercentiles now stage m => snd (sw_getStagePercentiles now st stage m)
  | SwGetSnapshot now => snd (sw_getSnapshot now st)
  | SwGetMetricResult now => snd (sw_getMetricResult now st)
  | SwGetSize now => snd (sw_getSize now st)
  | SwClear => sw_clear st
  end.

Definition sw_run (ops : list SwOp) (st : SlidingWindowStrategy num) : SlidingWindowStrategy num :=
  fold_left sw_step ops st.

(** The states of a ring buffer that a client can reach. *)
Definition rb_reachable (rb : RingBufferStrategy num) : Prop :=
  ((0 < rb_maxSize rb)%nat /\ exists l, rb_repr (rb_maxSize rb) l rb) \/
  (rb_maxSize rb = 0%nat /\ rb_size rb = 0%nat /\ rb_totalPushed rb = rb_totalEvicted rb).

(** ** Aggregate results *)

(** Two results agree in every field but [computedAt]. *)
Definition same_but_computedAt (r1 r2 : MetricResult num) : Prop :=
  latencyPercentiles r1 = latencyPercentiles r2 /\
  stagePercentiles r1 = stagePercentiles r2 /\
  totalErrors r1 = totalErrors r2 /\
  stageErrors r1 = stageErrors r2 /\
  totalInvocations r1 = totalInvocations r2 /\
  windowInfo r1 = windowInfo r2.

(** ** The archive of a tumbling window *)

(** One call of [archiveBucket] on the archive and the eviction counter, and a
    run of such calls. *)
Definition archive_step (maxArchived : nat) (acc : list Bucket * nat) (b : Bucket)
  : list Bucket * nat :=
  evictArchived maxArchived (fst acc ++ [b]) (snd acc).

Definition archive_many (maxArchived : nat) (acc : list Bucket * nat) (bs : list Bucket)
  : list Bucket * nat :=
  fold_left (archive_step maxArchived) bs acc.

(** The bucket [archiveBucket] stores for the given entries and bounds. *)
Definition bucket_of (entries : list Entry) (startTime endTime : Z) : Bucket :=
  mkBucket entries startTime endTime (computePercentiles entries latency).

(** The [i]-th window after the one starting at [s], as an empty bucket. *)
Definition skipped_bucket (s w : Z) (i : nat) : Bucket :=
  bucket_of [] (s + (Z.of_nat i + 1) * w) (s + (Z.of_nat i + 2) * w).

(** Each bucket starts where the one before it ends, the first one at [t]. *)
Fixpoint contiguous_from (t : Z) (bs : list Bucket) : Prop :=
  match bs with
  | [] => True
  | b :: rest => b_startTime b = t /\ contiguous_from (b_endTime b) rest
  end.

Definition zero_percentiles : PercentileResult num :=
  mkPercentiles (of_Z 0) (of_Z 0) (of_Z 0) (of_Z 0) (of_Z 0) (of_Z 0) 0.

End Notions.

Arguments RbOp num : clear implicits.
Arguments SwOp num : clear implicits.

(** ** Percentiles in exact arithmetic *)

Section ExactNotions.

Local Open Scope Q_scope.

(** Ascending order, position by position. *)
Definition ascending (s : list Q) : Prop :=
  forall i j : nat, (i <= j)%nat -> (j < length s)%nat -> nth i s 0 <= nth j s 0.

(** The fractional rank of the [p]-th percentile among [n] values. *)
Definition rank (n : nat) (p : Q) : Q := (p / 100) * inject_Z (Z.of_nat n - 1).

(** The linear interpolation at rank [x] between the elements at the ranks
    below and above it, as the specification words it. *)
Definition interpolate (s : list Q) (x : Q) : Q :=
  let lo := nth (Z.to_nat (Qfloor x)) s 0 in
  let hi := nth (Z.to_nat (Qceiling x)) s 0 in
  lo + (x - inject_Z (Qfloor x)) * (hi - lo).

End ExactNotions.

(** ** Strategies to inject into a collector, and the inputs of the examples *)

(** A strategy that only records what it is handed, in order. *)
#[export] Instance recording_strategy {num : Type} : WindowStrategy num (list (MetricEntry num)) := {
  ws_push := fun pushed entry => pushed ++ [entry];
  ws_clear := fun _ _ => []
}.

(** The ring buffer and the sliding window as injected strategies. *)
#[export] Instance ring_buffer_strategy {num : Type} `{JSNumber num}
  : WindowStrategy num (RingBufferStrategy num) := {
  ws_push := rb_push;
  ws_clear := fun _ rb => rb_clear rb
}.

#[export] Instance sliding_window_strategy {num : Type} `{JSNumber num}
  : WindowStrategy num (SlidingWindowStrategy num) := {
  ws_push := sw_push;
  ws_clear := fun _ st => sw_clear st
}.

(** For a list of [n] binary64 values: the ranks of [p = 0] and [p = 100]
    are whole and name the first and the last element. *)
Definition endpoints_ok (n : nat) : bool :=
  let i0 := nmul (ndiv (of_Z 0) (of_Z 100)) (of_Z (Z.of_nat n - 1)) : float in
  let i1 := nmul (ndiv (of_Z 100) (of_Z 100)) (of_Z (Z.of_nat n - 1)) : float in
  neqb (nfloor i0) (nceil i0)
  && match to_index (nfloor i0) with Some k => (k =? 0)%nat | None => false end
  && neqb (nfloor i1) (nceil i1)
  && match to_index (nfloor i1) with Some k => (k =? n - 1)%nat | None => false end.

Definition throwing_callback : MetricEntry float -> completion unit :=
  fun _ => Throw (UserError "boom").

Definition collector_with_throwing_callback : MetricCollector float (list (MetricEntry float)) :=
  MetricCollector_new (mkOptions "c" [] None None None (Some throwing_callback)).

Definition one_old_entry : SlidingWindowStrategy float :=
  sw_push (SlidingWindowStrategy_new (Some (Some 10))) (mkEntry "A" latency 5%float 0 None).

Definition fresh_tumbling : TumblingWindowStrategy float :=
  TumblingWindowStrategy_new 0 (Some (mkTumblingConfig (Some 10) None)).

Definition tumbling_with_one_entry : TumblingWindowStrategy float :=
  mkTumbling [mkEntry "A" latency 3%float 5 None] 0 10 10 [] 1 0.


(* ===================================================================== *)
(** * Part II, continued.  Further code, and the notions of Part IV        *)
(* ===================================================================== *)

(** ** The per-stage maps *)

(** The loop shared by [computeStagePercentiles] and [computeStageErrors]:
    skip the entries that [sel] rejects, and update the value stored under the
    entry's key from the value found there. *)
Definition grouped_step {A V : Type} (key : A -> string) (sel : A -> bool)
    (upd : option V -> A -> V) (acc : list (string * V)) (e : A) : list (string * V) :=
  if negb (sel e) then acc else map_set acc (key e) (upd (map_get acc (key e)) e).

(** The sum of the numbers stored in a map. *)
Definition map_total (m : list (string * Q)) : Q := fold_right Qplus 0%Q (map snd m).

(** A full ring buffer of two error entries, one per stage. *)
Definition two_stage_errors : RingBufferStrategy Q :=
  mkRingBuffer [Some (mkEntry "A" errorCount 1%Q 1 None);
                Some (mkEntry "B" errorCount 1%Q 2 None)] (Some 0%nat) 2 2 2 0.

Section ModelMore.

Context {num : Type} `{JSNumber num}.

(** ** strategies/TumblingWindowStrategy: the remaining accessors *)

(** [archivedBuckets[archivedBuckets.length - 1]]: [undefined] when the archive
    is empty, the subscript being -1. *)
Definition tw_getLatestArchivedBucket (st : TumblingWindowStrategy num)
  : option (MetricBucket num) :=
  match length (tw_archivedBuckets st) with
  | O => None
  | Datatypes.S n => tw_archivedBuckets st !! n
  end.

Definition tw_getCurrentBucketSize (st : TumblingWindowStrategy num) : nat :=
  length (tw_currentBucket st).

(** ** Clients of a tumbling window *)

(** The states a client can bring a tumbling window to: by constructing it,
    by a [push] that returns, by [flushCurrentBucket] and by [clear]; the
    queries leave the state as it is. *)
Inductive tw_reachable : TumblingWindowStrategy num -> Prop :=
  | tw_reach_new (now : Z) (config : option TumblingConfig) :
      tw_reachable (TumblingWindowStrategy_new now config)
  | tw_reach_push (st st' : TumblingWindowStrategy num) (fuel : nat) (e : MetricEntry num) :
      tw_reachable st -> tw_push fuel st e = Some st' -> tw_reachable st'
  | tw_reach_flush (st : TumblingWindowStrategy num) (now : Z) :
      tw_reachable st -> tw_reachable (snd (tw_flushCurrentBucket now st))
  | tw_reach_clear (st : TumblingWindowStrategy num) (now : Z) :
      tw_reachable st -> tw_reachable (tw_clear now st).

(** The number of entries the buckets of an archive hold. *)
Definition archived_entries (bs : list (MetricBucket num)) : nat :=
  list_sum (map (fun b => length (b_entries b)) bs).

(** The counters of a tumbling window account for every pushed entry but [k]
    of them, the archive respects its bound, and each archived bucket carries
    the percentiles of its own entries. *)
Definition tw_balance (k : nat) (st : TumblingWindowStrategy num) : Prop :=
  tw_totalPushed st
  = (length (tw_currentBucket st) + archived_entries (tw_archivedBuckets st)
     + tw_totalEvicted st + k)%nat /\
  (length (tw_archivedBuckets st) <= tw_maxArchivedBuckets st)%nat /\
  List.Forall (fun b => b_percentiles b = computePercentiles (b_entries b) latency)
              (tw_archivedBuckets st).

End ModelMore.

(** A tumbling window of width 10 that keeps one archived bucket, fresh and
    after a push at time 5. *)
Definition tumbling_keeping_one : TumblingWindowStrategy float :=
  TumblingWindowStrategy_new 0 (Some (mkTumblingConfig (Some 10) (Some 1%nat))).

Definition tumbling_keeping_one_with_entry : TumblingWindowStrategy float :=
  mkTumbling [mkEntry "A" latency 3%float 5 None] 0 10 1 [] 1 0.

Section RunsMore.

Context {num : Type} `{JSNumber num}.

(** ** The entries a client has pushed into a sliding window *)

(** The entries pushed since the window was constructed or last cleared. *)
Definition sw_pushed_step (acc : list (MetricEntry num)) (op : SwOp num)
  : list (MetricEntry num) :=
  match op with
  | SwPush entry => acc ++ [entry]
  | SwClear => []
  | _ => acc
  end.

Definition sw_pushed (ops : list (SwOp num)) : list (MetricEntry num) :=
  fold_left sw_pushed_step ops [].

(** ** The recorder events a collector is driven by *)

Inductive RecorderEvent : Type :=
  | OnStageStart (event : StageEvent num)
  | OnStageEnd (event : StageEvent num)
  | OnError (event : ErrorEvent)
  | OnRead (event : StageEvent num)
  | OnWrite (event : StageEvent num)
  | OnCommit (event : StageEvent num)
  | Reset (now : Z).

Section CollectorRuns.

Context {S : Type} `{WindowStrategy num S}.

Definition mc_step (c : MetricCollector num S) (ev : RecorderEvent)
  : completion (MetricCollector num S) :=
  match ev with
  | OnStageStart event => mc_onStageStart c event
  | OnStageEnd event => mc_onStageEnd c event
  | OnError event => mc_onError c event
  | OnRead event => mc_onRead c event
  | OnWrite event => mc_onWrite c event
  | OnCommit event => mc_onCommit c event
  | Reset now => Normal (mc_reset now c)
  end.

Fixpoint mc_run (evs : list RecorderEvent) (c : MetricCollector num S)
  : completion (MetricCollector num S) :=
  match evs with
  | [] => Normal c
  | ev :: rest => c1 <- mc_step c ev ;; mc_run rest c1
  end.

End CollectorRuns.

(** The event starts or ends stage [o], or resets the collector: the events
    that write the start time recorded for [o]. *)
Definition writes_start_of (o : string) (ev : RecorderEvent) : bool :=
  match ev with
  | OnStageStart event | OnStageEnd event => String.eqb (ev_stageName event) o
  | Reset _ => true
  | _ => false
  end.

(** The counters of a collector whose strategy records the pushes agree with
    the recorded entries. *)
Definition counts_pushed (c : MetricCollector num (list (MetricEntry num))) : Prop :=
  mc_totalEntries c = length (mc_strategy c) /\
  mc_totalInvocations c = countInvocations (mc_strategy c) /\
  mc_totalErrors c
  = length (List.filter (fun e => MetricType_eqb (metric e) errorCount) (mc_strategy c)) /\
  (forall s, s ∈ mc_observedStages c <->
             exists e, In e (mc_strategy c) /\ stageName e = s /\
                       (metric e = stageInvocation \/ metric e = errorCount)) /\
  (forall s, is_Some (mc_stageStartTimes c !! s) -> s ∈ mc_observedStages c).

End RunsMore.

Arguments RecorderEvent num : clear implicits.

(** ** Strategy configurations and the adapters' factories *)

(** [WindowConfig] (core/types); a [type] that is none of the three strategy
    names is [None]. *)
Record WindowConfig : Type := mkWindowConfig {
  wc_type : option StrategyType;
  wc_maxSize : option Z;
  wc_windowMs : option Z
}.

Section Factories.

Context {num : Type} `{JSNumber num}.

(** [getConfig()] of the three strategies. *)
Definition rb_getConfig (rb : RingBufferStrategy num) : WindowConfig :=
  mkWindowConfig (Some ringBuffer) (Some (Z.of_nat (rb_maxSize rb))) None.

Definition tw_getConfig (st : TumblingWindowStrategy num) : WindowConfig :=
  mkWindowConfig (Some tumbling) None (Some (tw_windowMs st)).

Definition sw_getConfig (st : SlidingWindowStrategy num) : WindowConfig :=
  mkWindowConfig (Some sliding) None (Some (sw_windowMs st)).

(** A strategy of one of the three classes. *)
Inductive AnyStrategy : Type :=
  | RingBufferOf (rb : RingBufferStrategy num)
  | TumblingOf (st : TumblingWindowStrategy num)
  | SlidingOf (st : SlidingWindowStrategy num).

Definition new_ring (maxSize : Z) : completion AnyStrategy :=
  rb <- RingBufferStrategy_new (Some (Some maxSize)) ;; Normal (RingBufferOf rb).

Definition new_tumbling (now : Z) (windowMs : Z) : completion AnyStrategy :=
  Normal (TumblingOf (TumblingWindowStrategy_new now (Some (mkTumblingConfig (Some windowMs) None)))).

Definition new_sliding (windowMs : Z) : completion AnyStrategy :=
  Normal (SlidingOf (SlidingWindowStrategy_new (Some (Some windowMs)))).

(** [createStrategy] of the mock adapter; the [createWindowStrategy] of the
    Prometheus and of the console adapter read the same. *)
Definition createStrategy (now : Z) (config : WindowConfig) : completion AnyStrategy :=
  match wc_type config with
  | Some ringBuffer => new_ring (default 1000 (wc_maxSize config))
  | Some tumbling => new_tumbling now (default 60000 (wc_windowMs config))
  | Some sliding => new_sliding (default 300000 (wc_windowMs config))
  | None => new_ring 1000
  end.

(** [createWindowStrategy] of the CloudWatch adapter. *)
Definition cloudwatch_createWindowStrategy (now : Z) (config : WindowConfig)
  : completion AnyStrategy :=
  match wc_type config with
  | Some tumbling => new_tumbling now (default 60000 (wc_windowMs config))
  | Some ringBuffer => new_ring (default 1000 (wc_maxSize config))
  | Some sliding => new_sliding (default 300000 (wc_windowMs config))
  | None => new_tumbling now 60000
  end.

(** [createWindowStrategy] of the Datadog adapter. *)
Definition datadog_createWindowStrategy (now : Z) (config : WindowConfig)
  : completion AnyStrategy :=
  match wc_type config with
  | Some sliding => new_sliding (default 300000 (wc_windowMs config))
  | Some ringBuffer => new_ring (default 1000 (wc_maxSize config))
  | Some tumbling => new_tumbling now (default 60000 (wc_windowMs config))
  | None => new_sliding 300000
  end.

End Factories.

Arguments AnyStrategy num : clear implicits.

(** ** The Prometheus adapter's label sanitiser *)

(** The regular expression has no [u] flag, so it works on the code units of
    the name one by one; a [string] holds the code units below 256, and every
    other code unit is outside the character class as well.  After the
    replacement only ASCII letters, digits and underscores are left, on which
    [toLowerCase] maps [A-Z] to [a-z]. *)

(** The character class [[a-zA-Z0-9_]]. *)
Definition is_label_char (c : ascii) : bool :=
  let n := nat_of_ascii c in
  ((97 <=? n) && (n <=? 122) || (65 <=? n) && (n <=? 90)
   || (48 <=? n) && (n <=? 57) || (n =? 95))%nat.

(** [toLowerCase] on a character. *)
Definition to_lower (c : ascii) : ascii :=
  let n := nat_of_ascii c in
  if ((65 <=? n) && (n <=? 90))%nat then ascii_of_nat (n + 32) else c.

Fixpoint string_map (f : ascii -> ascii) (s : string) : string :=
  match s with
  | EmptyString => EmptyString
  | String c rest => String (f c) (string_map f rest)
  end.

(** [name.replace(/[^a-zA-Z0-9_]/g, '_').toLowerCase()] *)
Definition sanitizeLabel (name : string) : string :=
  string_map to_lower (string_map (fun c => if is_label_char c then c else "_"%char) name).

(** The characters of a sanitised label: lower-case letters, digits and the
    underscore. *)
Definition is_lower_label_char (c : ascii) : bool :=
  let n := nat_of_ascii c in
  ((97 <=? n) && (n <=? 122) || (48 <=? n) && (n <=? 57) || (n =? 95))%nat.

Fixpoint string_forallb (f : ascii -> bool) (s : string) : bool :=
  match s with
  | EmptyString => true
  | String c rest => f c && string_forallb f rest
  end.

(* ===================================================================== *)
(** * Part III.  Lemmas and theorems                                      *)
(* ===================================================================== *)

(** ** Ring buffer *)

Section RingBufferFacts.

Context {num : Type} `{JSNumber num}.

Local Abbreviation Entry := (MetricEntry num).

Lemma mod_distinct (a b c : nat) :
  (a < b)%nat -> (b < a + c)%nat -> (a mod c)%nat <> (b mod c)%nat.
Proof.
  intros Hab Hbc Heq.
  assert (Hc : c <> 0%nat) by lia.
  pose proof (Nat.div_mod_eq a c) as Ha.
  pose proof (Nat.div_mod_eq b c) as Hb.
  rewrite Heq in Ha.
  assert (Hq : (a / c < b / c)%nat) by nia.
  nia.
Qed.

Lemma rb_repr_new (c : nat) :
  (0 < c)%nat ->
  rb_repr (num := num) c [] (mkRingBuffer (replicate c None) (Some 0%nat) 0 c 0 0).
Proof.
  intros Hc. constructor; simpl; try reflexivity.
  - apply length_replicate.
  - rewrite Nat.Div0.mod_0_l. reflexivity.
  - intros g Hg. lia.
Qed.

Lemma rb_repr_push (c : nat) (l : list Entry) (rb : RingBufferStrategy num) (e : Entry) :
  (0 < c)%nat -> rb_repr c l rb -> rb_repr c (l ++ [e]) (rb_push rb e).
Proof.
  intros Hc [Hmax Hlen Hhead Hsize Hpushed Hevicted Hslots].
  assert (Hh : (length l mod c < c)%nat) by (apply Nat.mod_upper_bound; lia).
  assert (Hbuf : rb_buffer (rb_push rb e)
                 = <[ (length l mod c)%nat := Some e ]> (rb_buffer rb)).
  { unfold rb_push. rewrite Hhead. unfold array_set.
    destruct (length l mod c <? length (rb_buffer rb))%nat eqn:E.
    - destruct (rb_size rb <? rb_maxSize rb)%nat; reflexivity.
    - apply Nat.ltb_ge in E. lia. }
  assert (Hhd : rb_head (rb_push rb e) = Some (length (l ++ [e]) mod c)%nat).
  { unfold rb_push. rewrite Hhead, Hmax. unfold js_mod.
    destruct (c =? 0)%nat eqn:E; [apply Nat.eqb_eq in E; lia|].
    rewrite length_app. simpl.
    replace (length l mod c + 1)%nat with (1 + length l mod c)%nat by lia.
    rewrite Nat.Div0.add_mod_idemp_r. rewrite (Nat.add_comm 1).
    destruct (rb_size rb <? c)%nat; reflexivity. }
  constructor.
  - unfold rb_push. destruct (rb_size rb <? rb_maxSize rb)%nat; simpl; exact Hmax.
  - rewrite Hbuf, length_insert. exact Hlen.
  - exact Hhd.
  - unfold rb_push. rewrite Hsize, Hmax, length_app. simpl.
    destruct (Nat.min (length l) c <? c)%nat eqn:E; simpl.
    + apply Nat.ltb_lt in E. lia.
    + apply Nat.ltb_ge in E. lia.
  - unfold rb_push. rewrite length_app. simpl.
    destruct (rb_size rb <? rb_maxSize rb)%nat; simpl; lia.
  - unfold rb_push. rewrite Hsize, Hmax, length_app. simpl.
    destruct (Nat.min (length l) c <? c)%nat eqn:E; simpl.
    + apply Nat.ltb_lt in E. lia.
    + apply Nat.ltb_ge in E. lia.
  - intros g Hg Hgc. rewrite length_app in Hg, Hgc. simpl in Hg, Hgc.
    rewrite Hbuf. unfold array_get.
    destruct (decide (g = length l)) as [->|Hne].
    + rewrite list_lookup_insert_eq by lia.
      rewrite lookup_app_r by lia. rewrite Nat.sub_diag. reflexivity.
    + rewrite list_lookup_insert_ne.
      * rewrite lookup_app_l by lia. apply Hslots; lia.
      * intros Heq. apply (mod_distinct g (length l) c); [lia|lia|]. symmetry. exact Heq.
Qed.

Lemma rb_repr_pushes (c : nat) (l0 l : list Entry) (rb : RingBufferStrategy num) :
  (0 < c)%nat -> rb_repr c l0 rb -> rb_repr c (l0 ++ l) (fold_left rb_push l rb).
Proof.
  intros Hc. revert l0 rb. induction l as [|e l IH]; intros l0 rb Hr; simpl.
  - rewrite app_nil_r. exact Hr.
  - replace (l0 ++ e :: l) with ((l0 ++ [e]) ++ l) by (rewrite <- app_assoc; reflexivity).
    apply IH. apply rb_repr_push; assumption.
Qed.

(** The chronological read-out of a represented buffer: the last [c] pushed
    entries, oldest first. *)
Lemma rb_getEntries_repr (c : nat) (l : list Entry) (rb : RingBufferStrategy num) :
  (0 < c)%nat -> rb_repr c l rb ->
  rb_getEntries rb = map Some (drop (length l - c) l).
Proof.
  intros Hc [Hmax Hlen Hhead Hsize Hpushed Hevicted Hslots].
  unfold rb_getEntries. rewrite Hsize, Hmax, Hhead.
  destruct (Nat.min (length l) c =? 0)%nat eqn:E0.
  { apply Nat.eqb_eq in E0. assert (length l = 0%nat) by lia.
    destruct l; [reflexivity | simpl in *; lia]. }
  apply Nat.eqb_neq in E0.
  destruct (Nat.min (length l) c <? c)%nat eqn:E1.
  - apply Nat.ltb_lt in E1.
    replace (Nat.min (length l) c) with (length l) by lia.
    replace (length l - c)%nat with 0%nat by lia. rewrite drop_0.
    apply list_eq. intros i. rewrite !list_lookup_fmap.
    destruct (decide (i < length l)%nat) as [Hi|Hi].
    + rewrite lookup_seq_lt by lia. simpl.
      rewrite <- (Nat.mod_small i c) at 1 by lia.
      rewrite Hslots by lia.
      destruct (lookup_lt_is_Some_2 l i Hi) as [x Hx]. rewrite Hx. reflexivity.
    + rewrite lookup_seq_ge by lia. rewrite lookup_ge_None_2 by lia. reflexivity.
  - apply Nat.ltb_ge in E1.
    apply list_eq. intros i. rewrite !list_lookup_fmap.
    destruct (decide (i < c)%nat) as [Hi|Hi].
    + rewrite lookup_seq_lt by lia. simpl. unfold js_mod.
      destruct (c =? 0)%nat eqn:Ec; [apply Nat.eqb_eq in Ec; lia|].
      rewrite Nat.Div0.add_mod_idemp_l.
      replace ((length l + i) mod c)%nat with ((length l - c + i) mod c)%nat.
      2:{ replace (length l + i)%nat with ((length l - c + i) + 1 * c)%nat by lia.
          rewrite Nat.Div0.mod_add. reflexivity. }
      rewrite Hslots by lia. rewrite lookup_drop.
      destruct (lookup_lt_is_Some_2 l (length l - c + i)) as [x Hx]; [lia|].
      rewrite Hx. reflexivity.
    + rewrite lookup_seq_ge by lia. rewrite lookup_ge_None_2; [reflexivity|].
      rewrite length_drop. lia.
Qed.

End RingBufferFacts.

Section RingBufferClaims.

Context {num : Type} `{JSNumber num}.

Local Abbreviation Entry := (MetricEntry num).

Lemma timestamp_at_Some (d : list Entry) (i : nat) :
  (i < length d)%nat ->
  exists t, timestamp_at (map Some d) i = Normal t.
Proof.
  intros Hi. unfold timestamp_at, array_get.
  rewrite list_lookup_fmap.
  destruct (lookup_lt_is_Some_2 d i Hi) as [x Hx]. rewrite Hx. simpl.
  eexists. reflexivity.
Qed.

Lemma rb_getSnapshot_chronological (rb : RingBufferStrategy num) (d : list Entry) :
  rb_getEntries rb = map Some d ->
  exists snap, rb_getSnapshot rb = Normal snap /\
               snap_entries snap = map Some d /\
               snap_size snap = length d /\
               snap_totalPushed snap = rb_totalPushed rb /\
               snap_totalEvicted snap = rb_totalEvicted rb.
Proof.
  intros Hd. unfold rb_getSnapshot. rewrite Hd, length_map.
  destruct (0 <? length d)%nat eqn:E.
  - apply Nat.ltb_lt in E.
    destruct (timestamp_at_Some d 0 E) as [t0 Ht0].
    destruct (timestamp_at_Some d (length d - 1)) as [t1 Ht1]; [lia|].
    rewrite Ht0, Ht1. simpl. eexists. repeat split; reflexivity.
  - simpl. eexists. repeat split; reflexivity.
Qed.

Lemma rb_new_repr (c : Z) (rb0 : RingBufferStrategy num) :
  0 < c ->
  RingBufferStrategy_new (Some (Some c)) = Normal rb0 ->
  rb_repr (Z.to_nat c) [] rb0.
Proof.
  intros Hc Hnew. unfold RingBufferStrategy_new, new_Array in Hnew. simpl in Hnew.
  destruct ((0 <=? c) && (c <? 2 ^ 32)); simpl in Hnew; [|discriminate].
  injection Hnew as <-. apply rb_repr_new. lia.
Qed.

(** C2.  A ring buffer constructed with capacity [c > 0] into which [c + k]
    entries ([k >= 1]) have been pushed retains exactly the last [c] of them:
    [getEntries] and the snapshot list them oldest first, the snapshot's size is
    [c], and [totalEvicted] is [k]. *)
Theorem ring_buffer_retains_last_capacity
  (c : Z) (k : nat) (l : list Entry) (rb0 : RingBufferStrategy num) :
  0 < c -> (1 <= k)%nat ->
  RingBufferStrategy_new (Some (Some c)) = Normal rb0 ->
  length l = (Z.to_nat c + k)%nat ->
  rb_getEntries (fold_left rb_push l rb0) = map Some (drop k l) /\
  length (drop k l) = Z.to_nat c /\
  rb_totalEvicted (fold_left rb_push l rb0) = k /\
  exists snap,
    rb_getSnapshot (fold_left rb_push l rb0) = Normal snap /\
    snap_entries snap = map Some (drop k l) /\
    snap_size snap = Z.to_nat c /\
    snap_totalPushed snap = (Z.to_nat c + k)%nat /\
    snap_totalEvicted snap = k.
Proof.
  intros Hc Hk Hnew Hlen.
  pose proof (rb_new_repr c rb0 Hc Hnew) as Hr0.
  assert (Hc' : (0 < Z.to_nat c)%nat) by lia.
  pose proof (rb_repr_pushes (Z.to_nat c) [] l rb0 Hc' Hr0) as Hr. simpl in Hr.
  pose proof (rb_getEntries_repr _ _ _ Hc' Hr) as Hent.
  replace (length l - Z.to_nat c)%nat with k in Hent by lia.
  assert (Hdrop : length (drop k l) = Z.to_nat c) by (rewrite length_drop; lia).
  assert (Hev : rb_totalEvicted (fold_left rb_push l rb0) = k).
  { rewrite (repr_evicted _ _ _ Hr). lia. }
  split; [exact Hent|]. split; [exact Hdrop|]. split; [exact Hev|].
  destruct (rb_getSnapshot_chronological _ _ Hent) as (snap & Hs & He & Hsz & Hp & Hv).
  exists snap. repeat split; try assumption.
  - lia.
  - rewrite Hp, (repr_pushed _ _ _ Hr). exact Hlen.
  - lia.
Qed.

End RingBufferClaims.

(** The claim at capacity 2 with three binary64 entries. *)
Lemma ring_buffer_retains_last_capacity_witness :
  rb_getEntries
    (fold_left rb_push
       [mkEntry "A" latency 10%float 1 None; mkEntry "A" latency 20%float 2 None;
        mkEntry "A" latency 30%float 3 None]
       (mkRingBuffer [None; None] (Some 0%nat) 0 2 0 0))
  = [Some (mkEntry "A" latency 20%float 2 None); Some (mkEntry "A" latency 30%float 3 None)].
Proof.
  exact (proj1 (ring_buffer_retains_last_capacity 2 1
                  [mkEntry "A" latency 10%float 1 None; mkEntry "A" latency 20%float 2 None;
                   mkEntry "A" latency 30%float 3 None]
                  (mkRingBuffer [None; None] (Some 0%nat) 0 2 0 0)
                  ltac:(lia) ltac:(lia) eq_refl eq_refl)).
Defined.

(** ** Sliding window *)

Section SlidingWindowClaims.

Context {num : Type} `{JSNumber num}.

Local Abbreviation Entry := (MetricEntry num).

Lemma filter_length_split {A : Type} (f : A -> bool) (l : list A) :
  length l = (length (List.filter f l) + length (List.filter (fun x => negb (f x)) l))%nat.
Proof.
  induction l as [|x l IH]; simpl; [reflexivity|].
  destruct (f x); simpl; lia.
Qed.

Lemma filter_sublist {A : Type} (f : A -> bool) (l : list A) :
  sublist (List.filter f l) l.
Proof.
  induction l as [|x l IH]; simpl.
  - constructor.
  - destruct (f x); [apply sublist_skip | apply sublist_cons]; exact IH.
Qed.

Lemma sw_evictStale_entries (now : Z) (ref : option Z) (st : SlidingWindowStrategy num) :
  sw_entries (sw_evictStale now ref st)
  = List.filter (fun e => default now ref - sw_windowMs st <=? timestamp e) (sw_entries st).
Proof.
  unfold sw_evictStale. simpl. apply List.filter_ext. intros e.
  rewrite Z.geb_leb. reflexivity.
Qed.

Lemma sw_push_entries_recent (st : SlidingWindowStrategy num) (e x : Entry) :
  In x (sw_entries (sw_push st e)) -> timestamp e - sw_windowMs st <= timestamp x.
Proof.
  unfold sw_push. rewrite sw_evictStale_entries. simpl.
  intros Hin. apply List.filter_In in Hin. destruct Hin as [_ Hle]. lia.
Qed.

Lemma sw_push_windowMs (st : SlidingWindowStrategy num) (e : Entry) :
  sw_windowMs (sw_push st e) = sw_windowMs st.
Proof. reflexivity. Qed.

(** C4.  An eviction pass with reference instant [r] (the argument, or the clock
    when none is given) keeps exactly the entries whose timestamp is not older
    than [r - windowMs], in their order, and adds the number of removed entries
    to [totalEvicted]; [push] appends the entry and runs the pass with the
    entry's own timestamp; and after a push at [t = 0] followed by a push at
    [t = windowMs + 1] into a fresh window, the first entry has been evicted
    and no snapshot lists it. *)
Theorem sliding_eviction_pass
  (now : Z) (ref : option Z) (st : SlidingWindowStrategy num) :
  let cutoff := default now ref - sw_windowMs st in
  let st' := sw_evictStale now ref st in
  (forall e, In e (sw_entries st') <-> In e (sw_entries st) /\ ~ timestamp e < cutoff) /\
  sw_entries st' = List.filter (fun e => cutoff <=? timestamp e) (sw_entries st) /\
  sublist (sw_entries st') (sw_entries st) /\
  sw_totalEvicted st'
  = (sw_totalEvicted st
     + length (List.filter (fun e => (timestamp e <? cutoff)%Z) (sw_entries st)))%nat /\
  (forall e : Entry,
      sw_push st e
      = sw_evictStale now (Some (timestamp e))
          (mkSliding (sw_entries st ++ [e]) (sw_windowMs st)
                     (S (sw_totalPushed st)) (sw_totalEvicted st))) /\
  (forall (w : Z) s0 m0 v0 md0 s1 m1 v1 md1,
      let e0 : Entry := mkEntry s0 m0 v0 0 md0 in
      let e1 : Entry := mkEntry s1 m1 v1 (w + 1) md1 in
      let st2 := sw_push (sw_push (SlidingWindowStrategy_new (Some (Some w))) e0) e1 in
      ~ In e0 (sw_entries st2) /\
      (1 <= sw_totalEvicted st2)%nat /\
      ~ In (Some e0) (snap_entries (fst (sw_getSnapshot now st2)))).
Proof.
  intros cutoff st'.
  assert (Hent : sw_entries st' = List.filter (fun e => cutoff <=? timestamp e) (sw_entries st))
    by apply sw_evictStale_entries.
  split; [|split; [exact Hent|split; [|split; [|split]]]].
  - intros e. rewrite Hent, List.filter_In. rewrite Z.leb_le.
    split; intros [Hin Hts]; (split; [exact Hin | lia]).
  - rewrite Hent. apply filter_sublist.
  - unfold st', sw_evictStale. simpl. f_equal.
    rewrite (filter_length_split (fun e => timestamp e >=? cutoff) (sw_entries st)).
    fold cutoff.
    replace (List.filter (fun x => negb (timestamp x >=? cutoff)) (sw_entries st))
      with (List.filter (fun e => timestamp e <? cutoff) (sw_entries st)).
    + lia.
    + apply List.filter_ext. intros e. rewrite Z.geb_leb, Z.ltb_antisym. reflexivity.
  - intros e. reflexivity.
  - intros w s0 m0 v0 md0 s1 m1 v1 md1 e0 e1 st2.
    assert (Hrecent : forall x, In x (sw_entries st2) -> 1 <= timestamp x).
    { intros x Hx. apply sw_push_entries_recent in Hx.
      rewrite sw_push_windowMs in Hx. simpl in Hx. lia. }
    assert (Hnot : ~ In e0 (sw_entries st2)).
    { intros Hin. apply Hrecent in Hin. simpl in Hin. lia. }
    split; [exact Hnot|]. split.
    + unfold st2, sw_push, sw_evictStale, SlidingWindowStrategy_new. simpl.
      repeat match goal with
             | |- context [Z.geb ?a ?b] =>
                 let E := fresh "E" in destruct (Z.geb a b) eqn:E; simpl
             end;
        try lia;
        repeat match goal with
               | E : Z.geb _ _ = true |- _ => rewrite Z.geb_leb in E; apply Z.leb_le in E
               end;
        lia.
    + unfold sw_getSnapshot. simpl. rewrite in_map_iff.
      intros (x & Hx & Hin). injection Hx as ->.
      apply List.filter_In in Hin. destruct Hin as [Hin _]. exact (Hnot Hin).
Qed.

End SlidingWindowClaims.

(** ** Counters of the ring buffer and the sliding window *)

Section CounterClaims.

Context {num : Type} `{JSNumber num}.

Local Abbreviation Entry := (MetricEntry num).

Lemma rb_reachable_fresh (c : nat) :
  rb_reachable (num := num) (mkRingBuffer (replicate c None) (Some 0%nat) 0 c 0 0).
Proof.
  destruct c as [|c].
  - right. simpl. auto.
  - left. split; [simpl; lia|]. exists []. apply rb_repr_new. lia.
Qed.

Lemma rb_reachable_new (config : option (option Z)) (rb0 : RingBufferStrategy num) :
  RingBufferStrategy_new config = Normal rb0 -> rb_reachable rb0.
Proof.
  unfold RingBufferStrategy_new, new_Array.
  destruct ((0 <=? default 1000 (mjoin config)) && (default 1000 (mjoin config) <? 2 ^ 32));
    [|discriminate].
  unfold cbind. intros Hnew. injection Hnew as <-. apply rb_reachable_fresh.
Qed.

Lemma rb_reachable_step (rb : RingBufferStrategy num) (op : RbOp num) :
  rb_reachable rb -> rb_reachable (rb_step rb op).
Proof.
  intros Hr. destruct op; simpl; try exact Hr.
  - destruct Hr as [[Hc [l Hl]] | (Hmax & Hsize & Hcnt)].
    + left. pose proof (rb_repr_push _ _ _ entry Hc Hl) as Hl'.
      rewrite (repr_max _ _ _ Hl').
      split; [exact Hc | eexists; exact Hl'].
    + right. unfold rb_push. rewrite Hmax, Hsize. simpl. auto.
  - apply rb_reachable_fresh.
Qed.

Lemma rb_reachable_run (ops : list (RbOp num)) (rb : RingBufferStrategy num) :
  rb_reachable rb -> rb_reachable (rb_run ops rb).
Proof.
  revert rb. induction ops as [|op ops IH]; intros rb Hr; simpl; [exact Hr|].
  apply IH, rb_reachable_step, Hr.
Qed.

Lemma rb_reachable_snapshot (rb : RingBufferStrategy num) :
  rb_reachable rb ->
  exists snap, rb_getSnapshot rb = Normal snap /\
               snap_size snap = rb_size rb /\
               snap_totalPushed snap = rb_totalPushed rb /\
               snap_totalEvicted snap = rb_totalEvicted rb /\
               rb_totalPushed rb = (rb_size rb + rb_totalEvicted rb)%nat.
Proof.
  intros [[Hc [l Hl]] | (Hmax & Hsize & Hcnt)].
  - pose proof (rb_getEntries_repr _ _ _ Hc Hl) as Hent.
    destruct (rb_getSnapshot_chronological _ _ Hent) as (snap & Hs & _ & Hsz & Hp & Hv).
    exists snap. rewrite Hsz, Hp, Hv, length_drop.
    rewrite (repr_size _ _ _ Hl), (repr_pushed _ _ _ Hl), (repr_evicted _ _ _ Hl).
    repeat split; try assumption; try reflexivity; lia.
  - unfold rb_getSnapshot, rb_getEntries. rewrite Hsize. simpl.
    eexists. repeat split; simpl; lia.
Qed.

Lemma sw_balance_step (st : SlidingWindowStrategy num) (op : SwOp num) :
  sw_totalPushed st = (length (sw_entries st) + sw_totalEvicted st)%nat ->
  sw_totalPushed (sw_step st op)
  = (length (sw_entries (sw_step st op)) + sw_totalEvicted (sw_step st op))%nat.
Proof.
  intros Hb.
  assert (Hev : forall now ref (s : SlidingWindowStrategy num),
             sw_totalPushed s = (length (sw_entries s) + sw_totalEvicted s)%nat ->
             sw_totalPushed (sw_evictStale now ref s)
             = (length (sw_entries (sw_evictStale now ref s))
                + sw_totalEvicted (sw_evictStale now ref s))%nat).
  { intros now ref s Hs. unfold sw_evictStale.
    cbn [sw_totalPushed sw_entries sw_totalEvicted].
    set (keep := fun e : Entry => timestamp e >=? default now ref - sw_windowMs s).
    pose proof (filter_length_split keep (sw_entries s)).
    lia. }
  destruct op; cbn [sw_step];
    unfold sw_getPercentiles, sw_getStagePercentiles, sw_getSnapshot, sw_getMetricResult,
           sw_getSize; cbn [snd]; try (apply Hev; exact Hb).
  - unfold sw_push. apply Hev.
    cbn [sw_totalPushed sw_entries sw_totalEvicted]. rewrite length_app. simpl. lia.
  - reflexivity.
Qed.

Lemma sw_balance_run (ops : list (SwOp num)) (st : SlidingWindowStrategy num) :
  sw_totalPushed st = (length (sw_entries st) + sw_totalEvicted st)%nat ->
  sw_totalPushed (sw_run ops st)
  = (length (sw_entries (sw_run ops st)) + sw_totalEvicted (sw_run ops st))%nat.
Proof.
  revert st. induction ops as [|op ops IH]; intros st Hb; simpl; [exact Hb|].
  apply IH, sw_balance_step, Hb.
Qed.

(** C10.  Whatever pushes, queries and clears a client makes on a freshly
    constructed ring buffer or sliding window, every snapshot satisfies
    [totalPushed = size + totalEvicted], and a snapshot taken right after
    [clear()] shows size, [totalPushed] and [totalEvicted] all zero. *)
Theorem counters_balance_in_every_snapshot :
  (forall (config : option (option Z)) (rb0 : RingBufferStrategy num) (ops : list (RbOp num)),
      RingBufferStrategy_new config = Normal rb0 ->
      (exists snap,
          rb_getSnapshot (rb_run ops rb0) = Normal snap /\
          snap_totalPushed snap = (snap_size snap + snap_totalEvicted snap)%nat) /\
      (exists snap,
          rb_getSnapshot (rb_clear (rb_run ops rb0)) = Normal snap /\
          snap_size snap = 0%nat /\ snap_totalPushed snap = 0%nat /\
          snap_totalEvicted snap = 0%nat)) /\
  (forall (config : option (option Z)) (ops : list (SwOp num)) (now : Z),
      let st := sw_run ops (SlidingWindowStrategy_new config) in
      let snap := fst (sw_getSnapshot now st) in
      let cleared := fst (sw_getSnapshot now (sw_clear st)) in
      snap_totalPushed snap = (snap_size snap + snap_totalEvicted snap)%nat /\
      snap_size cleared = 0%nat /\ snap_totalPushed cleared = 0%nat /\
      snap_totalEvicted cleared = 0%nat).
Proof.
  split.
  - intros config rb0 ops Hnew.
    pose proof (rb_reachable_run ops rb0 (rb_reachable_new config rb0 Hnew)) as Hr.
    split.
    + destruct (rb_reachable_snapshot _ Hr) as (snap & Hs & Hsz & Hp & Hv & Hb).
      exists snap. split; [exact Hs|]. lia.
    + pose proof (rb_reachable_step _ RbClear Hr) as Hc. simpl in Hc.
      destruct (rb_reachable_snapshot _ Hc) as (snap & Hs & Hsz & Hp & Hv & Hb).
      exists snap. split; [exact Hs|]. rewrite Hsz, Hp, Hv. simpl. auto.
  - intros config ops now st snap cleared.
    pose proof (sw_balance_run ops (SlidingWindowStrategy_new config) eq_refl) as Hb.
    fold st in Hb.
    pose proof (sw_balance_step st (SwGetSnapshot now) Hb) as Hs.
    split; [exact Hs|]. unfold cleared. simpl. auto.
Qed.

End CounterClaims.

(** ** MetricCollector *)

Section CollectorClaims.

Context {num : Type} `{JSNumber num}.
Context {S : Type} `{WindowStrategy num S}.

Local Abbreviation Entry := (MetricEntry num).
Local Abbreviation Collector := (MetricCollector num S).

(** [emit] returns normally whatever the callback does. *)
Lemma mc_emit_normal (c : Collector) (entry : Entry) :
  mc_emit c entry
  = Normal (mkCollector (mc_id c) (ws_push (mc_strategy c) entry)
                        (mc_trackReads c) (mc_trackWrites c) (mc_trackCommits c)
                        (mc_onMetricEntry c) (mc_stageStartTimes c) (mc_observedStages c)
                        (mc_totalErrors c) (mc_totalInvocations c)
                        (Datatypes.S (mc_totalEntries c))).
Proof.
  unfold mc_emit. simpl.
  destruct (mc_onMetricEntry c) as [callback|]; [|reflexivity].
  destruct (callback entry); reflexivity.
Qed.

(** C6.  [onStageStart] for a stage at [t = 100] followed by [onStageEnd] for it
    at [t = 150] without a duration hands the strategy two entries, the
    invocation entry of the start and then one latency entry of value 50 for
    that stage, so exactly one latency entry; afterwards the map of start
    times has no entry for the stage. *)
Theorem stage_end_derives_latency_from_start (c : Collector) (o : string) :
  let invocation : Entry := mkEntry o stageInvocation (of_Z 1) 100 None in
  let lat : Entry := mkEntry o latency (of_Z 50) 150 None in
  exists c1 c2 : Collector,
    mc_onStageStart c (mkStageEvent o 100 None) = Normal c1 /\
    mc_onStageEnd c1 (mkStageEvent o 150 None) = Normal c2 /\
    mc_strategy c2 = fold_left ws_push [invocation; lat] (mc_strategy c) /\
    List.filter (fun e => MetricType_eqb (metric e) latency) [invocation; lat] = [lat] /\
    mc_stageStartTimes c2 !! o = None /\
    mc_totalEntries c2 = (mc_totalEntries c + 2)%nat.
Proof.
  intros invocation lat.
  unfold mc_onStageStart, mc_onStageEnd. rewrite mc_emit_normal.
  eexists. eexists. split; [reflexivity|].
  cbn [ev_duration ev_stageName ev_timestamp mc_stageStartTimes].
  rewrite lookup_insert_eq. rewrite mc_emit_normal. unfold cbind.
  split; [reflexivity|].
  unfold mc_delete_start.
  cbn [mc_strategy mc_stageStartTimes mc_totalEntries fold_left].
  split; [reflexivity|]. split; [reflexivity|].
  split; [apply lookup_delete_eq | lia].
Qed.

(** C9.  When the callback throws on an entry, [emit] still returns normally
    and the entry has been pushed to the strategy; and none of the six hooks
    ever throws. *)
Theorem callback_errors_are_swallowed
  (c : Collector) (entry : Entry) (callback : Entry -> completion unit) (err : JSError) :
  mc_onMetricEntry c = Some callback ->
  callback entry = Throw err ->
  (exists c', mc_emit c entry = Normal c' /\
              mc_strategy c' = ws_push (mc_strategy c) entry /\
              mc_totalEntries c' = Datatypes.S (mc_totalEntries c)) /\
  (forall (c0 : Collector) (ev : StageEvent num) (ee : ErrorEvent),
      (exists c', mc_onStageStart c0 ev = Normal c') /\
      (exists c', mc_onStageEnd c0 ev = Normal c') /\
      (exists c', mc_onError c0 ee = Normal c') /\
      (exists c', mc_onRead c0 ev = Normal c') /\
      (exists c', mc_onWrite c0 ev = Normal c') /\
      (exists c', mc_onCommit c0 ev = Normal c')).
Proof.
  intros Hcallback Hthrows. split.
  - unfold mc_emit. cbn [mc_onMetricEntry]. rewrite Hcallback, Hthrows.
    unfold try_catch, cbind. eexists. split; [reflexivity|]. split; reflexivity.
  - intros c0 ev ee.
    unfold mc_onStageStart, mc_onStageEnd, mc_onError, mc_onRead, mc_onWrite, mc_onCommit.
    repeat split.
    + rewrite mc_emit_normal. eexists. reflexivity.
    + destruct (ev_duration ev).
      * rewrite mc_emit_normal. eexists. reflexivity.
      * destruct (mc_stageStartTimes c0 !! ev_stageName ev).
        -- rewrite mc_emit_normal. eexists. reflexivity.
        -- eexists. reflexivity.
    + rewrite mc_emit_normal. eexists. reflexivity.
    + destruct (negb (mc_trackReads c0)); [|rewrite mc_emit_normal]; eexists; reflexivity.
    + destruct (negb (mc_trackWrites c0)); [|rewrite mc_emit_normal]; eexists; reflexivity.
    + destruct (negb (mc_trackCommits c0)); [|rewrite mc_emit_normal]; eexists; reflexivity.
Qed.

End CollectorClaims.

(** The claim with a callback that throws on every entry and the recording
    strategy. *)
Lemma callback_errors_are_swallowed_witness :
  exists c',
    mc_emit collector_with_throwing_callback (mkEntry "A" latency 5%float 7 None) = Normal c' /\
    mc_strategy c' = [mkEntry "A" latency 5%float 7 None] /\
    mc_totalEntries c' = 1%nat.
Proof.
  exact (proj1 (callback_errors_are_swallowed
                  collector_with_throwing_callback (mkEntry "A" latency 5%float 7 None)
                  throwing_callback (UserError "boom") eq_refl eq_refl)).
Defined.

(** ** Construction of a ring buffer *)

Section RingBufferConstruction.

Context {num : Type} `{JSNumber num}.

Local Abbreviation Entry := (MetricEntry num).

Lemma rb_zero_capacity_pushes (l : list Entry) (rb : RingBufferStrategy num) :
  rb_maxSize rb = 0%nat -> rb_size rb = 0%nat ->
  rb_maxSize (fold_left rb_push l rb) = 0%nat /\
  rb_size (fold_left rb_push l rb) = 0%nat /\
  rb_totalEvicted (fold_left rb_push l rb) = (rb_totalEvicted rb + length l)%nat.
Proof.
  revert rb. induction l as [|e l IH]; intros rb Hmax Hsize; simpl.
  - repeat split; try assumption. lia.
  - destruct (IH (rb_push rb e)) as (Hm & Hs & He).
    + unfold rb_push. rewrite Hmax, Hsize. reflexivity.
    + unfold rb_push. rewrite Hmax, Hsize. reflexivity.
    + repeat split; try assumption. rewrite He.
      unfold rb_push. rewrite Hmax, Hsize. simpl. lia.
Qed.

(** C8, as the constructor behaves.  A negative [maxSize] makes the
    constructor throw (the RangeError of the array allocation), and so does
    one of 2^32 or more; [maxSize = 0] is accepted: the constructor returns a
    buffer with no slot, which retains nothing and counts every push as an
    eviction. *)
Theorem ring_buffer_constructor_rejects_negative_only :
  (forall maxSize : Z,
      maxSize < 0 \/ 2 ^ 32 <= maxSize ->
      RingBufferStrategy_new (num := num) (Some (Some maxSize)) = Throw RangeError) /\
  RingBufferStrategy_new (num := num) (Some (Some 0))
  = Normal (mkRingBuffer [] (Some 0%nat) 0 0 0 0) /\
  (forall l : list Entry,
      rb_getEntries (fold_left rb_push l (mkRingBuffer [] (Some 0%nat) 0 0 0 0)) = [] /\
      rb_totalEvicted (fold_left rb_push l (mkRingBuffer [] (Some 0%nat) 0 0 0 0)) = length l).
Proof.
  split; [|split].
  - intros maxSize Hbad. unfold RingBufferStrategy_new, new_Array. simpl.
    replace ((0 <=? maxSize) && (maxSize <? 2 ^ 32)) with false; [reflexivity|].
    symmetry. apply andb_false_iff.
    change (2 ^ 32) with 4294967296 in *.
    destruct Hbad; [left; apply Z.leb_gt | right; apply Z.ltb_ge]; assumption.
  - reflexivity.
  - intros l.
    destruct (rb_zero_capacity_pushes l (mkRingBuffer [] (Some 0%nat) 0 0 0 0) eq_refl eq_refl)
      as (Hm & Hs & He).
    split; [|exact He].
    unfold rb_getEntries. rewrite Hs. reflexivity.
Qed.

End RingBufferConstruction.

(** Capacity 0 does not fail at construction. *)
Lemma ring_buffer_capacity_zero_is_accepted :
  RingBufferStrategy_new (num := float) (Some (Some 0))
  = Normal (mkRingBuffer [] (Some 0%nat) 0 0 0 0).
Proof. reflexivity. Qed.

(** Capacity -1 fails at construction. *)
Lemma ring_buffer_constructor_rejects_negative_only_witness :
  RingBufferStrategy_new (num := float) (Some (Some (-1))) = Throw RangeError.
Proof.
  apply (proj1 (ring_buffer_constructor_rejects_negative_only (num := float))).
  left. lia.
Defined.

(** ** Repeated aggregate queries *)

Section AggregateClaims.

Context {num : Type} `{JSNumber num}.

Local Abbreviation Entry := (MetricEntry num).

Lemma filter_filter_cutoff (c1 c2 : Z) (l : list Entry) :
  c1 <= c2 ->
  List.filter (fun e => timestamp e >=? c2) (List.filter (fun e => timestamp e >=? c1) l)
  = List.filter (fun e => timestamp e >=? c2) l.
Proof.
  intros Hc. induction l as [|e l IH]; simpl; [reflexivity|].
  destruct (timestamp e >=? c1) eqn:E1; simpl.
  - rewrite IH. reflexivity.
  - rewrite IH. replace (timestamp e >=? c2) with false; [reflexivity|].
    symmetry. rewrite Z.geb_leb in *. apply Z.leb_gt. apply Z.leb_gt in E1. lia.
Qed.

Lemma sw_requery_entries (now1 now2 : Z) (st : SlidingWindowStrategy num) :
  now1 <= now2 ->
  sw_entries (sw_evictStale now2 None (sw_evictStale now1 None st))
  = sw_entries (sw_evictStale now2 None st).
Proof.
  intros Hle. unfold sw_evictStale. cbn [sw_entries sw_windowMs default from_option id].
  apply filter_filter_cutoff. lia.
Qed.

(** C7, as the strategies behave.  Without an intervening push: two aggregate
    queries on a tumbling window agree in every field but [computedAt]; so do
    two queries on a ring buffer that holds an entry (both throw the same
    error if one does); on a sliding window, whose queries first evict by the
    clock and report the clock in [windowInfo], the second of two queries
    returns what a single query at its instant returns, so that two queries at
    one clock reading return the same result. *)
Theorem aggregate_requery :
  (forall (st : TumblingWindowStrategy num) (now1 now2 : Z),
      same_but_computedAt (tw_getMetricResult now1 st) (tw_getMetricResult now2 st)) /\
  (forall (rb : RingBufferStrategy num) (now1 now2 : Z),
      rb_getEntries rb <> [] ->
      match rb_getMetricResult now1 rb, rb_getMetricResult now2 rb with
      | Normal r1, Normal r2 => same_but_computedAt r1 r2
      | Throw e1, Throw e2 => e1 = e2
      | _, _ => False
      end) /\
  (forall (st : SlidingWindowStrategy num) (now1 now2 : Z),
      now1 <= now2 ->
      fst (sw_getMetricResult now2 (snd (sw_getMetricResult now1 st)))
      = fst (sw_getMetricResult now2 st)) /\
  (forall (st : SlidingWindowStrategy num) (now : Z),
      fst (sw_getMetricResult now (snd (sw_getMetricResult now st)))
      = fst (sw_getMetricResult now st)).
Proof.
  assert (Hsw : forall (st : SlidingWindowStrategy num) (now1 now2 : Z),
             now1 <= now2 ->
             fst (sw_getMetricResult now2 (snd (sw_getMetricResult now1 st)))
             = fst (sw_getMetricResult now2 st)).
  { intros st now1 now2 Hle. unfold sw_getMetricResult. cbn [fst snd].
    rewrite (sw_requery_entries now1 now2 st Hle). reflexivity. }
  split; [|split; [|split]].
  - intros st now1 now2. unfold same_but_computedAt, tw_getMetricResult. simpl.
    repeat split; reflexivity.
  - intros rb now1 now2 Hne. unfold rb_getMetricResult.
    destruct (deref_all (rb_getEntries rb)) as [es|err]; simpl; [|reflexivity].
    destruct (rb_getEntries rb) as [|x entries] eqn:E; [contradiction|].
    cbn [length Nat.ltb Nat.leb].
    destruct (timestamp_at (x :: entries) 0) as [t0|err0]; simpl; [|reflexivity].
    destruct (timestamp_at (x :: entries) (length entries - 0)) as [t1|err1]; simpl;
      [|reflexivity].
    unfold same_but_computedAt. simpl. repeat split; reflexivity.
  - exact Hsw.
  - intros st now. apply Hsw. lia.
Qed.

End AggregateClaims.

(** A sliding window of 10 ms holding one entry of [t = 0], queried at
    [t = 5] and again at [t = 20]: the first result counts one entry, the
    second none. *)
Lemma sliding_aggregate_depends_on_clock :
  ~ same_but_computedAt
      (fst (sw_getMetricResult 5 one_old_entry))
      (fst (sw_getMetricResult 20 (snd (sw_getMetricResult 5 one_old_entry)))).
Proof.
  intros (_ & _ & _ & _ & _ & Hinfo). vm_compute in Hinfo. discriminate Hinfo.
Qed.

(** The second of two queries, at [t = 5] and [t = 20], returns what one query
    at [t = 20] returns. *)
Lemma aggregate_requery_witness :
  fst (sw_getMetricResult 20 (snd (sw_getMetricResult 5 one_old_entry)))
  = fst (sw_getMetricResult 20 one_old_entry).
Proof.
  apply (proj1 (proj2 (proj2 (aggregate_requery (num := float))))). lia.
Defined.

(** ** Tumbling window *)

Section TumblingWindowClaims.

Context {num : Type} `{JSNumber num}.

Local Abbreviation Entry := (MetricEntry num).
Local Abbreviation Bucket := (MetricBucket num).

Lemma computePercentiles_nil (m : MetricType) :
  computePercentiles ([] : list Entry) m = zero_percentiles.
Proof. reflexivity. Qed.

Lemma tw_archiveBucket_fields (st : TumblingWindowStrategy num)
      (entries : list Entry) (a b : Z) :
  tw_currentBucket (tw_archiveBucket st entries a b) = tw_currentBucket st /\
  tw_bucketStartTime (tw_archiveBucket st entries a b) = tw_bucketStartTime st /\
  tw_windowMs (tw_archiveBucket st entries a b) = tw_windowMs st /\
  tw_maxArchivedBuckets (tw_archiveBucket st entries a b) = tw_maxArchivedBuckets st /\
  tw_totalPushed (tw_archiveBucket st entries a b) = tw_totalPushed st /\
  (tw_archivedBuckets (tw_archiveBucket st entries a b),
   tw_totalEvicted (tw_archiveBucket st entries a b))
  = archive_step (tw_maxArchivedBuckets st) (tw_archivedBuckets st, tw_totalEvicted st)
                 (bucket_of entries a b).
Proof.
  unfold tw_archiveBucket, archive_step, bucket_of. cbn [fst snd].
  destruct (evictArchived _ _ _) as [archived evicted]. simpl. repeat split.
Qed.

(** The loop over the skipped windows: when the entry falls in the [n]-th
    window after the current one, the loop returns after [n] rounds, having
    archived [n] empty buckets. *)
Lemma tw_skipWindows_spec (n : nat) :
  forall (st : TumblingWindowStrategy num) (e : Entry),
    0 < tw_windowMs st ->
    tw_bucketStartTime st + Z.of_nat n * tw_windowMs st <= timestamp e ->
    timestamp e < tw_bucketStartTime st + (Z.of_nat n + 1) * tw_windowMs st ->
    exists st',
      (forall fuel, (n < fuel)%nat -> tw_skipWindows fuel st e = Some st') /\
      tw_currentBucket st' = tw_currentBucket st /\
      tw_bucketStartTime st' = tw_bucketStartTime st + Z.of_nat n * tw_windowMs st /\
      tw_windowMs st' = tw_windowMs st /\
      tw_maxArchivedBuckets st' = tw_maxArchivedBuckets st /\
      tw_totalPushed st' = tw_totalPushed st /\
      (tw_archivedBuckets st', tw_totalEvicted st')
      = archive_many (tw_maxArchivedBuckets st) (tw_archivedBuckets st, tw_totalEvicted st)
          (map (skipped_bucket (tw_bucketStartTime st - tw_windowMs st) (tw_windowMs st))
               (seq 0 n)).
Proof.
  induction n as [|n IH]; intros st e Hw Hlo Hhi.
  - exists st. split; [|repeat split; try reflexivity; lia].
    intros fuel Hfuel. destruct fuel as [|fuel]; [lia|]. simpl.
    replace (timestamp e >=? tw_bucketStartTime st + tw_windowMs st) with false;
      [reflexivity|].
    symmetry. rewrite Z.geb_leb. apply Z.leb_gt. lia.
  - assert (Hge : (timestamp e >=? tw_bucketStartTime st + tw_windowMs st) = true).
    { rewrite Z.geb_leb. apply Z.leb_le. lia. }
    set (st1 := tw_archiveBucket st [] (tw_bucketStartTime st)
                                 (tw_bucketStartTime st + tw_windowMs st)).
    destruct (tw_archiveBucket_fields st [] (tw_bucketStartTime st)
                (tw_bucketStartTime st + tw_windowMs st))
      as (Hcur & Hstart & Hwin & Hmax & Hpushed & Harch).
    fold st1 in Hcur, Hstart, Hwin, Hmax, Hpushed, Harch.
    set (st2 := tw_set_bucketStartTime st1 (tw_bucketStartTime st1 + tw_windowMs st1)).
    assert (Hs2 : tw_bucketStartTime st2 = tw_bucketStartTime st + tw_windowMs st).
    { unfold st2. simpl. rewrite Hstart, Hwin. reflexivity. }
    assert (Hw2 : tw_windowMs st2 = tw_windowMs st) by (unfold st2; simpl; exact Hwin).
    destruct (IH st2 e) as (st' & Hrun & Hc' & Hs' & Hw' & Hm' & Hp' & Ha').
    + rewrite Hw2. exact Hw.
    + rewrite Hs2, Hw2. lia.
    + rewrite Hs2, Hw2. lia.
    + exists st'. split.
      { intros fuel Hfuel. destruct fuel as [|fuel]; [lia|]. cbn [tw_skipWindows].
        rewrite Hge. fold st1. fold st2. apply Hrun. lia. }
      split; [rewrite Hc'; unfold st2; simpl; exact Hcur|].
      split; [rewrite Hs', Hs2, Hw2; lia|].
      split; [rewrite Hw'; exact Hw2|].
      split; [rewrite Hm'; unfold st2; simpl; exact Hmax|].
      split; [rewrite Hp'; unfold st2; simpl; exact Hpushed|].
      rewrite Ha'. unfold st2 at 1 2 3. cbn [tw_maxArchivedBuckets tw_archivedBuckets
                                              tw_totalEvicted tw_set_bucketStartTime].
      rewrite Hmax, Harch.
      change (seq 0 (S n)) with (0%nat :: seq 1 n). unfold archive_many. cbn [map fold_left].
      replace (skipped_bucket (tw_bucketStartTime st - tw_windowMs st) (tw_windowMs st) 0)
        with (bucket_of ([] : list Entry) (tw_bucketStartTime st)
                        (tw_bucketStartTime st + tw_windowMs st)).
      2:{ unfold skipped_bucket. f_equal; lia. }
      f_equal. rewrite <- seq_shift, map_map. apply map_ext. intros i.
      unfold skipped_bucket. rewrite Hs2, Hw2. f_equal; lia.
Qed.

Lemma skipped_count (s w t : Z) :
  0 < w -> s + w <= t ->
  exists n : nat, s + (Z.of_nat n + 1) * w <= t /\ t < s + (Z.of_nat n + 2) * w.
Proof.
  intros Hw Ht. exists (Z.to_nat ((t - s) / w - 1)).
  assert (1 <= (t - s) / w) by (apply Z.div_le_lower_bound; lia).
  rewrite Z2Nat.id by lia.
  pose proof (Z.mul_div_le (t - s) w Hw).
  pose proof (Z.mul_succ_div_gt (t - s) w Hw).
  nia.
Qed.

Lemma contiguous_skipped (s w : Z) (n k : nat) :
  contiguous_from (s + (Z.of_nat k + 1) * w) (map (skipped_bucket s w) (seq k n)).
Proof.
  revert k. induction n as [|n IH]; intros k; simpl; [exact I|].
  split; [reflexivity|].
  replace (s + (Z.of_nat k + 2) * w) with (s + (Z.of_nat (S k) + 1) * w) by lia.
  apply IH.
Qed.

Lemma archive_many_fits (maxArchived : nat) (bs archived : list Bucket) (evicted : nat) :
  (length archived + length bs <= maxArchived)%nat ->
  archive_many maxArchived (archived, evicted) bs = (archived ++ bs, evicted).
Proof.
  revert archived. induction bs as [|b bs IH]; intros archived Hfit; simpl.
  - rewrite app_nil_r. reflexivity.
  - simpl in Hfit. unfold archive_step. cbn [fst snd].
    assert (Hstep : evictArchived maxArchived (archived ++ [b]) evicted
                    = (archived ++ [b], evicted)).
    { destruct (archived ++ [b]) as [|x rest] eqn:E; [reflexivity|].
      cbn [evictArchived]. rewrite <- E.
      replace (maxArchived <? length (archived ++ [b]))%nat with false; [reflexivity|].
      symmetry. apply Nat.ltb_ge. rewrite length_app. simpl. lia. }
    rewrite Hstep. fold (archive_many maxArchived (archived ++ [b], evicted) bs).
    rewrite IH by (rewrite length_app; simpl; lia).
    rewrite <- app_assoc. reflexivity.
Qed.

(** With [windowMs = 0] the loop over the skipped windows never ends: whatever
    the bound on its rounds, it is reached. *)
Lemma tw_skipWindows_zero_window_diverges (fuel : nat) :
  forall (st : TumblingWindowStrategy num) (e : Entry),
    tw_windowMs st = 0 -> tw_bucketStartTime st <= timestamp e ->
    tw_skipWindows fuel st e = None.
Proof.
  induction fuel as [|fuel IH]; intros st e Hw Ht; [reflexivity|].
  cbn [tw_skipWindows].
  replace (timestamp e >=? tw_bucketStartTime st + tw_windowMs st) with true.
  2:{ symmetry. rewrite Z.geb_leb. apply Z.leb_le. lia. }
  destruct (tw_archiveBucket_fields st [] (tw_bucketStartTime st)
              (tw_bucketStartTime st + tw_windowMs st))
    as (_ & Hstart & Hwin & _).
  apply IH.
  - cbn [tw_set_bucketStartTime tw_windowMs]. rewrite Hwin. exact Hw.
  - cbn [tw_set_bucketStartTime tw_bucketStartTime]. rewrite Hstart, Hwin. lia.
Qed.

Lemma tw_closeBucket_fields (st : TumblingWindowStrategy num) (endTime : Z) :
  tw_currentBucket (tw_closeBucket st endTime) = [] /\
  tw_bucketStartTime (tw_closeBucket st endTime) = tw_bucketStartTime st /\
  tw_windowMs (tw_closeBucket st endTime) = tw_windowMs st /\
  tw_maxArchivedBuckets (tw_closeBucket st endTime) = tw_maxArchivedBuckets st /\
  tw_totalPushed (tw_closeBucket st endTime) = tw_totalPushed st /\
  (tw_archivedBuckets (tw_closeBucket st endTime), tw_totalEvicted (tw_closeBucket st endTime))
  = archive_many (tw_maxArchivedBuckets st) (tw_archivedBuckets st, tw_totalEvicted st)
      (if (0 <? length (tw_currentBucket st))%nat
       then [bucket_of (tw_currentBucket st) (tw_bucketStartTime st) endTime] else []).
Proof.
  unfold tw_closeBucket.
  destruct (0 <? length (tw_currentBucket st))%nat.
  - destruct (tw_archiveBucket_fields st (tw_currentBucket st) (tw_bucketStartTime st) endTime)
      as (Hcur & Hstart & Hwin & Hmax & Hpushed & Harch).
    cbn [tw_set_currentBucket tw_currentBucket tw_bucketStartTime tw_windowMs
         tw_maxArchivedBuckets tw_totalPushed tw_archivedBuckets tw_totalEvicted].
    repeat split; assumption.
  - simpl. repeat split.
Qed.

(** C3, as the strategy behaves.  When [windowMs > 0] and a pushed entry's
    timestamp is at or after [bucketStartTime + windowMs], [push] returns
    (any number of loop rounds above the number [n] of skipped windows is
    enough), and it has archived, in this order and each followed by the
    eviction of the archive's excess: the active bucket with the percentiles of
    its entries if it held an entry, and nothing for it if it was empty; then
    one empty bucket with the all-zero percentiles for each of the [n] windows
    that lie wholly between the old boundary and the window of the entry.  The
    archived buckets follow one another without a gap, starting at the old
    bucket start (at the old boundary if the active bucket was empty) and
    ending where the new active bucket starts; the new active bucket holds the
    entry alone and its window contains the entry's timestamp. *)
Theorem tumbling_push_archives_nonempty_and_skipped
  (st : TumblingWindowStrategy num) (e : Entry) :
  0 < tw_windowMs st ->
  tw_bucketStartTime st + tw_windowMs st <= timestamp e ->
  exists (n : nat) (st' : TumblingWindowStrategy num),
    let s := tw_bucketStartTime st in
    let w := tw_windowMs st in
    let closed :=
      if (0 <? length (tw_currentBucket st))%nat
      then [bucket_of (tw_currentBucket st) s (s + w)] else [] in
    let skipped := map (skipped_bucket s w) (seq 0 n) in
    (forall fuel, (n < fuel)%nat -> tw_push fuel st e = Some st') /\
    tw_currentBucket st' = [e] /\
    tw_bucketStartTime st' = s + (Z.of_nat n + 1) * w /\
    tw_bucketStartTime st' <= timestamp e < tw_bucketStartTime st' + tw_windowMs st' /\
    tw_totalPushed st' = Datatypes.S (tw_totalPushed st) /\
    (tw_archivedBuckets st', tw_totalEvicted st')
    = archive_many (tw_maxArchivedBuckets st) (tw_archivedBuckets st, tw_totalEvicted st)
        (closed ++ skipped) /\
    ((length (tw_archivedBuckets st) + length (closed ++ skipped)
      <= tw_maxArchivedBuckets st)%nat ->
     tw_archivedBuckets st' = tw_archivedBuckets st ++ closed ++ skipped) /\
    (tw_currentBucket st = [] -> closed = []) /\
    (forall b, In b skipped ->
               b_entries b = [] /\ b_percentiles b = zero_percentiles /\
               b_endTime b = b_startTime b + w) /\
    contiguous_from (if (0 <? length (tw_currentBucket st))%nat then s else s + w)
                    (closed ++ skipped) /\
    (forall b, last (closed ++ skipped) = Some b -> b_endTime b = tw_bucketStartTime st').
Proof.
  intros Hw Ht.
  destruct (skipped_count _ _ _ Hw Ht) as (n & Hlo & Hhi).
  set (s := tw_bucketStartTime st) in *. set (w := tw_windowMs st) in *.
  set (st0 := mkTumbling (tw_currentBucket st) s w (tw_maxArchivedBuckets st)
                         (tw_archivedBuckets st) (Datatypes.S (tw_totalPushed st))
                         (tw_totalEvicted st)).
  set (stc := tw_set_bucketStartTime (tw_closeBucket st0 (s + w)) (s + w)).
  set (closed := if (0 <? length (tw_currentBucket st))%nat
                 then [bucket_of (tw_currentBucket st) s (s + w)] else []).
  set (skipped := map (skipped_bucket s w) (seq 0 n)).
  destruct (tw_closeBucket_fields st0 (s + w)) as (Hcur & Hstart & Hwin & Hmax & Hpushed & Harch).
  assert (Hc_c : tw_currentBucket stc = []) by exact Hcur.
  assert (Hc_s : tw_bucketStartTime stc = s + w) by reflexivity.
  assert (Hc_w : tw_windowMs stc = w) by exact Hwin.
  assert (Hc_m : tw_maxArchivedBuckets stc = tw_maxArchivedBuckets st) by exact Hmax.
  assert (Hc_p : tw_totalPushed stc = Datatypes.S (tw_totalPushed st)) by exact Hpushed.
  assert (Hc_a : (tw_archivedBuckets stc, tw_totalEvicted stc)
                 = archive_many (tw_maxArchivedBuckets st)
                     (tw_archivedBuckets st, tw_totalEvicted st) closed) by exact Harch.
  clear Hcur Hstart Hwin Hmax Hpushed Harch.
  destruct (tw_skipWindows_spec n stc e) as (st3 & Hrun & Hc3 & Hs3 & Hw3 & Hm3 & Hp3 & Ha3).
  { rewrite Hc_w. exact Hw. }
  { rewrite Hc_s, Hc_w. lia. }
  { rewrite Hc_s, Hc_w. lia. }
  rewrite Hc_s, Hc_w in Hs3. rewrite Hc_w in Hw3.
  rewrite Hc_s, Hc_w, Hc_m, Hc_a in Ha3.
  replace (s + w - w) with s in Ha3 by lia. fold skipped in Ha3.
  exists n, (tw_set_currentBucket st3 (tw_currentBucket st3 ++ [e])).
  cbn zeta. fold s w closed skipped.
  cbn [tw_set_currentBucket tw_currentBucket tw_bucketStartTime tw_windowMs
       tw_totalPushed tw_archivedBuckets tw_totalEvicted].
  assert (Harchived : (tw_archivedBuckets st3, tw_totalEvicted st3)
                      = archive_many (tw_maxArchivedBuckets st)
                          (tw_archivedBuckets st, tw_totalEvicted st) (closed ++ skipped)).
  { rewrite Ha3. unfold archive_many. rewrite fold_left_app. reflexivity. }
  split; [|split; [|split; [|split; [|split; [|split; [|split; [|split; [|split; [|split]]]]]]]]].
  - intros fuel Hfuel. unfold tw_push. fold s w st0.
    cbn [st0 tw_bucketStartTime tw_windowMs].
    replace (timestamp e >=? s + w) with true
      by (symmetry; rewrite Z.geb_leb; apply Z.leb_le; exact Ht).
    fold st0. fold stc. rewrite (Hrun fuel Hfuel). reflexivity.
  - rewrite Hc3, Hc_c. reflexivity.
  - rewrite Hs3. lia.
  - rewrite Hs3, Hw3. lia.
  - rewrite Hp3. exact Hc_p.
  - exact Harchived.
  - intros Hfit. rewrite archive_many_fits in Harchived by exact Hfit.
    injection Harchived as -> _. reflexivity.
  - intros Hempty. unfold closed. rewrite Hempty. reflexivity.
  - intros b Hb. unfold skipped in Hb. apply in_map_iff in Hb.
    destruct Hb as (i & <- & _). unfold skipped_bucket, bucket_of. simpl.
    repeat split. lia.
  - unfold closed. destruct (0 <? length (tw_currentBucket st))%nat; simpl.
    + split; [reflexivity|].
      replace (s + w) with (s + (Z.of_nat 0 + 1) * w) by lia. apply contiguous_skipped.
    + replace (s + w) with (s + (Z.of_nat 0 + 1) * w) by lia. apply contiguous_skipped.
  - intros b Hlast. rewrite Hs3.
    destruct n as [|n'].
    + unfold skipped in Hlast. simpl in Hlast. rewrite app_nil_r in Hlast.
      unfold closed in Hlast. destruct (0 <? length (tw_currentBucket st))%nat; simpl in Hlast.
      * injection Hlast as <-. simpl. lia.
      * discriminate Hlast.
    + unfold skipped in Hlast. rewrite seq_S, map_app in Hlast. simpl in Hlast.
      rewrite app_assoc, last_snoc in Hlast. injection Hlast as <-.
      unfold skipped_bucket, bucket_of. simpl. lia.
Qed.

End TumblingWindowClaims.

(** A fresh window of 10 ms opened at [t = 0] (its active bucket is empty)
    receives an entry of [t = 25]: the archive then holds the skipped window
    from 10 to 20 only; the empty active bucket from 0 to 10 was not archived. *)
Lemma tumbling_empty_active_bucket_is_not_archived :
  exists st',
    tw_push 3 fresh_tumbling (mkEntry "A" latency 7%float 25 None) = Some st' /\
    map (fun b => (b_startTime b, b_endTime b, length (b_entries b))) (tw_archivedBuckets st')
    = [(10, 20, 0%nat)] /\
    tw_bucketStartTime st' = 20.
Proof.
  eexists. split; [vm_compute; reflexivity|]. split; reflexivity.
Qed.

(** The claim for a window of 10 ms opened at [t = 0] that holds one entry and
    receives an entry of [t = 25]. *)
Lemma tumbling_push_archives_nonempty_and_skipped_witness :
  exists (n : nat) (st' : TumblingWindowStrategy float),
    tw_push (Datatypes.S n) tumbling_with_one_entry (mkEntry "A" latency 7%float 25 None)
    = Some st' /\
    tw_currentBucket st' = [mkEntry "A" latency 7%float 25 None].
Proof.
  destruct (tumbling_push_archives_nonempty_and_skipped
              tumbling_with_one_entry (mkEntry "A" latency 7%float 25 None))
    as (n & st' & Hpush & Hcur & _).
  - simpl. lia.
  - simpl. lia.
  - exists n, st'. split; [apply Hpush; lia | exact Hcur].
Defined.

(** ** Percentiles in exact arithmetic *)

Section ExactPercentile.

Local Open Scope Q_scope.

Lemma js_get_exact (s : list Q) (z : Z) :
  (0 <= z)%Z -> js_get (num := Q) s (inject_Z z) = nth (Z.to_nat z) s 0.
Proof.
  intros Hz. unfold js_get. cbn [to_index exact undef_num]. unfold Exact.to_index.
  rewrite Qfloor_Z.
  replace (Qeq_bool (inject_Z z) (inject_Z z)) with true
    by (symmetry; apply Qeq_bool_iff; reflexivity).
  replace (0 <=? z)%Z with true by (symmetry; apply Z.leb_le; exact Hz).
  reflexivity.
Qed.

Lemma percentile_exact_unfold (s : list Q) (p : Q) :
  (2 <= length s)%nat ->
  percentile (num := Q) s p
  = if Qeq_bool (inject_Z (Qfloor (rank (length s) p))) (inject_Z (Qceiling (rank (length s) p)))
    then js_get (num := Q) s (inject_Z (Qfloor (rank (length s) p)))
    else js_get (num := Q) s (inject_Z (Qfloor (rank (length s) p)))
           * (1 - (rank (length s) p - inject_Z (Qfloor (rank (length s) p))))
         + js_get (num := Q) s (inject_Z (Qceiling (rank (length s) p)))
           * (rank (length s) p - inject_Z (Qfloor (rank (length s) p))).
Proof.
  intros Hn. unfold percentile.
  destruct (length s =? 0)%nat eqn:E0; [apply Nat.eqb_eq in E0; lia|].
  destruct (length s =? 1)%nat eqn:E1; [apply Nat.eqb_eq in E1; lia|].
  reflexivity.
Qed.

Lemma inject_Z_nonneg (z : Z) : (0 <= z)%Z -> 0 <= inject_Z z.
Proof. intros Hz. change 0 with (inject_Z 0). rewrite <- Zle_Qle. exact Hz. Qed.

Lemma rank_bounds (n : nat) (p : Q) :
  (1 <= n)%nat -> 0 <= p -> p <= 100 ->
  0 <= rank n p /\ rank n p <= inject_Z (Z.of_nat n - 1).
Proof.
  intros Hn Hp0 Hp1. unfold rank.
  assert (HL : 0 <= inject_Z (Z.of_nat n - 1)) by (apply inject_Z_nonneg; lia).
  assert (Hd0 : 0 <= p / 100) by (apply Qle_shift_div_l; [reflexivity | lra]).
  assert (Hd1 : p / 100 <= 1) by (apply Qle_shift_div_r; [reflexivity | lra]).
  split.
  - apply Qmult_le_0_compat; assumption.
  - rewrite <- (Qmult_1_l (inject_Z (Z.of_nat n - 1))) at 2.
    apply Qmult_le_compat_r; assumption.
Qed.

Lemma rank_mono (n : nat) (p q : Q) :
  (1 <= n)%nat -> p <= q -> rank n p <= rank n q.
Proof.
  intros Hn Hpq. unfold rank.
  apply Qmult_le_compat_r; [|apply inject_Z_nonneg; lia].
  unfold Qdiv. apply Qmult_le_compat_r; [exact Hpq | discriminate].
Qed.

(** The integer ranks around a rank within the list. *)
Lemma floor_ceiling_bounds (x : Q) (m : Z) :
  0 <= x -> x <= inject_Z m ->
  (0 <= Qfloor x)%Z /\ (Qfloor x <= Qceiling x)%Z /\ (Qceiling x <= m)%Z /\
  (Qceiling x <= Qfloor x + 1)%Z.
Proof.
  intros H0 Hm.
  pose proof (Qfloor_le x) as Hf. pose proof (Qlt_floor x) as Hf'.
  pose proof (Qle_ceiling x) as Hc. pose proof (Qceiling_lt x) as Hc'.
  repeat split.
  - replace 0%Z with (Qfloor 0) by reflexivity. apply Qfloor_resp_le. exact H0.
  - rewrite Zle_Qle. lra.
  - rewrite <- (Qceiling_Z m). apply Qceiling_resp_le. exact Hm.
  - assert (Hlt : inject_Z (Qceiling x - 1) < inject_Z (Qfloor x + 1)) by lra.
    rewrite <- Zlt_Qlt in Hlt. lia.
Qed.

Lemma percentile_exact_interpolate (s : list Q) (p : Q) :
  (2 <= length s)%nat -> 0 <= p -> p <= 100 ->
  percentile (num := Q) s p == interpolate s (rank (length s) p).
Proof.
  intros Hn Hp0 Hp1.
  destruct (rank_bounds (length s) p ltac:(lia) Hp0 Hp1) as [Hx0 Hx1].
  destruct (floor_ceiling_bounds _ _ Hx0 Hx1) as (Hf0 & Hfc & Hcm & Hc1).
  rewrite percentile_exact_unfold by exact Hn.
  rewrite !js_get_exact by lia.
  unfold interpolate.
  set (x := rank (length s) p) in *.
  destruct (Qeq_bool (inject_Z (Qfloor x)) (inject_Z (Qceiling x))) eqn:E.
  - apply Qeq_bool_iff in E. rewrite inject_Z_injective in E. rewrite <- E. ring.
  - ring.
Qed.

Lemma interpolate_between (s : list Q) (x : Q) :
  ascending s -> 0 <= x -> x <= inject_Z (Z.of_nat (length s) - 1) ->
  nth (Z.to_nat (Qfloor x)) s 0 <= interpolate s x /\
  interpolate s x <= nth (Z.to_nat (Qceiling x)) s 0.
Proof.
  intros Hs Hx0 Hx1.
  destruct (floor_ceiling_bounds _ _ Hx0 Hx1) as (Hf0 & Hfc & Hcm & Hc1).
  pose proof (Qfloor_le x) as Hf. pose proof (Qlt_floor x) as Hf'.
  assert (Hab : nth (Z.to_nat (Qfloor x)) s 0 <= nth (Z.to_nat (Qceiling x)) s 0)
    by (apply Hs; lia).
  unfold interpolate.
  set (a := nth (Z.to_nat (Qfloor x)) s 0) in *.
  set (b := nth (Z.to_nat (Qceiling x)) s 0) in *.
  set (w := x - inject_Z (Qfloor x)).
  assert (Hw0 : 0 <= w) by (unfold w; lra).
  assert (Hw1 : w <= 1).
  { unfold w. rewrite inject_Z_plus in Hf'. change (inject_Z 1) with 1 in Hf'. lra. }
  assert (H1 : 0 <= w * (b - a)) by (apply Qmult_le_0_compat; lra).
  assert (H2 : 0 <= (1 - w) * (b - a)) by (apply Qmult_le_0_compat; lra).
  split; [lra|].
  assert (Heq : b - (a + w * (b - a)) == (1 - w) * (b - a)) by ring.
  lra.
Qed.

(** The interpolated value does not decrease with the rank. *)
Lemma interpolate_mono (s : list Q) (x y : Q) :
  ascending s -> 0 <= x -> x <= y -> y <= inject_Z (Z.of_nat (length s) - 1) ->
  interpolate s x <= interpolate s y.
Proof.
  intros Hs Hx0 Hxy Hy1.
  assert (Hx1 : x <= inject_Z (Z.of_nat (length s) - 1)) by lra.
  assert (Hy0 : 0 <= y) by lra.
  destruct (floor_ceiling_bounds _ _ Hx0 Hx1) as (Hfx0 & Hfcx & Hcxm & Hcx1).
  destruct (floor_ceiling_bounds _ _ Hy0 Hy1) as (Hfy0 & Hfcy & Hcym & Hcy1).
  destruct (interpolate_between s x Hs Hx0 Hx1) as [_ Hxb].
  destruct (interpolate_between s y Hs Hy0 Hy1) as [Hya _].
  destruct (Z_le_gt_dec (Qceiling x) (Qfloor y)) as [Hle|Hgt].
  - apply Qle_trans with (nth (Z.to_nat (Qceiling x)) s 0); [exact Hxb|].
    apply Qle_trans with (nth (Z.to_nat (Qfloor y)) s 0); [|exact Hya].
    apply Hs; lia.
  - pose proof (Qfloor_resp_le x y Hxy) as Hfxy.
    pose proof (Qceiling_resp_le x y Hxy) as Hcxy.
    assert (Hfeq : Qfloor y = Qfloor x) by lia.
    assert (Hceq : Qceiling y = Qceiling x) by lia.
    unfold interpolate. rewrite Hfeq, Hceq.
    assert (Hab : nth (Z.to_nat (Qfloor x)) s 0 <= nth (Z.to_nat (Qceiling x)) s 0)
      by (apply Hs; lia).
    set (a := nth (Z.to_nat (Qfloor x)) s 0) in *.
    set (b := nth (Z.to_nat (Qceiling x)) s 0) in *.
    assert (H1 : 0 <= (y - x) * (b - a)) by (apply Qmult_le_0_compat; lra).
    assert (Heq : (a + (y - inject_Z (Qfloor x)) * (b - a))
                  - (a + (x - inject_Z (Qfloor x)) * (b - a)) == (y - x) * (b - a)) by ring.
    lra.
Qed.

Lemma ascending_bounds (s : list Q) (x : Q) :
  ascending s -> In x s ->
  nth 0 s 0 <= x /\ x <= nth (length s - 1) s 0.
Proof.
  intros Hs Hin. apply (In_nth s x 0) in Hin. destruct Hin as (i & Hi & <-).
  split; apply Hs; lia.
Qed.

Lemma rank_0 (n : nat) : rank n 0 == 0.
Proof. unfold rank. field. Qed.

Lemma rank_100 (n : nat) : rank n 100 == inject_Z (Z.of_nat n - 1).
Proof. unfold rank. field. Qed.

Lemma percentile_exact_at_integer_rank (s : list Q) (p : Q) (k : Z) :
  (2 <= length s)%nat -> (0 <= k)%Z -> rank (length s) p == inject_Z k ->
  percentile (num := Q) s p = nth (Z.to_nat k) s 0.
Proof.
  intros Hn Hk Hr. rewrite percentile_exact_unfold by exact Hn.
  assert (Hf : Qfloor (rank (length s) p) = k) by (rewrite Hr; apply Qfloor_Z).
  assert (Hc : Qceiling (rank (length s) p) = k) by (rewrite Hr; apply Qceiling_Z).
  rewrite Hf, Hc.
  replace (Qeq_bool (inject_Z k) (inject_Z k)) with true
    by (symmetry; apply Qeq_bool_iff; reflexivity).
  apply js_get_exact. exact Hk.
Qed.

End ExactPercentile.

(** C1, as the function behaves.  In any arithmetic, [percentile] returns 0
    for the empty list and the sole element of a list of one; for two or more
    elements it returns the element at the rank's floor when floor and ceiling
    of the rank [p / 100 * (n - 1)] are equal, and the weighted sum of the
    elements at the two otherwise.  In exact arithmetic, for an ascending list
    and [p] between 0 and 100, both ranks are within the list, that value is
    the linear interpolation between the elements at them, it lies between the
    first element (the minimum) and the last (the maximum), and it is the
    minimum for [p = 0] and the maximum for [p = 100]. *)
Theorem percentile_interpolates_between_ranks :
  (forall (num : Type) (N : JSNumber num) (p : num),
      percentile [] p = of_Z 0) /\
  (forall (num : Type) (N : JSNumber num) (x p : num),
      percentile [x] p = x) /\
  (forall (num : Type) (N : JSNumber num) (s : list num) (p : num),
      (2 <= length s)%nat ->
      let index := nmul (ndiv p (of_Z 100)) (of_Z (Z.of_nat (length s) - 1)) in
      percentile s p
      = if neqb (nfloor index) (nceil index) then js_get s (nfloor index)
        else nadd (nmul (js_get s (nfloor index)) (nsub (of_Z 1) (nsub index (nfloor index))))
                  (nmul (js_get s (nceil index)) (nsub index (nfloor index)))) /\
  (forall (s : list Q) (p : Q),
      ascending s -> (2 <= length s)%nat -> (0 <= p)%Q -> (p <= 100)%Q ->
      (Z.to_nat (Qfloor (rank (length s) p)) <= Z.to_nat (Qceiling (rank (length s) p)))%nat /\
      (Z.to_nat (Qceiling (rank (length s) p)) < length s)%nat /\
      (percentile s p == interpolate s (rank (length s) p))%Q /\
      (nth 0 s 0 <= percentile s p)%Q /\
      (percentile s p <= nth (length s - 1) s 0)%Q /\
      (forall y, In y s -> (nth 0 s 0 <= y)%Q /\ (y <= nth (length s - 1) s 0)%Q) /\
      percentile s 0%Q = nth 0 s 0%Q /\
      percentile s 100%Q = nth (length s - 1) s 0%Q).
Proof.
  split; [|split; [|split]].
  - intros. reflexivity.
  - intros. reflexivity.
  - intros num N s p Hn index. unfold percentile.
    destruct (length s =? 0)%nat eqn:E0; [apply Nat.eqb_eq in E0; lia|].
    destruct (length s =? 1)%nat eqn:E1; [apply Nat.eqb_eq in E1; lia|].
    reflexivity.
  - intros s p Hs Hn Hp0 Hp1.
    destruct (rank_bounds (length s) p ltac:(lia) Hp0 Hp1) as [Hx0 Hx1].
    destruct (floor_ceiling_bounds _ _ Hx0 Hx1) as (Hf0 & Hfc & Hcm & Hc1).
    pose proof (percentile_exact_interpolate s p Hn Hp0 Hp1) as Hint.
    destruct (interpolate_between s _ Hs Hx0 Hx1) as [Hlo Hhi].
    split; [lia|]. split; [lia|]. split; [exact Hint|].
    split; [|split; [|split; [|split]]].
    + rewrite Hint. eapply Qle_trans; [|exact Hlo]. apply Hs; lia.
    + rewrite Hint. eapply Qle_trans; [exact Hhi|]. apply Hs; lia.
    + intros y Hy. apply ascending_bounds; assumption.
    + rewrite (percentile_exact_at_integer_rank s 0 0 Hn); [reflexivity|lia|apply rank_0].
    + rewrite (percentile_exact_at_integer_rank s 100 (Z.of_nat (length s) - 1) Hn);
        [f_equal; lia | lia | apply rank_100].
Qed.

(** The exact part of the claim on the list 1, 2, 4 at [p = 75]. *)
Lemma percentile_interpolates_between_ranks_witness :
  (percentile [1; 2; 4] (75 # 1) == interpolate [1; 2; 4] (rank 3 (75 # 1)))%Q.
Proof.
  refine (proj1 (proj2 (proj2 (proj2 (proj2 (proj2 percentile_interpolates_between_ranks))
                                     [1%Q; 2%Q; 4%Q] (75 # 1)%Q _ _ _ _)))).
  - intros i j Hij Hj. simpl in Hj.
    destruct i as [|[|[|i]]]; destruct j as [|[|[|j]]]; simpl; try lia; discriminate.
  - simpl. lia.
  - discriminate.
  - discriminate.
Defined.

(** Two equal values of 1.3 are an ascending list; its 95th percentile in
    binary64 is 1.2999999999999998, below the minimum 1.3. *)
Lemma percentile_binary64_leaves_the_range :
  nltb (percentile [0x1.4cccccccccccdp+0; 0x1.4cccccccccccdp+0]%float (of_Z 95))
       (nth 0 [0x1.4cccccccccccdp+0; 0x1.4cccccccccccdp+0]%float undef_num)
  = true.
Proof. vm_compute. reflexivity. Qed.

(** The rounding functions of the binary64 instance on a few values. *)
Example binary64_rounding_functions :
  (Binary64.floor 0x1.e666666666666p+0 = 1 /\ Binary64.ceil 0x1.e666666666666p+0 = 2 /\
   Binary64.floor (-0.5) = -1 /\ Binary64.ceil (-0.5) = -0 /\ Binary64.floor 3 = 3 /\
   Binary64.to_index 2 = Some 2%nat /\ Binary64.to_index 1.5 = None /\
   Binary64.to_index (-1) = None /\
   Binary64.of_Z 95 = 95 /\ Binary64.of_Z (-3) = -3 /\
   Binary64.of_Z 9007199254740993 = 9007199254740992)%float.
Proof. vm_compute. repeat split. Qed.

Lemma endpoints_ok_up_to_4096 : forallb endpoints_ok (seq 2 4095) = true.
Proof. vm_compute. reflexivity. Qed.

(** In binary64, for a list of 2 to 4096 values, the percentile of [p = 0] is
    the first element and that of [p = 100] the last, whatever the values. *)
Lemma percentile_binary64_endpoints (s : list float) :
  (2 <= length s)%nat -> (length s <= 4096)%nat ->
  percentile s (of_Z 0) = nth 0 s undef_num /\
  percentile s (of_Z 100) = nth (length s - 1) s undef_num.
Proof.
  intros Hlo Hhi.
  pose proof endpoints_ok_up_to_4096 as Hall.
  rewrite forallb_forall in Hall.
  specialize (Hall (length s)). rewrite in_seq in Hall.
  specialize (Hall ltac:(lia)). unfold endpoints_ok in Hall.
  apply andb_prop in Hall. destruct Hall as [Hall H4].
  apply andb_prop in Hall. destruct Hall as [Hall H3].
  apply andb_prop in Hall. destruct Hall as [H1 H2].
  unfold percentile.
  destruct (length s =? 0)%nat eqn:E0; [apply Nat.eqb_eq in E0; lia|].
  destruct (length s =? 1)%nat eqn:E1; [apply Nat.eqb_eq in E1; lia|].
  cbv zeta. rewrite H1, H3. unfold js_get.
  destruct (to_index (nfloor (nmul (ndiv (of_Z 0) (of_Z 100))
                                   (of_Z (Z.of_nat (length s) - 1))))) as [k0|];
    [|discriminate H2].
  destruct (to_index (nfloor (nmul (ndiv (of_Z 100) (of_Z 100))
                                   (of_Z (Z.of_nat (length s) - 1))))) as [k1|];
    [|discriminate H4].
  apply Nat.eqb_eq in H2, H4. subst k0 k1. split; reflexivity.
Qed.

(** ** The statistics bundle *)

Section BundleFacts.

Context {num : Type} `{JSNumber num}.

Lemma sort_insert_length (x : num) (l : list num) :
  length (sort_insert x l) = Datatypes.S (length l).
Proof.
  induction l as [|y l IH]; simpl; [reflexivity|].
  destruct (nltb (nsub y x) (of_Z 0)); simpl; [rewrite IH|]; reflexivity.
Qed.

Lemma js_sort_length (l : list num) : length (js_sort l) = length l.
Proof.
  unfold js_sort. induction l as [|x l IH]; simpl; [reflexivity|].
  rewrite sort_insert_length, IH. reflexivity.
Qed.

Lemma computePercentiles_count (entries : list (MetricEntry num)) (m : MetricType) :
  count (computePercentiles entries m)
  = length (List.filter (fun e => MetricType_eqb (metric e) m) entries).
Proof.
  unfold computePercentiles. rewrite js_sort_length, length_map.
  destruct (length (List.filter _ entries) =? 0)%nat eqn:E; simpl.
  - apply Nat.eqb_eq in E. symmetry. exact E.
  - reflexivity.
Qed.

End BundleFacts.

Section ExactBundle.

Local Open Scope Q_scope.

Lemma sort_insert_Forall (P : Q -> Prop) (x : Q) (l : list Q) :
  P x -> Forall P l -> Forall P (sort_insert x l).
Proof.
  intros Hx Hl. induction Hl as [|y l Hy Hl IH]; simpl.
  - constructor; [exact Hx | constructor].
  - destruct (negb (Qle_bool (inject_Z 0) (y - x))).
    + constructor; assumption.
    + constructor; [exact Hx | constructor; assumption].
Qed.

Lemma sort_insert_sorted (x : Q) (l : list Q) :
  StronglySorted Qle l -> StronglySorted Qle (sort_insert x l).
Proof.
  intros Hl. induction Hl as [|y l Hl IH Hy]; simpl.
  - constructor; constructor.
  - destruct (negb (Qle_bool (inject_Z 0) (y - x))) eqn:E.
    + constructor; [exact IH|].
      apply sort_insert_Forall; [|exact Hy].
      apply negb_true_iff in E.
      destruct (Qlt_le_dec (y - x) 0) as [Hlt|Hge].
      * lra.
      * apply Qle_bool_iff in Hge. change (inject_Z 0) with 0 in E. congruence.
    + apply negb_false_iff, Qle_bool_iff in E. change (inject_Z 0) with 0 in E.
      assert (Hxy : x <= y) by lra.
      constructor; [constructor; assumption|].
      constructor; [exact Hxy|].
      eapply Forall_impl; [exact Hy|]. intros z Hz. simpl in Hz. lra.
Qed.

Lemma js_sort_sorted (l : list Q) : StronglySorted Qle (js_sort l).
Proof.
  unfold js_sort. induction l as [|x l IH]; simpl; [constructor|].
  apply sort_insert_sorted. exact IH.
Qed.

Lemma StronglySorted_ascending (l : list Q) : StronglySorted Qle l -> ascending l.
Proof.
  intros Hl. induction Hl as [|y l Hl IH Hy]; intros i j Hij Hj.
  - simpl in Hj. lia.
  - destruct j as [|j].
    + assert (i = 0%nat) by lia. subst i. simpl. lra.
    + destruct i as [|i]; simpl.
      * simpl in Hj. rewrite List.Forall_forall in Hy. apply Hy. apply nth_In. lia.
      * apply IH; simpl in Hj; lia.
Qed.

(** The percentile of an ascending list does not decrease with [p]. *)
Lemma percentile_exact_mono (s : list Q) (p q : Q) :
  ascending s -> 0 <= p -> p <= q -> q <= 100 ->
  percentile (num := Q) s p <= percentile (num := Q) s q.
Proof.
  intros Hs Hp Hpq Hq.
  destruct (le_lt_dec 2 (length s)) as [Hn|Hn].
  - rewrite (percentile_exact_interpolate s p Hn) by lra.
    rewrite (percentile_exact_interpolate s q Hn) by lra.
    destruct (rank_bounds (length s) p ltac:(lia) Hp ltac:(lra)) as [Hx0 _].
    destruct (rank_bounds (length s) q ltac:(lia) ltac:(lra) Hq) as [_ Hy1].
    apply interpolate_mono; try assumption.
    apply rank_mono; [lia | exact Hpq].
  - unfold percentile.
    destruct (length s =? 0)%nat eqn:E0; [apply Qle_refl|].
    destruct (length s =? 1)%nat eqn:E1; [apply Qle_refl|].
    apply Nat.eqb_neq in E0, E1. lia.
Qed.

End ExactBundle.

(** C5, as the function behaves.  In any arithmetic, the bundle's [count] is
    the number of entries of the requested metric, and when there is none every
    field of the bundle is zero.  In exact arithmetic, when at least one entry
    matches, [min <= p50 <= p95 <= p99 <= max]. *)
Theorem bundle_is_zero_or_ordered :
  (forall (num : Type) (N : JSNumber num) (entries : list (MetricEntry num)) (m : MetricType),
      count (computePercentiles entries m)
      = length (List.filter (fun e => MetricType_eqb (metric e) m) entries) /\
      (List.filter (fun e => MetricType_eqb (metric e) m) entries = [] ->
       computePercentiles entries m
       = mkPercentiles (of_Z 0) (of_Z 0) (of_Z 0) (of_Z 0) (of_Z 0) (of_Z 0) 0)) /\
  (forall (entries : list (MetricEntry Q)) (m : MetricType),
      (0 < count (computePercentiles entries m))%nat ->
      (pr_min (computePercentiles entries m) <= p50 (computePercentiles entries m))%Q /\
      (p50 (computePercentiles entries m) <= p95 (computePercentiles entries m))%Q /\
      (p95 (computePercentiles entries m) <= p99 (computePercentiles entries m))%Q /\
      (p99 (computePercentiles entries m) <= pr_max (computePercentiles entries m))%Q).
Proof.
  split.
  - intros num N entries m. split; [apply computePercentiles_count|].
    intros Hnone. unfold computePercentiles. rewrite Hnone. reflexivity.
  - intros entries m Hcount.
    rewrite computePercentiles_count in Hcount.
    unfold computePercentiles.
    set (values := js_sort (map value (List.filter (fun e => MetricType_eqb (metric e) m)
                                                   entries))) in *.
    assert (Hlen : (0 < length values)%nat).
    { unfold values. rewrite js_sort_length, length_map. exact Hcount. }
    assert (Hasc : ascending values)
      by (apply StronglySorted_ascending, js_sort_sorted).
    destruct (length values =? 0)%nat eqn:E0; [apply Nat.eqb_eq in E0; lia|].
    cbn [pr_min pr_max p50 p95 p99].
    assert (H0 : nth 0 values (undef_num (num := Q)) = percentile values (of_Z 0)).
    { destruct (Nat.eq_dec (length values) 1%nat) as [E1|E1].
      - unfold percentile. rewrite E0, (proj2 (Nat.eqb_eq _ _) E1). reflexivity.
      - symmetry. change (of_Z 0) with 0%Q.
        apply (percentile_exact_at_integer_rank values 0 0); [lia|lia|apply rank_0]. }
    assert (H100 : nth (length values - 1) values (undef_num (num := Q))
                   = percentile values (of_Z 100)).
    { destruct (Nat.eq_dec (length values) 1%nat) as [E1|E1].
      - unfold percentile. rewrite E0, (proj2 (Nat.eqb_eq _ _) E1), E1. reflexivity.
      - symmetry. change (of_Z 100) with 100%Q.
        rewrite (percentile_exact_at_integer_rank values 100 (Z.of_nat (length values) - 1));
          [f_equal; lia | lia | lia | apply rank_100]. }
    rewrite H0, H100.
    repeat split; apply percentile_exact_mono; try exact Hasc; discriminate.
Qed.

(** The exact part of the claim on three latency entries. *)
Lemma bundle_is_zero_or_ordered_witness :
  (pr_min (computePercentiles
             [mkEntry "A" latency 3%Q 0 None; mkEntry "A" latency 1%Q 1 None;
              mkEntry "B" latency 2%Q 2 None] latency)
   <= p50 (computePercentiles
             [mkEntry "A" latency 3%Q 0 None; mkEntry "A" latency 1%Q 1 None;
              mkEntry "B" latency 2%Q 2 None] latency))%Q.
Proof.
  refine (proj1 (proj2 bundle_is_zero_or_ordered _ latency _)).
  simpl. lia.
Defined.

(** Two latency entries of 1.3 in binary64: [p95] is 1.2999999999999998, below
    [min] and [p50], which are 1.3. *)
Lemma bundle_binary64_is_not_ordered :
  nltb (p95 (computePercentiles
               [mkEntry "A" latency 0x1.4cccccccccccdp+0%float 0 None;
                mkEntry "A" latency 0x1.4cccccccccccdp+0%float 1 None] latency))
       (pr_min (computePercentiles
               [mkEntry "A" latency 0x1.4cccccccccccdp+0%float 0 None;
                mkEntry "A" latency 0x1.4cccccccccccdp+0%float 1 None] latency))
  = true /\
  nleb (p50 (computePercentiles
               [mkEntry "A" latency 0x1.4cccccccccccdp+0%float 0 None;
                mkEntry "A" latency 0x1.4cccccccccccdp+0%float 1 None] latency))
       (p95 (computePercentiles
               [mkEntry "A" latency 0x1.4cccccccccccdp+0%float 0 None;
                mkEntry "A" latency 0x1.4cccccccccccdp+0%float 1 None] latency))
  = false.
Proof. split; vm_compute; reflexivity. Qed.

(** The counter equation after three pushes, a query, a clear and one more push
    on a ring buffer of capacity 2. *)
Lemma counters_balance_in_every_snapshot_witness :
  exists snap,
    rb_getSnapshot
      (rb_run [RbPush (mkEntry "A" latency 10%float 1 None);
               RbPush (mkEntry "A" latency 20%float 2 None);
               RbGetSnapshot;
               RbPush (mkEntry "A" latency 30%float 3 None);
               RbClear;
               RbPush (mkEntry "B" latency 40%float 4 None)]
              (mkRingBuffer [None; None] (Some 0%nat) 0 2 0 0))
    = Normal snap /\
    snap_totalPushed snap = (snap_size snap + snap_totalEvicted snap)%nat.
Proof.
  exact (proj1 (proj1 (counters_balance_in_every_snapshot (num := float))
                      (Some (Some 2)) _ _ eq_refl)).
Defined.

(** ** The strategies at work, in binary64 *)

(** A ring buffer of capacity 3 after the latencies 10, 20, 30, 40 of stage A:
    three values are counted, from 20 to 40, with median 30. *)
Example ring_buffer_of_three_after_four_pushes :
  exists rb0 r,
    RingBufferStrategy_new (num := float) (Some (Some 3)) = Normal rb0 /\
    rb_getPercentiles
      (fold_left rb_push
         [mkEntry "A" latency 10%float 1 None; mkEntry "A" latency 20%float 2 None;
          mkEntry "A" latency 30%float 3 None; mkEntry "A" latency 40%float 4 None] rb0)
      latency
    = Normal r /\
    count r = 3%nat /\ pr_min r = 20%float /\ pr_max r = 40%float /\ p50 r = 30%float.
Proof.
  eexists. eexists. split; [reflexivity|]. split; [vm_compute; reflexivity|].
  repeat split.
Qed.

(** A tumbling window of 10 ms opened at [t = 0], an entry at [t = 5] and one
    at [t = 25]: the archive holds the first bucket with its entry and one
    empty bucket for the window from 10 to 20; the active bucket holds the
    second entry alone. *)
Example tumbling_window_with_a_skipped_window :
  exists st1 st2,
    tw_push 1 fresh_tumbling (mkEntry "A" latency 3%float 5 None) = Some st1 /\
    tw_push 2 st1 (mkEntry "A" latency 7%float 25 None) = Some st2 /\
    map (fun b => (b_startTime b, b_endTime b, length (b_entries b))) (tw_archivedBuckets st2)
    = [(0, 10, 1%nat); (10, 20, 0%nat)] /\
    tw_currentBucket st2 = [mkEntry "A" latency 7%float 25 None] /\
    tw_bucketStartTime st2 = 20.
Proof.
  eexists. eexists. split; [vm_compute; reflexivity|].
  split; [vm_compute; reflexivity|]. repeat split.
Qed.

(** A collector on a ring buffer of capacity 2: a start at [t = 100] and an
    end at [t = 150] leave the invocation entry and a latency entry of 50. *)
Example collector_feeds_a_ring_buffer :
  exists c1 c2,
    mc_onStageStart
      (MetricCollector_new
         (mkOptions "c" (mkRingBuffer [None; None] (Some 0%nat) 0 2 0 0) None None None None))
      (mkStageEvent "A" 100 None) = Normal c1 /\
    mc_onStageEnd c1 (mkStageEvent "A" 150 None) = Normal c2 /\
    rb_getEntries (mc_strategy c2)
    = [Some (mkEntry "A" stageInvocation 1%float 100 None);
       Some (mkEntry "A" latency 50%float 150 None)] /\
    mc_stageStartTimes c2 !! "A" = None.
Proof.
  eexists. eexists. split; [reflexivity|]. split; [reflexivity|].
  split; [vm_compute; reflexivity|]. vm_compute. reflexivity.
Qed.

(* ===================================================================== *)
(** * Part IV.  Further properties of the code                            *)
(* ===================================================================== *)

(** ** The insertion-ordered map *)

Section MapFacts.

Context {V : Type}.

Lemma map_get_set (m : list (string * V)) (k k' : string) (v : V) :
  map_get (map_set m k v) k' = if String.eqb k k' then Some v else map_get m k'.
Proof.
  induction m as [|[k0 v0] m IH]; simpl.
  - reflexivity.
  - destruct (String.eqb k0 k) eqn:E0; simpl.
    + apply String.eqb_eq in E0. subst k0.
      destruct (String.eqb k k'); reflexivity.
    + destruct (String.eqb k0 k') eqn:E1.
      * apply String.eqb_eq in E1. subst k0. rewrite String.eqb_sym, E0. reflexivity.
      * exact IH.
Qed.

Lemma map_set_keys (m : list (string * V)) (k : string) (v : V) :
  map fst (map_set m k v)
  = if existsb (String.eqb k) (map fst m) then map fst m else map fst m ++ [k].
Proof.
  induction m as [|[k0 v0] m IH]; simpl; [reflexivity|].
  destruct (String.eqb k0 k) eqn:E0; simpl.
  - apply String.eqb_eq in E0. subst k0. rewrite String.eqb_refl. reflexivity.
  - rewrite String.eqb_sym, E0. simpl. rewrite IH.
    destruct (existsb (String.eqb k) (map fst m)); reflexivity.
Qed.

Lemma map_get_None_keys (m : list (string * V)) (k : string) :
  map_get m k = None <-> ~ In k (map fst m).
Proof.
  induction m as [|[k0 v0] m IH]; simpl.
  - split; [intros _ []|reflexivity].
  - destruct (String.eqb k0 k) eqn:E0.
    + apply String.eqb_eq in E0. split; [discriminate|]. intros Hn. exfalso. apply Hn. left. exact E0.
    + apply String.eqb_neq in E0. rewrite IH. split.
      * intros Hn [Heq|Hin]; [exact (E0 Heq)|exact (Hn Hin)].
      * intros Hn Hin. apply Hn. right. exact Hin.
Qed.

Lemma map_set_NoDup (m : list (string * V)) (k : string) (v : V) :
  List.NoDup (map fst m) -> List.NoDup (map fst (map_set m k v)).
Proof.
  intros Hnd. rewrite map_set_keys.
  destruct (existsb (String.eqb k) (map fst m)) eqn:E; [exact Hnd|].
  apply NoDup_ListNoDup. apply NoDup_app. repeat split.
  - apply NoDup_ListNoDup. exact Hnd.
  - intros x Hx Hk. apply list_elem_of_In in Hx. apply list_elem_of_singleton in Hk. subst x.
    assert (Ht : existsb (String.eqb k) (map fst m) = true).
    { apply existsb_exists. exists k. split; [exact Hx | apply String.eqb_refl]. }
    congruence.
  - apply NoDup_singleton.
Qed.

End MapFacts.

Section GroupedFold.

Context {A V : Type} (key : A -> string) (sel : A -> bool) (upd : option V -> A -> V).

Lemma grouped_fold_get (entries : list A) (acc : list (string * V)) (stage : string) :
  map_get (fold_left (grouped_step key sel upd) entries acc) stage
  = fold_left (fun r e => Some (upd r e))
              (List.filter (fun e => sel e && String.eqb (key e) stage) entries)
              (map_get acc stage).
Proof.
  revert acc. induction entries as [|e entries IH]; intros acc; simpl; [reflexivity|].
  rewrite IH. unfold grouped_step.
  destruct (sel e); simpl; [|reflexivity].
  rewrite map_get_set.
  destruct (String.eqb (key e) stage) eqn:E; simpl; [|reflexivity].
  apply String.eqb_eq in E. rewrite E. reflexivity.
Qed.

Lemma grouped_fold_NoDup (entries : list A) (acc : list (string * V)) :
  List.NoDup (map fst acc) ->
  List.NoDup (map fst (fold_left (grouped_step key sel upd) entries acc)).
Proof.
  revert acc. induction entries as [|e entries IH]; intros acc Hnd; simpl; [exact Hnd|].
  apply IH. unfold grouped_step. destruct (negb (sel e)); [exact Hnd|].
  apply map_set_NoDup. exact Hnd.
Qed.

End GroupedFold.

Lemma map_get_map_values {V W : Type} (f : V -> W) (m : list (string * V)) (k : string) :
  map_get (map (fun kv => (fst kv, f (snd kv))) m) k = option_map f (map_get m k).
Proof.
  induction m as [|[k0 v0] m IH]; simpl; [reflexivity|].
  destruct (String.eqb k0 k); [reflexivity | exact IH].
Qed.

Lemma collect_group {A : Type} (l : list A) (r : option (list A)) :
  fold_left (fun r e => Some (default [] r ++ [e])) l r
  = match l with
    | [] => r
    | _ => Some (default [] r ++ l)
    end.
Proof.
  revert r. induction l as [|x l IH]; intros r; simpl; [reflexivity|].
  rewrite IH. destruct l as [|y l]; [reflexivity|].
  simpl. rewrite <- app_assoc. reflexivity.
Qed.

Lemma filter_filter_andb {A : Type} (f g : A -> bool) (l : list A) :
  List.filter f (List.filter g l) = List.filter (fun x => g x && f x) l.
Proof.
  induction l as [|x l IH]; simpl; [reflexivity|].
  destruct (g x); simpl; [destruct (f x); rewrite IH; reflexivity | exact IH].
Qed.

Section StageMaps.

Context {num : Type} `{JSNumber num}.

Local Abbreviation Entry := (MetricEntry num).

Lemma computePercentiles_depends_on_metric (l1 l2 : list Entry) (m : MetricType) :
  List.filter (fun e => MetricType_eqb (metric e) m) l1
  = List.filter (fun e => MetricType_eqb (metric e) m) l2 ->
  computePercentiles l1 m = computePercentiles l2 m.
Proof. intros Heq. unfold computePercentiles. rewrite Heq. reflexivity. Qed.

Lemma computeStagePercentiles_get (entries : list Entry) (m : MetricType) (stage : string) :
  map_get (computeStagePercentiles entries m) stage
  = (if existsb (fun e => MetricType_eqb (metric e) m && String.eqb (stageName e) stage) entries
     then Some (computePercentiles
                  (List.filter (fun e => String.eqb (stageName e) stage) entries) m)
     else None).
Proof.
  unfold computeStagePercentiles.
  change (fold_left _ entries [])
    with (fold_left (grouped_step (@stageName num)
                       (fun e => MetricType_eqb (metric e) m)
                       (fun r e => default [] r ++ [e])) entries []).
  rewrite (map_get_map_values (fun es => computePercentiles es m)).
  rewrite grouped_fold_get, collect_group. simpl.
  set (group := List.filter
                  (fun e => MetricType_eqb (metric e) m && String.eqb (stageName e) stage)
                  entries).
  assert (Hex : existsb (fun e => MetricType_eqb (metric e) m
                                  && String.eqb (stageName e) stage) entries
                = match group with [] => false | _ => true end).
  { unfold group. clear. induction entries as [|e entries IH]; simpl; [reflexivity|].
    destruct (MetricType_eqb (metric e) m && String.eqb (stageName e) stage);
      [reflexivity | exact IH]. }
  rewrite Hex.
  assert (Hcp : computePercentiles group m
                = computePercentiles
                    (List.filter (fun e => String.eqb (stageName e) stage) entries) m).
  { apply computePercentiles_depends_on_metric. unfold group.
    rewrite !filter_filter_andb. apply List.filter_ext. intros e.
    destruct (MetricType_eqb (metric e) m); destruct (String.eqb (stageName e) stage);
      reflexivity. }
  destruct group; simpl; [reflexivity|]. simpl in Hcp. rewrite Hcp. reflexivity.
Qed.

Lemma computeStagePercentiles_NoDup (entries : list Entry) (m : MetricType) :
  List.NoDup (map fst (computeStagePercentiles entries m)).
Proof.
  unfold computeStagePercentiles.
  change (fold_left _ entries [])
    with (fold_left (grouped_step (@stageName num)
                       (fun e => MetricType_eqb (metric e) m)
                       (fun r e => default [] r ++ [e])) entries []).
  rewrite map_map. simpl.
  apply (grouped_fold_NoDup (@stageName num) _ _ entries []). constructor.
Qed.

(** X1.  [computeStagePercentiles] has one key per stage that has an entry of
    the metric, never two, and the bundle stored under a stage is the bundle
    [computePercentiles] computes from the entries of that stage; a stage
    with no entry of the metric has no key. *)
Theorem stage_percentiles_by_stage (entries : list Entry) (m : MetricType) (stage : string) :
  map_get (computeStagePercentiles entries m) stage
  = (if existsb (fun e => MetricType_eqb (metric e) m && String.eqb (stageName e) stage) entries
     then Some (computePercentiles
                  (List.filter (fun e => String.eqb (stageName e) stage) entries) m)
     else None) /\
  List.NoDup (map fst (computeStagePercentiles entries m)).
Proof.
  split; [apply computeStagePercentiles_get | apply computeStagePercentiles_NoDup].
Qed.


Lemma sum_group (l : list Entry) (r : option num) :
  fold_left (fun r e => Some (nadd (default (of_Z 0) r) (value e))) l r
  = match l with
    | [] => r
    | _ => Some (fold_left nadd (map value l) (default (of_Z 0) r))
    end.
Proof.
  revert r. induction l as [|x l IH]; intros r; simpl; [reflexivity|].
  rewrite IH. destruct l as [|y l]; reflexivity.
Qed.

Lemma existsb_filter_nonempty {A : Type} (f : A -> bool) (l : list A) :
  existsb f l = match List.filter f l with [] => false | _ => true end.
Proof.
  induction l as [|x l IH]; simpl; [reflexivity|].
  destruct (f x); [reflexivity | exact IH].
Qed.

(** X2.  [computeStageErrors] has one key per stage that has an [errorCount]
    entry, never two, and the number stored under a stage is the sum, taken
    from 0 in the order of the entries, of the values of that stage's
    [errorCount] entries; a stage without such an entry has no key. *)
Theorem stage_errors_by_stage (entries : list Entry) (stage : string) :
  map_get (computeStageErrors entries) stage
  = (if existsb (fun e => MetricType_eqb (metric e) errorCount
                          && String.eqb (stageName e) stage) entries
     then Some (fold_left nadd
                  (map value
                     (List.filter (fun e => MetricType_eqb (metric e) errorCount
                                            && String.eqb (stageName e) stage) entries))
                  (of_Z 0))
     else None) /\
  List.NoDup (map fst (computeStageErrors entries)).
Proof.
  unfold computeStageErrors.
  change (fold_left _ entries [])
    with (fold_left (grouped_step (@stageName num)
                       (fun e => MetricType_eqb (metric e) errorCount)
                       (fun r e => nadd (default (of_Z 0) r) (value e))) entries []).
  split.
  - rewrite grouped_fold_get, sum_group, existsb_filter_nonempty. simpl.
    destruct (List.filter _ entries); reflexivity.
  - apply (grouped_fold_NoDup (@stageName num) _ _ entries []). constructor.
Qed.

End StageMaps.

(** ** The bundle's extremes and mean *)

Lemma MetricType_eqb_eq (a b : MetricType) : MetricType_eqb a b = true <-> a = b.
Proof. destruct a, b; simpl; split; intros Heq; try reflexivity; discriminate Heq. Qed.

Section SortFacts.

Context {num : Type} `{JSNumber num}.

Lemma sort_insert_perm (x : num) (l : list num) : Permutation (sort_insert x l) (x :: l).
Proof.
  induction l as [|y l IH]; simpl; [reflexivity|].
  destruct (nltb (nsub y x) (of_Z 0)); [|reflexivity].
  rewrite IH. apply perm_swap.
Qed.

Lemma js_sort_perm (l : list num) : Permutation (js_sort l) l.
Proof.
  unfold js_sort. induction l as [|x l IH]; simpl; [reflexivity|].
  rewrite sort_insert_perm, IH. reflexivity.
Qed.

Lemma matching_value_in (entries : list (MetricEntry num)) (m : MetricType) (v : num) :
  In v (js_sort (map value (List.filter (fun e => MetricType_eqb (metric e) m) entries))) <->
  exists e, In e entries /\ metric e = m /\ value e = v.
Proof.
  rewrite <- !list_elem_of_In. rewrite js_sort_perm. rewrite !list_elem_of_In.
  rewrite in_map_iff. split.
  - intros (e & Hv & Hin). apply List.filter_In in Hin. destruct Hin as [Hin Hm].
    exists e. rewrite MetricType_eqb_eq in Hm. auto.
  - intros (e & Hin & Hm & Hv). exists e. split; [exact Hv|].
    apply List.filter_In. split; [exact Hin|]. apply MetricType_eqb_eq. exact Hm.
Qed.

End SortFacts.

Section ExactExtremes.

Local Open Scope Q_scope.

Lemma sum_bounds (l : list Q) (lo hi a : Q) :
  (forall x, In x l -> lo <= x /\ x <= hi) ->
  a + inject_Z (Z.of_nat (length l)) * lo <= fold_left Qplus l a /\
  fold_left Qplus l a <= a + inject_Z (Z.of_nat (length l)) * hi.
Proof.
  revert a. induction l as [|x l IH]; intros a Hall.
  - change (inject_Z (Z.of_nat (length (@nil Q)))) with 0. simpl. split; lra.
  - destruct (Hall x (or_introl eq_refl)) as [Hlo Hhi].
    destruct (IH (a + x) (fun y Hy => Hall y (or_intror Hy))) as [IHlo IHhi].
    cbn [fold_left length].
    rewrite Nat2Z.inj_succ. unfold Z.succ. rewrite inject_Z_plus.
    change (inject_Z 1) with 1. split; lra.
Qed.

End ExactExtremes.

(** X3.  When at least one entry has the requested metric, the bundle's [min]
    and [max] are values of entries of that metric, in any arithmetic; in
    exact arithmetic every entry of the metric has its value between [min] and
    [max], and so has the [mean]. *)
Theorem bundle_extremes_and_mean :
  (forall (num : Type) (N : JSNumber num) (entries : list (MetricEntry num)) (m : MetricType),
      (0 < count (computePercentiles entries m))%nat ->
      (exists e, In e entries /\ metric e = m /\ pr_min (computePercentiles entries m) = value e) /\
      (exists e, In e entries /\ metric e = m /\ pr_max (computePercentiles entries m) = value e)) /\
  (forall (entries : list (MetricEntry Q)) (m : MetricType),
      (0 < count (computePercentiles entries m))%nat ->
      (forall e, In e entries -> metric e = m ->
                 (pr_min (computePercentiles entries m) <= value e)%Q /\
                 (value e <= pr_max (computePercentiles entries m))%Q) /\
      (pr_min (computePercentiles entries m) <= mean (computePercentiles entries m))%Q /\
      (mean (computePercentiles entries m) <= pr_max (computePercentiles entries m))%Q).
Proof.
  split.
  - intros num N entries m Hcount.
    rewrite computePercentiles_count in Hcount.
    unfold computePercentiles.
    set (values := js_sort (map value (List.filter (fun e => MetricType_eqb (metric e) m)
                                                   entries))) in *.
    assert (Hlen : length values = length (List.filter (fun e => MetricType_eqb (metric e) m)
                                                       entries))
      by (unfold values; rewrite js_sort_length, length_map; reflexivity).
    destruct (length values =? 0)%nat eqn:E0; [apply Nat.eqb_eq in E0; lia|].
    apply Nat.eqb_neq in E0. cbn [pr_min pr_max].
    split.
    + destruct (proj1 (matching_value_in entries m (nth 0 values undef_num)))
        as (e & Hin & Hm & Hv); [apply (nth_In values); lia|].
      exists e. auto.
    + destruct (proj1 (matching_value_in entries m (nth (length values - 1) values undef_num)))
        as (e & Hin & Hm & Hv); [apply (nth_In values); lia|].
      exists e. auto.
  - intros entries m Hcount.
    rewrite computePercentiles_count in Hcount.
    unfold computePercentiles.
    set (values := js_sort (map value (List.filter (fun e => MetricType_eqb (metric e) m)
                                                   entries))) in *.
    assert (Hlen : length values = length (List.filter (fun e => MetricType_eqb (metric e) m)
                                                       entries))
      by (unfold values; rewrite js_sort_length, length_map; reflexivity).
    assert (Hasc : ascending values) by (apply StronglySorted_ascending, js_sort_sorted).
    destruct (length values =? 0)%nat eqn:E0; [apply Nat.eqb_eq in E0; lia|].
    cbn [pr_min pr_max mean].
    assert (Hall : forall x, In x values ->
                     (nth 0 values 0 <= x)%Q /\ (x <= nth (length values - 1) values 0)%Q)
      by (intros x Hx; apply ascending_bounds; assumption).
    split; [|].
    + intros e Hin Hm. apply Hall. apply matching_value_in. exists e. auto.
    + destruct (sum_bounds values _ _ 0%Q Hall) as [Hlo Hhi].
      assert (Hn : (0 < inject_Z (Z.of_nat (length values)))%Q).
      { change 0%Q with (inject_Z 0). rewrite <- Zlt_Qlt. lia. }
      cbn [ndiv nadd of_Z exact undef_num].
      replace (fold_left (fun acc v : Q => (acc + v)%Q) values (inject_Z 0))
        with (fold_left Qplus values 0%Q) by reflexivity.
      split.
      * apply Qle_shift_div_l; [exact Hn|]. lra.
      * apply Qle_shift_div_r; [exact Hn|]. lra.
Qed.

(** The exact part on three latency entries. *)
Lemma bundle_extremes_and_mean_witness :
  (pr_min (computePercentiles
             [mkEntry "A" latency 3%Q 0 None; mkEntry "A" latency 1%Q 1 None;
              mkEntry "B" latency 2%Q 2 None] latency)
   <= mean (computePercentiles
             [mkEntry "A" latency 3%Q 0 None; mkEntry "A" latency 1%Q 1 None;
              mkEntry "B" latency 2%Q 2 None] latency))%Q.
Proof.
  refine (proj1 (proj2 (proj2 bundle_extremes_and_mean _ latency _))).
  simpl. lia.
Defined.

(** ** Error totals *)

Section ExactErrorTotals.

Local Open Scope Q_scope.

Lemma map_total_set (m : list (string * Q)) (k : string) (v : Q) :
  map_total (map_set m k (default 0 (map_get m k) + v)) == map_total m + v.
Proof.
  unfold map_total. induction m as [|[k0 v0] m IH]; simpl.
  - ring.
  - destruct (String.eqb k0 k); simpl.
    + ring.
    + rewrite IH. ring.
Qed.

Lemma sum_values_shift (l : list (MetricEntry Q)) (a : Q) :
  fold_left (fun sum e => sum + value e) l a
  == a + fold_left (fun sum e => sum + value e) l 0.
Proof.
  revert a. induction l as [|e l IH]; intros a; simpl.
  - ring.
  - rewrite (IH (a + value e)), (IH (0 + value e)). ring.
Qed.

Lemma stage_errors_total (entries : list (MetricEntry Q)) (acc : list (string * Q)) :
  map_total
    (fold_left (grouped_step (@stageName Q) (fun e => MetricType_eqb (metric e) errorCount)
                             (fun r e => default 0 r + value e)) entries acc)
  == map_total acc
     + fold_left (fun sum e => sum + value e)
                 (List.filter (fun e => MetricType_eqb (metric e) errorCount) entries) 0.
Proof.
  revert acc. induction entries as [|e entries IH]; intros acc; simpl.
  - ring.
  - rewrite IH. unfold grouped_step.
    destruct (MetricType_eqb (metric e) errorCount); simpl.
    + rewrite map_total_set.
      rewrite (sum_values_shift _ (0 + value e)). ring.
    + reflexivity.
Qed.

Lemma sumErrors_is_map_total (entries : list (MetricEntry Q)) :
  sumErrors entries == map_total (computeStageErrors entries).
Proof.
  unfold computeStageErrors.
  change (fold_left _ entries [])
    with (fold_left (grouped_step (@stageName Q)
                       (fun e => MetricType_eqb (metric e) errorCount)
                       (fun r e => default 0 r + value e)) entries []).
  rewrite stage_errors_total. unfold sumErrors. simpl.
  change (map_total []) with 0. change (inject_Z 0) with 0. ring.
Qed.

End ExactErrorTotals.

(** X4.  In exact arithmetic the [totalErrors] of an aggregate result is the
    sum of its [stageErrors], for each of the three strategies. *)
Theorem total_errors_is_sum_of_stage_errors :
  (forall (now : Z) (st : TumblingWindowStrategy Q),
      (totalErrors (tw_getMetricResult now st)
       == map_total (stageErrors (tw_getMetricResult now st)))%Q) /\
  (forall (now : Z) (st : SlidingWindowStrategy Q),
      (totalErrors (fst (sw_getMetricResult now st))
       == map_total (stageErrors (fst (sw_getMetricResult now st))))%Q) /\
  (forall (now : Z) (rb : RingBufferStrategy Q) (r : MetricResult Q),
      rb_getMetricResult now rb = Normal r ->
      (totalErrors r == map_total (stageErrors r))%Q).
Proof.
  split; [|split].
  - intros now st. apply sumErrors_is_map_total.
  - intros now st. apply sumErrors_is_map_total.
  - intros now rb r Hr. unfold rb_getMetricResult in Hr.
    destruct (deref_all (rb_getEntries rb)) as [es|]; [|discriminate Hr].
    simpl in Hr.
    destruct (if (0 <? length (rb_getEntries rb))%nat
              then timestamp_at (rb_getEntries rb) 0 else Normal now) as [t0|];
      [|discriminate Hr].
    simpl in Hr.
    destruct (if (0 <? length (rb_getEntries rb))%nat
              then timestamp_at (rb_getEntries rb) (length (rb_getEntries rb) - 1)
              else Normal now) as [t1|]; [|discriminate Hr].
    simpl in Hr. injection Hr as <-. simpl. apply sumErrors_is_map_total.
Qed.

(** The ring buffer part on a buffer holding two error entries of two stages. *)
Lemma total_errors_is_sum_of_stage_errors_witness :
  exists r,
    rb_getMetricResult 9 two_stage_errors = Normal r /\
    (totalErrors r == map_total (stageErrors r))%Q.
Proof.
  eexists. split; [reflexivity|].
  apply (proj2 (proj2 total_errors_is_sum_of_stage_errors) 9 two_stage_errors).
  reflexivity.
Defined.

(** ** Percentiles along [p] *)

(** X5.  In exact arithmetic, over an ascending list of one or more values,
    the percentile does not decrease when [p] grows from 0 to 100 and stays
    between the first and the last value. *)
Theorem percentile_is_monotone_and_bounded (s : list Q) (p q : Q) :
  ascending s -> (1 <= length s)%nat ->
  (0 <= p)%Q -> (p <= q)%Q -> (q <= 100)%Q ->
  (nth 0 s 0 <= percentile s p)%Q /\
  (percentile s p <= percentile s q)%Q /\
  (percentile s q <= nth (length s - 1) s 0)%Q.
Proof.
  intros Hs Hn Hp Hpq Hq.
  assert (H0 : percentile s 0%Q = nth 0 s 0%Q).
  { destruct (Nat.eq_dec (length s) 1%nat) as [E1|E1].
    - unfold percentile. rewrite E1. reflexivity.
    - apply (percentile_exact_at_integer_rank s 0 0); [lia|lia|apply rank_0]. }
  assert (H100 : percentile s 100%Q = nth (length s - 1) s 0%Q).
  { destruct (Nat.eq_dec (length s) 1%nat) as [E1|E1].
    - unfold percentile. rewrite E1. reflexivity.
    - rewrite (percentile_exact_at_integer_rank s 100 (Z.of_nat (length s) - 1));
        [f_equal; lia | lia | lia | apply rank_100]. }
  rewrite <- H0, <- H100.
  split; [|split]; apply percentile_exact_mono; try assumption; try lra.
Qed.

(** The property on the list 1, 2, 4 between [p = 50] and [p = 95]. *)
Lemma percentile_is_monotone_and_bounded_witness :
  (percentile [1; 2; 4] (50 # 1) <= percentile [1; 2; 4] (95 # 1))%Q.
Proof.
  refine (proj1 (proj2 (percentile_is_monotone_and_bounded
                          [1%Q; 2%Q; 4%Q] (50 # 1)%Q (95 # 1)%Q _ _ _ _ _))).
  - intros i j Hij Hj. simpl in Hj.
    destruct i as [|[|[|i]]]; destruct j as [|[|[|j]]]; simpl; try lia; discriminate.
  - simpl. lia.
  - discriminate.
  - discriminate.
  - discriminate.
Defined.

(** ** Ring buffer: queries, size, clearing and window bounds *)

Section RingBufferMore.

Context {num : Type} `{JSNumber num}.

Local Abbreviation Entry := (MetricEntry num).

Lemma deref_all_Some (d : list Entry) : deref_all (map Some d) = Normal d.
Proof.
  induction d as [|e d IH]; simpl; [reflexivity|]. rewrite IH. reflexivity.
Qed.

Lemma rb_reachable_entries (rb : RingBufferStrategy num) :
  rb_reachable rb ->
  exists d, rb_getEntries rb = map Some d /\ length d = rb_size rb.
Proof.
  intros [[Hc [l Hl]] | (Hmax & Hsize & Hcnt)].
  - exists (drop (length l - rb_maxSize rb) l). split.
    + apply rb_getEntries_repr; assumption.
    + rewrite length_drop, (repr_size _ _ _ Hl). lia.
  - exists []. unfold rb_getEntries. rewrite Hsize. split; reflexivity.
Qed.

Lemma rb_queries_on_entries (rb : RingBufferStrategy num) (d : list Entry)
      (now : Z) (stage : string) (m : MetricType) :
  rb_getEntries rb = map Some d ->
  rb_getPercentiles rb m = Normal (computePercentiles d m) /\
  rb_getStagePercentiles rb stage m
  = Normal (computePercentiles (List.filter (fun e => String.eqb (stageName e) stage) d) m) /\
  exists r, rb_getMetricResult now rb = Normal r /\
            latencyPercentiles r = computePercentiles d latency /\
            stagePercentiles r = computeStagePercentiles d latency /\
            totalErrors r = sumErrors d /\
            stageErrors r = computeStageErrors d /\
            totalInvocations r = countInvocations d /\
            wi_entryCount (windowInfo r) = length d /\
            computedAt r = now.
Proof.
  intros Hd.
  unfold rb_getPercentiles, rb_getStagePercentiles, rb_getMetricResult.
  rewrite Hd, deref_all_Some, length_map. simpl.
  split; [reflexivity|]. split; [reflexivity|].
  destruct (0 <? length d)%nat eqn:E.
  - apply Nat.ltb_lt in E.
    destruct (timestamp_at_Some d 0 E) as [t0 Ht0].
    destruct (timestamp_at_Some d (length d - 1)) as [t1 Ht1]; [lia|].
    rewrite Ht0, Ht1. simpl. eexists. repeat split; reflexivity.
  - simpl. eexists. repeat split; reflexivity.
Qed.

(** X6.  Whatever pushes, queries and clears a client has made on a
    constructed ring buffer, of any capacity, the buffer's queries return
    normally: the read-out has no hole, it has [getSize()] elements, and
    [getPercentiles], [getStagePercentiles], [getSnapshot] and
    [getMetricResult] are computed from it. *)
Theorem ring_buffer_queries_return
  (config : option (option Z)) (rb0 : RingBufferStrategy num) (ops : list (RbOp num))
  (now : Z) (stage : string) (m : MetricType) :
  RingBufferStrategy_new config = Normal rb0 ->
  exists d : list Entry,
    rb_getEntries (rb_run ops rb0) = map Some d /\
    length d = rb_getSize (rb_run ops rb0) /\
    rb_getPercentiles (rb_run ops rb0) m = Normal (computePercentiles d m) /\
    rb_getStagePercentiles (rb_run ops rb0) stage m
    = Normal (computePercentiles
                (List.filter (fun e => String.eqb (stageName e) stage) d) m) /\
    (exists snap, rb_getSnapshot (rb_run ops rb0) = Normal snap /\
                  snap_entries snap = map Some d /\ snap_size snap = length d) /\
    (exists r, rb_getMetricResult now (rb_run ops rb0) = Normal r /\
               latencyPercentiles r = computePercentiles d latency /\
               wi_entryCount (windowInfo r) = length d).
Proof.
  intros Hnew.
  pose proof (rb_reachable_run ops rb0 (rb_reachable_new config rb0 Hnew)) as Hr.
  destruct (rb_reachable_entries _ Hr) as (d & Hd & Hlen).
  exists d. split; [exact Hd|]. split; [exact Hlen|].
  destruct (rb_queries_on_entries _ d now stage m Hd) as (Hp & Hsp & r & Hres & Hlat & _ & _ & _ & _ & Hcnt & _).
  split; [exact Hp|]. split; [exact Hsp|]. split.
  - destruct (rb_getSnapshot_chronological _ _ Hd) as (snap & Hs & He & Hsz & _).
    exists snap. auto.
  - exists r. auto.
Qed.

Lemma rb_maxSize_step (rb : RingBufferStrategy num) (op : RbOp num) :
  rb_maxSize (rb_step rb op) = rb_maxSize rb.
Proof.
  destruct op; simpl; try reflexivity.
  unfold rb_push. destruct (rb_size rb <? rb_maxSize rb)%nat; reflexivity.
Qed.

Lemma rb_maxSize_run (ops : list (RbOp num)) (rb : RingBufferStrategy num) :
  rb_maxSize (rb_run ops rb) = rb_maxSize rb.
Proof.
  unfold rb_run. revert rb. induction ops as [|op ops IH]; intros rb; simpl; [reflexivity|].
  rewrite IH. apply rb_maxSize_step.
Qed.

Lemma rb_new_fields (config : option (option Z)) (rb0 : RingBufferStrategy num) :
  RingBufferStrategy_new config = Normal rb0 ->
  rb0 = mkRingBuffer (replicate (Z.to_nat (default 1000 (mjoin config))) None)
                     (Some 0%nat) 0 (Z.to_nat (default 1000 (mjoin config))) 0 0.
Proof.
  unfold RingBufferStrategy_new, new_Array.
  destruct ((0 <=? default 1000 (mjoin config)) && (default 1000 (mjoin config) <? 2 ^ 32));
    [|discriminate].
  unfold cbind. intros Hnew. injection Hnew as <-. reflexivity.
Qed.

(** X7.  [clear()] brings a ring buffer back to the state its constructor
    built, whatever was pushed, queried or cleared in between and whatever
    the capacity. *)
Theorem ring_buffer_clear_restores_constructed
  (config : option (option Z)) (rb0 : RingBufferStrategy num) (ops : list (RbOp num)) :
  RingBufferStrategy_new config = Normal rb0 ->
  rb_clear (rb_run ops rb0) = rb0.
Proof.
  intros Hnew. unfold rb_clear. rewrite rb_maxSize_run.
  rewrite (rb_new_fields config rb0 Hnew). reflexivity.
Qed.

(** X8.  After [n] pushes into a constructed ring buffer of capacity [c],
    [getSize()] is the smaller of [n] and [c], and [isFull()] says whether
    [n] has reached [c]; a buffer of capacity 0 is full from the start. *)
Theorem ring_buffer_size_after_pushes
  (config : option (option Z)) (rb0 : RingBufferStrategy num) (l : list Entry) :
  RingBufferStrategy_new config = Normal rb0 ->
  rb_getSize (fold_left rb_push l rb0) = Nat.min (length l) (rb_maxSize rb0) /\
  rb_isFull (fold_left rb_push l rb0) = (rb_maxSize rb0 <=? length l)%nat /\
  rb_maxSize rb0 = Z.to_nat (default 1000 (mjoin config)).
Proof.
  intros Hnew. pose proof (rb_new_fields config rb0 Hnew) as Hrb0.
  set (c := Z.to_nat (default 1000 (mjoin config))) in *.
  assert (Hmax : rb_maxSize rb0 = c) by (rewrite Hrb0; reflexivity).
  rewrite Hmax. unfold rb_getSize, rb_isFull.
  destruct (Nat.eq_dec c 0%nat) as [Hc|Hc].
  - destruct (rb_zero_capacity_pushes l rb0) as (Hm & Hs & _).
    + rewrite Hmax. exact Hc.
    + rewrite Hrb0. reflexivity.
    + rewrite Hm, Hs, Hc. repeat split. lia.
  - assert (Hr0 : rb_repr c [] rb0) by (rewrite Hrb0; apply rb_repr_new; lia).
    pose proof (rb_repr_pushes c [] l rb0 ltac:(lia) Hr0) as Hr. simpl in Hr.
    rewrite (repr_size _ _ _ Hr), (repr_max _ _ _ Hr). repeat split.
    destruct (c <=? length l)%nat eqn:E.
    + apply Nat.leb_le in E. apply Nat.leb_le. lia.
    + apply Nat.leb_gt in E. apply Nat.leb_gt. lia.
Qed.

(** X9.  The snapshot and the aggregate of a ring buffer of capacity [c > 0]
    that holds an entry bound their window by the timestamps of the oldest and
    of the newest retained entry, in push order, not by the smallest and the
    largest timestamp. *)
Theorem ring_buffer_window_bounds
  (c : Z) (rb0 : RingBufferStrategy num) (l : list Entry) (e : Entry) (now : Z) :
  0 < c ->
  RingBufferStrategy_new (Some (Some c)) = Normal rb0 ->
  exists (oldest : Entry) (snap : WindowSnapshot num) (r : MetricResult num),
    (l ++ [e]) !! (length (l ++ [e]) - Z.to_nat c)%nat = Some oldest /\
    rb_getSnapshot (fold_left rb_push (l ++ [e]) rb0) = Normal snap /\
    snap_startTime snap = timestamp oldest /\
    snap_endTime snap = timestamp e /\
    rb_getMetricResult now (fold_left rb_push (l ++ [e]) rb0) = Normal r /\
    wi_startTime (windowInfo r) = timestamp oldest /\
    wi_endTime (windowInfo r) = timestamp e.
Proof.
  intros Hc Hnew.
  pose proof (rb_new_repr c rb0 Hc Hnew) as Hr0.
  assert (Hc' : (0 < Z.to_nat c)%nat) by lia.
  pose proof (rb_repr_pushes (Z.to_nat c) [] (l ++ [e]) rb0 Hc' Hr0) as Hr. simpl in Hr.
  pose proof (rb_getEntries_repr _ _ _ Hc' Hr) as Hent.
  set (pushed := l ++ [e]) in *.
  set (k := (length pushed - Z.to_nat c)%nat) in *.
  assert (Hlen : length pushed = S (length l)).
  { unfold pushed. rewrite length_app. simpl. lia. }
  assert (Hk : (k < length pushed)%nat) by (unfold k; lia).
  destruct (lookup_lt_is_Some_2 pushed k Hk) as [oldest Hold].
  assert (Hd0 : drop k pushed !! 0%nat = Some oldest).
  { rewrite lookup_drop. rewrite Nat.add_0_r. exact Hold. }
  assert (Hdl : length (drop k pushed) = (length pushed - k)%nat) by apply length_drop.
  assert (Hd1 : drop k pushed !! (length (drop k pushed) - 1)%nat = Some e).
  { rewrite lookup_drop, Hdl.
    replace (k + (length pushed - k - 1))%nat with (length l) by lia.
    unfold pushed. rewrite lookup_app_r by lia. rewrite Nat.sub_diag. reflexivity. }
  assert (Ht0 : timestamp_at (map Some (drop k pushed)) 0 = Normal (timestamp oldest)).
  { unfold timestamp_at, array_get. rewrite list_lookup_fmap, Hd0. reflexivity. }
  assert (Ht1 : timestamp_at (map Some (drop k pushed)) (length (drop k pushed) - 1)
                = Normal (timestamp e)).
  { unfold timestamp_at, array_get. rewrite list_lookup_fmap, Hd1. reflexivity. }
  assert (Hpos : (0 <? length (drop k pushed))%nat = true).
  { apply Nat.ltb_lt. lia. }
  exists oldest.
  unfold rb_getSnapshot, rb_getMetricResult.
  rewrite Hent, deref_all_Some, length_map, Hpos, Ht0, Ht1. simpl.
  eexists. eexists. split; [exact Hold|]. repeat split; reflexivity.
Qed.

End RingBufferMore.

(** The queries on a buffer of two slots after one push. *)
Lemma ring_buffer_queries_return_witness :
  exists d : list (MetricEntry float),
    rb_getEntries (rb_run [RbPush (mkEntry "A" latency 10%float 1 None)]
                          (mkRingBuffer [None; None] (Some 0%nat) 0 2 0 0))
    = map Some d /\ length d = 1%nat.
Proof.
  destruct (ring_buffer_queries_return (Some (Some 2))
              (mkRingBuffer [None; None] (Some 0%nat) 0 2 0 0)
              [RbPush (mkEntry "A" latency 10%float 1 None)] 0 "A" latency eq_refl)
    as (d & Hd & Hlen & _).
  exists d. split; [exact Hd | exact Hlen].
Defined.

(** Clearing after a push and a query on a buffer of two slots. *)
Lemma ring_buffer_clear_restores_constructed_witness :
  rb_clear (rb_run [RbPush (mkEntry "A" latency 10%float 1 None); RbGetSnapshot]
                   (mkRingBuffer [None; None] (Some 0%nat) 0 2 0 0))
  = mkRingBuffer [None; None] (Some 0%nat) 0 2 0 0.
Proof.
  exact (ring_buffer_clear_restores_constructed (Some (Some 2)) _ _ eq_refl).
Defined.

(** Three pushes into a buffer of two slots. *)
Lemma ring_buffer_size_after_pushes_witness :
  rb_getSize
    (fold_left rb_push
       [mkEntry "A" latency 10%float 1 None; mkEntry "A" latency 20%float 2 None;
        mkEntry "A" latency 30%float 3 None]
       (mkRingBuffer [None; None] (Some 0%nat) 0 2 0 0))
  = 2%nat.
Proof.
  exact (proj1 (ring_buffer_size_after_pushes (Some (Some 2)) _
                  [mkEntry "A" latency 10%float 1 None; mkEntry "A" latency 20%float 2 None;
                   mkEntry "A" latency 30%float 3 None] eq_refl)).
Defined.

(** Two slots, three pushes with the timestamps 7, 9 and 3. *)
Lemma ring_buffer_window_bounds_witness :
  exists (oldest : MetricEntry float) snap r,
    [mkEntry "A" latency 10%float 7 None; mkEntry "A" latency 20%float 9 None;
     mkEntry "A" latency 30%float 3 None] !! 1%nat = Some oldest /\
    rb_getSnapshot
      (fold_left rb_push
         ([mkEntry "A" latency 10%float 7 None; mkEntry "A" latency 20%float 9 None]
          ++ [mkEntry "A" latency 30%float 3 None])
         (mkRingBuffer [None; None] (Some 0%nat) 0 2 0 0)) = Normal snap /\
    snap_startTime snap = timestamp oldest /\
    snap_endTime snap = 3 /\
    rb_getMetricResult 100
      (fold_left rb_push
         ([mkEntry "A" latency 10%float 7 None; mkEntry "A" latency 20%float 9 None]
          ++ [mkEntry "A" latency 30%float 3 None])
         (mkRingBuffer [None; None] (Some 0%nat) 0 2 0 0)) = Normal r /\
    wi_startTime (windowInfo r) = timestamp oldest /\
    wi_endTime (windowInfo r) = 3.
Proof.
  exact (ring_buffer_window_bounds 2 (mkRingBuffer [None; None] (Some 0%nat) 0 2 0 0)
           [mkEntry "A" latency 10%float 7 None; mkEntry "A" latency 20%float 9 None]
           (mkEntry "A" latency 30%float 3 None) 100 ltac:(lia) eq_refl).
Defined.

(** ** Stage look-ups against the aggregate *)


(** ** Tumbling window: counters, archive, flush and the loop of [push] *)

Section TumblingMore.

Context {num : Type} `{JSNumber num}.

Local Abbreviation Entry := (MetricEntry num).
Local Abbreviation Bucket := (MetricBucket num).

Lemma archived_entries_app (a b : list Bucket) :
  archived_entries (a ++ b) = (archived_entries a + archived_entries b)%nat.
Proof.
  unfold archived_entries. rewrite map_app, list_sum_app. reflexivity.
Qed.

(** The eviction loop keeps the last [maxArchived] buckets and counts the
    entries of the others. *)
Lemma evictArchived_drop (maxArchived : nat) (l : list Bucket) (evicted : nat) :
  evictArchived maxArchived l evicted
  = (drop (length l - maxArchived) l,
     (evicted + archived_entries (take (length l - maxArchived) l))%nat).
Proof.
  revert evicted. induction l as [|b l IH]; intros evicted.
  - simpl. f_equal. unfold archived_entries. simpl. lia.
  - cbn [evictArchived]. destruct (maxArchived <? length (b :: l))%nat eqn:E.
    + apply Nat.ltb_lt in E. simpl in E. rewrite IH.
      replace (length (b :: l) - maxArchived)%nat
        with (Datatypes.S (length l - maxArchived)) by (simpl; lia).
      simpl. f_equal. unfold archived_entries. simpl. lia.
    + apply Nat.ltb_ge in E.
      replace (length (b :: l) - maxArchived)%nat with 0%nat by lia.
      simpl. f_equal. unfold archived_entries. simpl. lia.
Qed.

Lemma archive_step_balance (maxArchived : nat) (archived : list Bucket) (evicted : nat)
      (b : Bucket) :
  let acc := archive_step maxArchived (archived, evicted) b in
  (archived_entries (fst acc) + snd acc
   = archived_entries archived + length (b_entries b) + evicted)%nat /\
  (length (fst acc) <= maxArchived)%nat /\
  (forall P : Bucket -> Prop, List.Forall P archived -> P b -> List.Forall P (fst acc)).
Proof.
  unfold archive_step. cbn [fst snd]. rewrite evictArchived_drop. cbn [fst snd].
  set (l := archived ++ [b]). set (k := (length l - maxArchived)%nat).
  assert (Hl : archived_entries l = (archived_entries archived + length (b_entries b))%nat).
  { unfold l. rewrite archived_entries_app. unfold archived_entries. simpl. lia. }
  assert (Hsplit : archived_entries l
                   = (archived_entries (take k l) + archived_entries (drop k l))%nat).
  { rewrite <- archived_entries_app, take_drop. reflexivity. }
  split; [lia|]. split.
  - rewrite length_drop. unfold k. lia.
  - intros P Ha Hb.
    assert (HPl : List.Forall P l).
    { unfold l. apply List.Forall_app. split; [exact Ha | constructor; [exact Hb | constructor]]. }
    apply List.Forall_forall. intros x Hx.
    apply (proj1 (List.Forall_forall P l) HPl).
    rewrite <- (take_drop k l). apply in_or_app. right. exact Hx.
Qed.

Lemma tw_closeBucket_balance (k : nat) (st : TumblingWindowStrategy num) (endTime : Z) :
  tw_balance k st -> tw_balance k (tw_closeBucket st endTime).
Proof.
  intros Hb. unfold tw_closeBucket.
  destruct (0 <? length (tw_currentBucket st))%nat eqn:E.
  - destruct Hb as (Hbal & Hlen & Hcons).
    destruct (tw_archiveBucket_fields st (tw_currentBucket st) (tw_bucketStartTime st) endTime)
      as (Hcur & Hstart & Hwin & Hmax & Hpushed & Harch).
    destruct (archive_step_balance (tw_maxArchivedBuckets st) (tw_archivedBuckets st)
                (tw_totalEvicted st)
                (bucket_of (tw_currentBucket st) (tw_bucketStartTime st) endTime))
      as (Hsum & Hbound & Hall).
    rewrite <- Harch in Hsum, Hbound, Hall. cbn [fst snd] in Hsum, Hbound, Hall.
    cbn [bucket_of b_entries] in Hsum.
    unfold tw_balance.
    cbn [tw_set_currentBucket tw_currentBucket tw_archivedBuckets tw_totalPushed
         tw_totalEvicted tw_maxArchivedBuckets length].
    rewrite Hpushed, Hmax. split; [lia|]. split; [exact Hbound|].
    apply Hall; [exact Hcons | reflexivity].
  - apply Nat.ltb_ge in E. destruct Hb as (Hbal & Hlen & Hcons).
    unfold tw_balance.
    cbn [tw_set_currentBucket tw_currentBucket tw_archivedBuckets tw_totalPushed
         tw_totalEvicted tw_maxArchivedBuckets length].
    repeat split; try assumption. lia.
Qed.

Lemma tw_archiveEmpty_balance (k : nat) (st : TumblingWindowStrategy num) (a b : Z) :
  tw_balance k st -> tw_balance k (tw_archiveBucket st [] a b).
Proof.
  intros (Hbal & Hlen & Hcons).
  destruct (tw_archiveBucket_fields st [] a b)
    as (Hcur & Hstart & Hwin & Hmax & Hpushed & Harch).
  destruct (archive_step_balance (tw_maxArchivedBuckets st) (tw_archivedBuckets st)
              (tw_totalEvicted st) (bucket_of [] a b)) as (Hsum & Hbound & Hall).
  rewrite <- Harch in Hsum, Hbound, Hall. cbn [fst snd] in Hsum, Hbound, Hall.
  cbn [bucket_of b_entries length] in Hsum.
  unfold tw_balance. rewrite Hcur, Hpushed, Hmax.
  split; [lia|]. split; [exact Hbound|].
  apply Hall; [exact Hcons | reflexivity].
Qed.

(** When the loop over the skipped windows returns, the counters still
    balance, the active bucket is untouched and the entry's timestamp lies
    before the end of the active window. *)
Lemma tw_skipWindows_balance (k : nat) (fuel : nat) :
  forall (st st' : TumblingWindowStrategy num) (e : Entry),
    tw_skipWindows fuel st e = Some st' ->
    tw_balance k st ->
    tw_balance k st' /\
    tw_currentBucket st' = tw_currentBucket st /\
    timestamp e < tw_bucketStartTime st' + tw_windowMs st'.
Proof.
  induction fuel as [|fuel IH]; intros st st' e Hrun Hb; [discriminate Hrun|].
  cbn [tw_skipWindows] in Hrun.
  destruct (timestamp e >=? tw_bucketStartTime st + tw_windowMs st) eqn:E.
  - destruct (tw_archiveBucket_fields st [] (tw_bucketStartTime st)
                (tw_bucketStartTime st + tw_windowMs st))
      as (Hcur & Hstart & Hwin & Hmax & Hpushed & Harch).
    apply IH in Hrun.
    + destruct Hrun as (Hb' & Hcur' & Ht). split; [exact Hb'|]. split; [|exact Ht].
      rewrite Hcur'. cbn [tw_set_bucketStartTime tw_currentBucket]. exact Hcur.
    + pose proof (tw_archiveEmpty_balance k st (tw_bucketStartTime st)
                    (tw_bucketStartTime st + tw_windowMs st) Hb) as Hb1.
      exact Hb1.
  - injection Hrun as <-. split; [exact Hb|]. split; [reflexivity|].
    rewrite Z.geb_leb in E. apply Z.leb_gt in E. exact E.
Qed.

(** What [tw_reachable] states keep: the balance of the counters, and the
    timestamps of the active bucket before the end of the active window. *)
Lemma tw_push_keeps (fuel : nat) (st st' : TumblingWindowStrategy num) (e : Entry) :
  tw_push fuel st e = Some st' ->
  tw_balance 0 st ->
  List.Forall (fun x => timestamp x < tw_bucketStartTime st + tw_windowMs st)
              (tw_currentBucket st) ->
  tw_balance 0 st' /\
  List.Forall (fun x => timestamp x < tw_bucketStartTime st' + tw_windowMs st')
              (tw_currentBucket st').
Proof.
  intros Hpush Hb Hts. unfold tw_push in Hpush.
  cbn [tw_bucketStartTime tw_windowMs] in Hpush.
  set (st0 := mkTumbling (tw_currentBucket st) (tw_bucketStartTime st) (tw_windowMs st)
                         (tw_maxArchivedBuckets st) (tw_archivedBuckets st)
                         (Datatypes.S (tw_totalPushed st)) (tw_totalEvicted st)) in *.
  assert (Hb0 : tw_balance 1 st0).
  { destruct Hb as (Hbal & Hlen & Hcons). unfold tw_balance, st0. simpl.
    repeat split; try assumption. lia. }
  destruct (timestamp e >=? tw_bucketStartTime st + tw_windowMs st) eqn:E.
  - set (stc := tw_set_bucketStartTime
                  (tw_closeBucket st0 (tw_bucketStartTime st + tw_windowMs st))
                  (tw_bucketStartTime st + tw_windowMs st)) in *.
    destruct (tw_skipWindows fuel stc e) as [st3|] eqn:Hskip; [|discriminate Hpush].
    simpl in Hpush. injection Hpush as <-.
    assert (Hbc : tw_balance 1 stc).
    { pose proof (tw_closeBucket_balance 1 st0 (tw_bucketStartTime st + tw_windowMs st) Hb0)
        as Hc.
      exact Hc. }
    assert (Hcc : tw_currentBucket stc = []).
    { unfold stc. cbn [tw_set_bucketStartTime tw_currentBucket].
      apply (tw_closeBucket_fields st0). }
    destruct (tw_skipWindows_balance 1 fuel stc st3 e Hskip Hbc) as (Hb3 & Hcur3 & Ht3).
    rewrite Hcc in Hcur3.
    destruct Hb3 as (Hbal & Hlen & Hcons).
    unfold tw_balance.
    cbn [tw_set_currentBucket tw_currentBucket tw_archivedBuckets tw_totalPushed
         tw_totalEvicted tw_maxArchivedBuckets tw_bucketStartTime tw_windowMs].
    rewrite Hcur3 in *. simpl.
    split; [repeat split; try assumption; simpl in Hbal; lia|].
    constructor; [exact Ht3 | constructor].
  - simpl in Hpush. injection Hpush as <-.
    destruct Hb0 as (Hbal & Hlen & Hcons).
    unfold tw_balance.
    cbn [tw_set_currentBucket tw_currentBucket tw_archivedBuckets tw_totalPushed
         tw_totalEvicted tw_maxArchivedBuckets tw_bucketStartTime tw_windowMs st0].
    cbn [st0 tw_currentBucket tw_archivedBuckets tw_totalPushed tw_totalEvicted
         tw_maxArchivedBuckets] in Hbal, Hlen, Hcons.
    rewrite length_app. simpl.
    split; [repeat split; try assumption; lia|].
    apply List.Forall_app. split; [exact Hts|].
    constructor; [|constructor].
    rewrite Z.geb_leb in E. apply Z.leb_gt in E. exact E.
Qed.

Lemma tw_flush_keeps (now : Z) (st : TumblingWindowStrategy num) :
  tw_balance 0 st ->
  List.Forall (fun x => timestamp x < tw_bucketStartTime st + tw_windowMs st)
              (tw_currentBucket st) ->
  tw_balance 0 (snd (tw_flushCurrentBucket now st)) /\
  List.Forall (fun x => timestamp x < tw_bucketStartTime (snd (tw_flushCurrentBucket now st))
                                     + tw_windowMs (snd (tw_flushCurrentBucket now st)))
              (tw_currentBucket (snd (tw_flushCurrentBucket now st))).
Proof.
  intros Hb Hts. unfold tw_flushCurrentBucket.
  destruct (length (tw_currentBucket st) =? 0)%nat eqn:E; cbn [snd].
  - split; assumption.
  - destruct Hb as (Hbal & Hlen & Hcons).
    destruct (tw_archiveBucket_fields st (tw_currentBucket st) (tw_bucketStartTime st) now)
      as (Hcur & Hstart & Hwin & Hmax & Hpushed & Harch).
    destruct (archive_step_balance (tw_maxArchivedBuckets st) (tw_archivedBuckets st)
                (tw_totalEvicted st)
                (bucket_of (tw_currentBucket st) (tw_bucketStartTime st) now))
      as (Hsum & Hbound & Hall).
    rewrite <- Harch in Hsum, Hbound, Hall. cbn [fst snd] in Hsum, Hbound, Hall.
    cbn [bucket_of b_entries] in Hsum.
    unfold tw_balance.
    cbn [tw_set_bucketStartTime tw_set_currentBucket tw_currentBucket tw_archivedBuckets
         tw_totalPushed tw_totalEvicted tw_maxArchivedBuckets length].
    rewrite Hpushed, Hmax.
    split; [|constructor].
    split; [lia|]. split; [exact Hbound|].
    apply Hall; [exact Hcons | reflexivity].
Qed.

Lemma tw_reachable_keeps (st : TumblingWindowStrategy num) :
  tw_reachable st ->
  tw_balance 0 st /\
  List.Forall (fun x => timestamp x < tw_bucketStartTime st + tw_windowMs st)
              (tw_currentBucket st).
Proof.
  induction 1 as [now config | st st' fuel e Hr IH Hpush | st now Hr IH | st now Hr IH].
  - split; [|constructor]. unfold tw_balance, TumblingWindowStrategy_new. simpl.
    repeat split; [lia | constructor].
  - destruct IH as [Hb Hts]. exact (tw_push_keeps fuel st st' e Hpush Hb Hts).
  - destruct IH as [Hb Hts]. exact (tw_flush_keeps now st Hb Hts).
  - split; [|constructor]. unfold tw_balance, tw_clear. simpl.
    repeat split; [lia | constructor].
Qed.

(** X11.  In every state a client can bring a tumbling window to, the
    snapshot's [totalPushed] is its size plus the number of entries held in
    archived buckets plus [totalEvicted]: each pushed entry is in the active
    bucket, in the archive, or counted as evicted. *)
Theorem tumbling_counters_balance (st : TumblingWindowStrategy num) :
  tw_reachable st ->
  snap_totalPushed (tw_getSnapshot st)
  = (snap_size (tw_getSnapshot st) + archived_entries (tw_getArchivedBuckets st)
     + snap_totalEvicted (tw_getSnapshot st))%nat.
Proof.
  intros Hr. destruct (tw_reachable_keeps st Hr) as [(Hbal & _ & _) _].
  unfold tw_getSnapshot, tw_getArchivedBuckets. simpl. lia.
Qed.

(** X12.  In every state a client can bring a tumbling window to, the
    archive holds at most [maxArchivedBuckets] buckets, and each archived
    bucket carries the latency percentiles of its own entries. *)
Theorem tumbling_archive_is_bounded_and_consistent (st : TumblingWindowStrategy num) :
  tw_reachable st ->
  (length (tw_getArchivedBuckets st) <= tw_maxArchivedBuckets st)%nat /\
  (forall b, In b (tw_getArchivedBuckets st) ->
             b_percentiles b = computePercentiles (b_entries b) latency).
Proof.
  intros Hr. destruct (tw_reachable_keeps st Hr) as [(_ & Hlen & Hcons) _].
  split; [exact Hlen|]. apply List.Forall_forall. exact Hcons.
Qed.


Lemma tw_skipWindows_hangs (fuel : nat) :
  forall (st : TumblingWindowStrategy num) (e : Entry),
    tw_windowMs st <= 0 -> tw_bucketStartTime st + tw_windowMs st <= timestamp e ->
    tw_skipWindows fuel st e = None.
Proof.
  induction fuel as [|fuel IH]; intros st e Hw Ht; [reflexivity|].
  cbn [tw_skipWindows].
  replace (timestamp e >=? tw_bucketStartTime st + tw_windowMs st) with true.
  2:{ symmetry. rewrite Z.geb_leb. apply Z.leb_le. lia. }
  destruct (tw_archiveBucket_fields st [] (tw_bucketStartTime st)
              (tw_bucketStartTime st + tw_windowMs st))
    as (_ & Hstart & Hwin & _).
  apply IH.
  - cbn [tw_set_bucketStartTime tw_windowMs]. rewrite Hwin. exact Hw.
  - cbn [tw_set_bucketStartTime tw_bucketStartTime tw_windowMs]. rewrite Hstart, Hwin. lia.
Qed.

(** X14.  With [windowMs <= 0], a [push] whose timestamp has reached the end
    of the active window does not return: the loop over the skipped windows
    is still running after any number of rounds. *)
Theorem tumbling_push_hangs_on_nonpositive_window
  (st : TumblingWindowStrategy num) (e : Entry) (fuel : nat) :
  tw_windowMs st <= 0 ->
  tw_bucketStartTime st + tw_windowMs st <= timestamp e ->
  tw_push fuel st e = None.
Proof.
  intros Hw Ht. unfold tw_push. cbn [tw_bucketStartTime tw_windowMs].
  replace (timestamp e >=? tw_bucketStartTime st + tw_windowMs st) with true.
  2:{ symmetry. rewrite Z.geb_leb. apply Z.leb_le. lia. }
  rewrite tw_skipWindows_hangs; [reflexivity| |].
  - cbn [tw_set_bucketStartTime tw_windowMs].
    rewrite (proj1 (proj2 (proj2 (tw_closeBucket_fields _ _)))). exact Hw.
  - cbn [tw_set_bucketStartTime tw_bucketStartTime tw_windowMs].
    rewrite (proj1 (proj2 (proj2 (tw_closeBucket_fields _ _)))). cbn [tw_windowMs]. lia.
Qed.

(** X15.  [flushCurrentBucket] on an empty active bucket returns [null] and
    changes nothing.  On a bucket that holds entries it returns a bucket of
    these entries, from the active window's start to the clock reading, with
    their latency percentiles; afterwards the active bucket is empty and
    starts at the clock reading, [totalPushed] is unchanged, and the returned
    bucket is the latest archived one unless [maxArchivedBuckets] is 0, in
    which case the archive is empty. *)
Theorem tumbling_flush (now : Z) (st : TumblingWindowStrategy num) :
  (tw_currentBucket st = [] -> tw_flushCurrentBucket now st = (None, st)) /\
  (tw_currentBucket st <> [] ->
   let st' := snd (tw_flushCurrentBucket now st) in
   fst (tw_flushCurrentBucket now st)
   = Some (mkBucket (tw_currentBucket st) (tw_bucketStartTime st) now
                    (computePercentiles (tw_currentBucket st) latency)) /\
   tw_getCurrentBucketSize st' = 0%nat /\
   tw_bucketStartTime st' = now /\
   tw_totalPushed st' = tw_totalPushed st /\
   ((0 < tw_maxArchivedBuckets st)%nat ->
    tw_getLatestArchivedBucket st' = fst (tw_flushCurrentBucket now st)) /\
   (tw_maxArchivedBuckets st = 0%nat ->
    tw_getArchivedBuckets st' = [] /\ tw_getLatestArchivedBucket st' = None)).
Proof.
  split.
  - intros Hcur. unfold tw_flushCurrentBucket. rewrite Hcur. reflexivity.
  - intros Hcur st'. unfold st', tw_flushCurrentBucket.
    destruct (length (tw_currentBucket st) =? 0)%nat eqn:E.
    { apply Nat.eqb_eq in E. destruct (tw_currentBucket st); [congruence | discriminate E]. }
    cbn [fst snd].
    destruct (tw_archiveBucket_fields st (tw_currentBucket st) (tw_bucketStartTime st) now)
      as (Hc & Hstart & Hwin & Hmax & Hpushed & Harch).
    unfold archive_step in Harch. cbn [fst snd] in Harch.
    rewrite evictArchived_drop in Harch. injection Harch as Harch Hev.
    unfold tw_getCurrentBucketSize, tw_getLatestArchivedBucket, tw_getArchivedBuckets.
    cbn [tw_set_bucketStartTime tw_set_currentBucket tw_currentBucket tw_archivedBuckets
         tw_totalPushed tw_bucketStartTime length].
    split; [reflexivity|]. split; [reflexivity|]. split; [reflexivity|].
    split; [exact Hpushed|].
    rewrite Harch.
    set (b := bucket_of (tw_currentBucket st) (tw_bucketStartTime st) now).
    set (l := tw_archivedBuckets st ++ [b]).
    assert (Hl : length l = Datatypes.S (length (tw_archivedBuckets st))).
    { unfold l. rewrite length_app. simpl. lia. }
    split.
    + intros Hpos. rewrite length_drop.
      destruct (length l - (length l - tw_maxArchivedBuckets st))%nat as [|n] eqn:En; [lia|].
      rewrite lookup_drop.
      replace (length l - tw_maxArchivedBuckets st + n)%nat
        with (length (tw_archivedBuckets st)) by lia.
      unfold l. rewrite lookup_app_r by lia. rewrite Nat.sub_diag. reflexivity.
    + intros Hzero. rewrite Hzero, Nat.sub_0_r, drop_all. split; reflexivity.
Qed.

End TumblingMore.

(** A window of width 10 constructed at time 0, after pushes at 5 and 27. *)
Lemma tumbling_counters_balance_witness :
  exists st : TumblingWindowStrategy float,
    tw_push 5 (tumbling_with_one_entry) (mkEntry "A" latency 4%float 27 None) = Some st /\
    snap_totalPushed (tw_getSnapshot st)
    = (snap_size (tw_getSnapshot st) + archived_entries (tw_getArchivedBuckets st)
       + snap_totalEvicted (tw_getSnapshot st))%nat.
Proof.
  eexists. split; [reflexivity|].
  apply tumbling_counters_balance.
  apply (tw_reach_push tumbling_with_one_entry _ 5 (mkEntry "A" latency 4%float 27 None));
    [|reflexivity].
  apply (tw_reach_push fresh_tumbling _ 1 (mkEntry "A" latency 3%float 5 None));
    [|reflexivity].
  apply tw_reach_new.
Defined.

(** The archive of a window that keeps one bucket, after pushes at 5 and 27. *)
Lemma tumbling_archive_is_bounded_and_consistent_witness :
  exists st : TumblingWindowStrategy float,
    tw_push 5 tumbling_keeping_one_with_entry (mkEntry "A" latency 4%float 27 None) = Some st /\
    (length (tw_getArchivedBuckets st) <= 1)%nat.
Proof.
  eexists. split; [reflexivity|].
  refine (proj1 (tumbling_archive_is_bounded_and_consistent _ _)).
  apply (tw_reach_push tumbling_keeping_one_with_entry _ 5
                       (mkEntry "A" latency 4%float 27 None)); [|reflexivity].
  apply (tw_reach_push tumbling_keeping_one _ 1 (mkEntry "A" latency 3%float 5 None));
    [|reflexivity].
  apply tw_reach_new.
Defined.


(** A window of width 0 and a push at its start. *)
Lemma tumbling_push_hangs_on_nonpositive_window_witness :
  tw_push 1000 (TumblingWindowStrategy_new 0 (Some (mkTumblingConfig (Some 0) None)))
          (mkEntry "A" latency 3%float 0 None) = None.
Proof.
  apply tumbling_push_hangs_on_nonpositive_window; simpl; lia.
Defined.


(** Flushing an active bucket with one entry at clock reading 8. *)
Lemma tumbling_flush_witness :
  tw_getLatestArchivedBucket (snd (tw_flushCurrentBucket 8 tumbling_with_one_entry))
  = fst (tw_flushCurrentBucket 8 tumbling_with_one_entry).
Proof.
  refine (proj1 (proj2 (proj2 (proj2 (proj2
            (proj2 (tumbling_flush 8 tumbling_with_one_entry) _))))) _).
  - discriminate.
  - simpl. lia.
Defined.

(** ** Sliding window: what stays in the window *)

Section SlidingMore.

Context {num : Type} `{JSNumber num}.

Local Abbreviation Entry := (MetricEntry num).

Lemma sw_push_entries (st : SlidingWindowStrategy num) (e : Entry) :
  sw_entries (sw_push st e)
  = List.filter (fun x => timestamp x >=? timestamp e - sw_windowMs st) (sw_entries st ++ [e]).
Proof. reflexivity. Qed.

Lemma sw_pushes_windowMs (l : list Entry) (st : SlidingWindowStrategy num) :
  sw_windowMs (fold_left sw_push l st) = sw_windowMs st.
Proof.
  revert st. induction l as [|e l IH]; intros st; simpl; [reflexivity|].
  rewrite IH. reflexivity.
Qed.

Lemma sw_pushes_counters (l : list Entry) (st : SlidingWindowStrategy num) :
  sw_totalPushed st = (length (sw_entries st) + sw_totalEvicted st)%nat ->
  sw_totalPushed (fold_left sw_push l st) = (sw_totalPushed st + length l)%nat /\
  sw_totalPushed (fold_left sw_push l st)
  = (length (sw_entries (fold_left sw_push l st))
     + sw_totalEvicted (fold_left sw_push l st))%nat.
Proof.
  revert st. induction l as [|e l IH]; intros st Hb; simpl.
  - split; [lia | exact Hb].
  - destruct (IH (sw_push st e)) as [Hp Hbal].
    + exact (sw_balance_step st (SwPush e) Hb).
    + split; [|exact Hbal]. rewrite Hp. unfold sw_push, sw_evictStale. simpl. lia.
Qed.

(** Filtering the window by a cut-off at or above the cut-offs of all pushes
    is filtering the pushed entries by it. *)
Lemma sw_pushes_filter (w c : Z) (l : list Entry) :
  forall st : SlidingWindowStrategy num,
    sw_entries st = [] -> sw_windowMs st = w ->
    (forall x, In x l -> timestamp x - w <= c) ->
    List.filter (fun x => timestamp x >=? c) (sw_entries (fold_left sw_push l st))
    = List.filter (fun x => timestamp x >=? c) l.
Proof.
  induction l as [|e l IH] using rev_ind; intros st Hnil Hw Hc.
  - simpl. rewrite Hnil. reflexivity.
  - rewrite fold_left_app. cbn [fold_left]. rewrite sw_push_entries.
    rewrite sw_pushes_windowMs, Hw.
    rewrite filter_filter_cutoff.
    2:{ apply Hc. apply in_or_app. right. left. reflexivity. }
    rewrite !List.filter_app. f_equal.
    apply IH; [exact Hnil | exact Hw|].
    intros x Hx. apply Hc. apply in_or_app. left. exact Hx.
Qed.

(** X16.  When the entry pushed last into a fresh sliding window has the
    largest timestamp of all pushed entries, the window holds exactly the
    pushed entries that are not older than that timestamp minus [windowMs],
    in push order, and [totalEvicted] counts the others. *)
Theorem sliding_window_holds_recent_entries
  (config : option (option Z)) (l : list Entry) (e : Entry) :
  (forall x, In x l -> timestamp x <= timestamp e) ->
  let st := fold_left sw_push (l ++ [e]) (SlidingWindowStrategy_new config) in
  let recent := fun x : Entry => timestamp e - sw_windowMs st <=? timestamp x in
  sw_entries st = List.filter recent (l ++ [e]) /\
  sw_totalEvicted st = length (List.filter (fun x => negb (recent x)) (l ++ [e])).
Proof.
  intros Hmax st recent.
  set (st0 := SlidingWindowStrategy_new (num := num) config).
  assert (Hw : sw_windowMs st = sw_windowMs st0) by apply sw_pushes_windowMs.
  assert (Hrecent : forall x, recent x = (timestamp x >=? timestamp e - sw_windowMs st0)).
  { intros x. unfold recent. rewrite Hw, Z.geb_leb. reflexivity. }
  assert (Hent : sw_entries st = List.filter recent (l ++ [e])).
  { rewrite (List.filter_ext _ _ Hrecent).
    unfold st. rewrite fold_left_app. cbn [fold_left]. rewrite sw_push_entries.
    rewrite sw_pushes_windowMs. rewrite !List.filter_app. f_equal.
    apply (sw_pushes_filter (sw_windowMs st0)); [reflexivity | reflexivity|].
    intros x Hx. specialize (Hmax x Hx). lia. }
  split; [exact Hent|].
  destruct (sw_pushes_counters (l ++ [e]) st0 eq_refl) as [Hp Hbal].
  change (fold_left sw_push (l ++ [e]) st0) with st in Hp, Hbal. rewrite Hent in Hbal.
  pose proof (filter_length_split recent (l ++ [e])) as Hsplit.
  change (sw_totalPushed st0) with 0%nat in Hp. lia.
Qed.

Lemma sw_step_sublist (st : SlidingWindowStrategy num) (op : SwOp num) (acc : list Entry) :
  sublist (sw_entries st) acc ->
  sublist (sw_entries (sw_step st op)) (sw_pushed_step acc op).
Proof.
  intros Hs.
  assert (Hev : forall now ref, sublist (sw_entries (sw_evictStale now ref st)) acc).
  { intros now ref. unfold sw_evictStale. cbn [sw_entries].
    etransitivity; [apply filter_sublist | exact Hs]. }
  destruct op; cbn [sw_step sw_pushed_step];
    unfold sw_getPercentiles, sw_getStagePercentiles, sw_getSnapshot, sw_getMetricResult,
           sw_getSize; cbn [snd]; try apply Hev.
  - rewrite sw_push_entries.
    etransitivity; [apply filter_sublist|]. apply sublist_app; [exact Hs | reflexivity].
  - apply sublist_nil_l.
Qed.

(** X17.  Whatever pushes, queries and clears a client makes on a sliding
    window, at whatever clock readings, the window holds a subsequence of the
    entries pushed since the last [clear()]: it never reorders, repeats or
    brings back an entry. *)
Theorem sliding_window_holds_subsequence_of_pushed
  (config : option (option Z)) (ops : list (SwOp num)) (now : Z) :
  sublist (sw_entries (sw_run ops (SlidingWindowStrategy_new config))) (sw_pushed ops) /\
  exists kept : list Entry,
    snap_entries (fst (sw_getSnapshot now (sw_run ops (SlidingWindowStrategy_new config))))
    = map Some kept /\
    sublist kept (sw_pushed ops).
Proof.
  assert (Hrun : forall (st : SlidingWindowStrategy num) acc,
             sublist (sw_entries st) acc ->
             sublist (sw_entries (fold_left sw_step ops st))
                     (fold_left sw_pushed_step ops acc)).
  { induction ops as [|op ops IH]; intros st acc Hs; simpl; [exact Hs|].
    apply IH, sw_step_sublist, Hs. }
  assert (H0 : sublist (sw_entries (sw_run ops (SlidingWindowStrategy_new config)))
                       (sw_pushed ops)).
  { apply Hrun. simpl. constructor. }
  split; [exact H0|].
  eexists. split; [reflexivity|].
  exact (sw_step_sublist _ (SwGetSnapshot now) _ H0).
Qed.

End SlidingMore.

(** A window of 10 ms after pushes at 0, 5 and 12. *)
Lemma sliding_window_holds_recent_entries_witness :
  sw_entries
    (fold_left sw_push
       ([mkEntry "A" latency 1%float 0 None; mkEntry "A" latency 2%float 5 None]
        ++ [mkEntry "A" latency 3%float 12 None])
       (SlidingWindowStrategy_new (Some (Some 10))))
  = [mkEntry "A" latency 2%float 5 None; mkEntry "A" latency 3%float 12 None].
Proof.
  refine (proj1 (sliding_window_holds_recent_entries (Some (Some 10))
                   [mkEntry "A" latency 1%float 0 None; mkEntry "A" latency 2%float 5 None]
                   (mkEntry "A" latency 3%float 12 None) _)).
  intros x [<-|[<-|[]]]; simpl; lia.
Defined.

(** ** MetricCollector: runs of recorder events *)

Section CollectorMore.

Context {num : Type} `{JSNumber num}.

Local Abbreviation Entry := (MetricEntry num).

Section AnyStrategy.

Context {S : Type} `{WindowStrategy num S}.

Local Abbreviation Collector := (MetricCollector num S).

(** Every hook returns, keeps the configuration, and leaves the start time
    recorded for a stage alone unless it starts or ends that stage. *)
Lemma mc_step_frame (c : Collector) (ev : RecorderEvent num) :
  exists c' : Collector,
    mc_step c ev = Normal c' /\
    mc_id c' = mc_id c /\
    mc_trackReads c' = mc_trackReads c /\
    mc_trackWrites c' = mc_trackWrites c /\
    mc_trackCommits c' = mc_trackCommits c /\
    mc_onMetricEntry c' = mc_onMetricEntry c /\
    (forall o, writes_start_of o ev = false ->
               mc_stageStartTimes c' !! o = mc_stageStartTimes c !! o).
Proof.
  destruct ev as [event|event|event|event|event|event|now]; cbn [mc_step writes_start_of].
  - unfold mc_onStageStart. rewrite mc_emit_normal. eexists. split; [reflexivity|].
    cbn. repeat split. intros o Ho. apply String.eqb_neq in Ho.
    apply lookup_insert_ne. exact Ho.
  - unfold mc_onStageEnd.
    destruct (ev_duration event) as [d|].
    + rewrite mc_emit_normal. eexists. split; [reflexivity|].
      cbn. repeat split. intros o Ho. apply String.eqb_neq in Ho.
      apply lookup_delete_ne. exact Ho.
    + destruct (mc_stageStartTimes c !! ev_stageName event) as [t|].
      * rewrite mc_emit_normal. eexists. split; [reflexivity|].
        cbn. repeat split. intros o Ho. apply String.eqb_neq in Ho.
        apply lookup_delete_ne. exact Ho.
      * eexists. split; [reflexivity|].
        cbn. repeat split. intros o Ho. apply String.eqb_neq in Ho.
        apply lookup_delete_ne. exact Ho.
  - unfold mc_onError. rewrite mc_emit_normal. eexists. split; [reflexivity|].
    cbn. repeat split.
  - unfold mc_onRead. destruct (negb (mc_trackReads c)).
    + eexists. split; [reflexivity|]. repeat split.
    + rewrite mc_emit_normal. eexists. split; [reflexivity|]. cbn. repeat split.
  - unfold mc_onWrite. destruct (negb (mc_trackWrites c)).
    + eexists. split; [reflexivity|]. repeat split.
    + rewrite mc_emit_normal. eexists. split; [reflexivity|]. cbn. repeat split.
  - unfold mc_onCommit. destruct (negb (mc_trackCommits c)).
    + eexists. split; [reflexivity|]. repeat split.
    + rewrite mc_emit_normal. eexists. split; [reflexivity|]. cbn. repeat split.
  - eexists. split; [reflexivity|]. cbn. repeat split. intros o Ho. discriminate Ho.
Qed.

Lemma mc_run_frame (evs : list (RecorderEvent num)) :
  forall c : Collector,
  exists c' : Collector,
    mc_run evs c = Normal c' /\
    mc_id c' = mc_id c /\
    mc_trackReads c' = mc_trackReads c /\
    mc_trackWrites c' = mc_trackWrites c /\
    mc_trackCommits c' = mc_trackCommits c /\
    mc_onMetricEntry c' = mc_onMetricEntry c /\
    (forall o, forallb (fun ev => negb (writes_start_of o ev)) evs = true ->
               mc_stageStartTimes c' !! o = mc_stageStartTimes c !! o).
Proof.
  induction evs as [|ev evs IH]; intros c.
  - exists c. repeat split.
  - destruct (mc_step_frame c ev) as (c1 & Hstep & Hid & Hr & Hw & Hc & Hcb & Hstart).
    destruct (IH c1) as (c' & Hrun & Hid' & Hr' & Hw' & Hc' & Hcb' & Hstart').
    exists c'. cbn [mc_run]. rewrite Hstep. cbn [cbind].
    split; [exact Hrun|].
    split; [congruence|]. split; [congruence|]. split; [congruence|].
    split; [congruence|]. split; [congruence|].
    intros o Ho. cbn [forallb] in Ho. apply andb_true_iff in Ho. destruct Ho as [Ho1 Ho2].
    rewrite (Hstart' o Ho2). apply Hstart. apply negb_true_iff. exact Ho1.
Qed.

(** X18.  A stage's latency is measured from its latest start whatever
    happens to other stages in between: after [onStageStart] for stage [o] at
    [t0], any run of events that neither starts nor ends [o] nor resets the
    collector, and [onStageEnd] for [o] at [t1] without a duration, the
    strategy has been handed a latency entry of value [t1 - t0] for [o], and
    no start time is recorded for [o] any more. *)
Theorem latency_is_measured_across_other_events
  (c : Collector) (o : string) (t0 t1 : Z) (evs : list (RecorderEvent num)) :
  forallb (fun ev => negb (writes_start_of o ev)) evs = true ->
  exists c1 c2 c3 : Collector,
    mc_onStageStart c (mkStageEvent o t0 None) = Normal c1 /\
    mc_run evs c1 = Normal c2 /\
    mc_onStageEnd c2 (mkStageEvent o t1 None) = Normal c3 /\
    mc_strategy c3
    = ws_push (mc_strategy c2) (mkEntry o latency (of_Z (t1 - t0)) t1 None) /\
    mc_totalEntries c3 = Datatypes.S (mc_totalEntries c2) /\
    mc_stageStartTimes c3 !! o = None.
Proof.
  intros Hevs.
  assert (Hs : exists c1 : Collector,
             mc_onStageStart c (mkStageEvent o t0 None) = Normal c1 /\
             mc_stageStartTimes c1 !! o = Some t0).
  { unfold mc_onStageStart. rewrite mc_emit_normal. eexists. split; [reflexivity|].
    cbn. apply lookup_insert_eq. }
  destruct Hs as (c1 & Hs1 & Hl1).
  destruct (mc_run_frame evs c1) as (c2 & Hrun & _ & _ & _ & _ & _ & Hstart).
  exists c1, c2. eexists. split; [exact Hs1|]. split; [exact Hrun|].
  specialize (Hstart o Hevs). rewrite Hl1 in Hstart.
  unfold mc_onStageEnd. cbn [ev_duration ev_stageName ev_timestamp].
  rewrite Hstart, mc_emit_normal. cbn [cbind].
  split; [reflexivity|]. unfold mc_delete_start.
  cbn [mc_strategy mc_totalEntries mc_stageStartTimes].
  split; [reflexivity|]. split; [reflexivity|]. apply lookup_delete_eq.
Qed.

Lemma mc_delete_start_absent (c : Collector) (o : string) :
  mc_stageStartTimes c !! o = None -> mc_delete_start c o = c.
Proof.
  intros Hnone. destruct c. unfold mc_delete_start. cbn in *.
  f_equal. apply delete_id. exact Hnone.
Qed.

(** X19.  [onStageEnd] without a duration for a stage that has no recorded
    start hands the strategy nothing and leaves the collector as it is; and
    after any [onStageEnd] for a stage, a further one without a duration for
    the same stage does so, the recorded start having been consumed. *)
Theorem stage_end_without_start_is_dropped (c : Collector) (ev : StageEvent num) :
  ev_duration ev = None ->
  (mc_stageStartTimes c !! ev_stageName ev = None -> mc_onStageEnd c ev = Normal c) /\
  (forall (first : StageEvent num) (c1 : Collector),
      ev_stageName first = ev_stageName ev ->
      mc_onStageEnd c first = Normal c1 ->
      mc_onStageEnd c1 ev = Normal c1).
Proof.
  intros Hd.
  assert (Hdrop : forall c0 : Collector,
             mc_stageStartTimes c0 !! ev_stageName ev = None ->
             mc_onStageEnd c0 ev = Normal c0).
  { intros c0 Hnone. unfold mc_onStageEnd. rewrite Hd, Hnone. cbn [cbind].
    rewrite mc_delete_start_absent by exact Hnone. reflexivity. }
  split; [apply Hdrop|].
  intros first c1 Hname Hfirst. apply Hdrop.
  unfold mc_onStageEnd in Hfirst. rewrite Hname in Hfirst.
  destruct (ev_duration first) as [d|].
  - rewrite mc_emit_normal in Hfirst. cbn [cbind] in Hfirst. injection Hfirst as <-.
    cbn. apply lookup_delete_eq.
  - destruct (mc_stageStartTimes c !! ev_stageName ev) as [t|].
    + rewrite mc_emit_normal in Hfirst. cbn [cbind] in Hfirst. injection Hfirst as <-.
      cbn. apply lookup_delete_eq.
    + cbn [cbind] in Hfirst. injection Hfirst as <-. cbn. apply lookup_delete_eq.
Qed.


End AnyStrategy.

(** *** With the recording strategy *)

Local Abbreviation Recording := (MetricCollector num (list Entry)).

Lemma mc_step_counts (c c' : Recording) (ev : RecorderEvent num) :
  mc_step c ev = Normal c' ->
  counts_pushed c -> counts_pushed c'.
Proof.
  intros Hstep (He & Hi & Her & Hobs & Hpend).
  destruct ev as [event|event|event|event|event|event|now]; cbn [mc_step] in Hstep.
  - unfold mc_onStageStart in Hstep. rewrite mc_emit_normal in Hstep.
    injection Hstep as <-. unfold counts_pushed, countInvocations in *. cbn in *.
    rewrite !List.filter_app, !length_app. cbn.
    split; [lia|]. split; [lia|]. split; [lia|]. split.
    + intros s. rewrite elem_of_union, elem_of_singleton, Hobs. split.
      * intros [->|(e & Hin & Hs & Hm)].
        -- eexists. split; [apply in_or_app; right; left; reflexivity|].
           split; [reflexivity | left; reflexivity].
        -- exists e. split; [apply in_or_app; left; exact Hin | auto].
      * intros (e & Hin & Hs & Hm). apply in_app_or in Hin. destruct Hin as [Hin|[<-|[]]].
        -- right. exists e. auto.
        -- left. symmetry. exact Hs.
    + intros s Hs. rewrite elem_of_union, elem_of_singleton.
      destruct (decide (s = ev_stageName event)) as [->|Hne]; [left; reflexivity|].
      right. apply Hpend. rewrite lookup_insert_ne in Hs by congruence. exact Hs.
  - unfold mc_onStageEnd in Hstep.
    assert (Hdel : forall s, is_Some (delete (ev_stageName event) (mc_stageStartTimes c) !! s) ->
                             s ∈ mc_observedStages c).
    { intros s Hs. apply Hpend.
      destruct (decide (s = ev_stageName event)) as [->|Hne].
      - rewrite lookup_delete_eq in Hs. destruct Hs as [x Hx]. discriminate Hx.
      - rewrite lookup_delete_ne in Hs by congruence. exact Hs. }
    assert (Hlat : forall d t, counts_pushed
                     (mc_delete_start
                        (mkCollector (mc_id c)
                           (ws_push (mc_strategy c) (mkEntry (ev_stageName event) latency d t None))
                           (mc_trackReads c) (mc_trackWrites c) (mc_trackCommits c)
                           (mc_onMetricEntry c) (mc_stageStartTimes c) (mc_observedStages c)
                           (mc_totalErrors c) (mc_totalInvocations c)
                           (Datatypes.S (mc_totalEntries c)))
                        (ev_stageName event))).
    { intros d t. unfold counts_pushed, countInvocations in *. cbn in *.
      rewrite !List.filter_app, !length_app. cbn.
      split; [lia|]. split; [lia|]. split; [lia|]. split; [|exact Hdel].
      intros s. rewrite Hobs. split.
      - intros (e & Hin & Hs & Hm). exists e. split; [apply in_or_app; left; exact Hin | auto].
      - intros (e & Hin & Hs & Hm). apply in_app_or in Hin. destruct Hin as [Hin|[<-|[]]].
        + exists e. auto.
        + cbn in Hm. destruct Hm as [Hm|Hm]; discriminate Hm. }
    destruct (ev_duration event) as [d|].
    + rewrite mc_emit_normal in Hstep. cbn [cbind] in Hstep. injection Hstep as <-.
      apply Hlat.
    + destruct (mc_stageStartTimes c !! ev_stageName event) as [t|].
      * rewrite mc_emit_normal in Hstep. cbn [cbind] in Hstep. injection Hstep as <-.
        apply Hlat.
      * cbn [cbind] in Hstep. injection Hstep as <-.
        unfold counts_pushed. cbn. repeat split; try assumption; apply Hobs.
  - unfold mc_onError in Hstep. rewrite mc_emit_normal in Hstep.
    injection Hstep as <-. unfold counts_pushed, countInvocations in *. cbn in *.
    rewrite !List.filter_app, !length_app. cbn.
    split; [lia|]. split; [lia|]. split; [lia|]. split.
    + intros s. rewrite elem_of_union, elem_of_singleton, Hobs. split.
      * intros [->|(e & Hin & Hs & Hm)].
        -- eexists. split; [apply in_or_app; right; left; reflexivity|].
           split; [reflexivity | right; reflexivity].
        -- exists e. split; [apply in_or_app; left; exact Hin | auto].
      * intros (e & Hin & Hs & Hm). apply in_app_or in Hin. destruct Hin as [Hin|[<-|[]]].
        -- right. exists e. auto.
        -- left. symmetry. exact Hs.
    + intros s Hs. rewrite elem_of_union. right. apply Hpend. exact Hs.
  - unfold mc_onRead in Hstep. destruct (negb (mc_trackReads c)).
    + injection Hstep as <-. repeat split; assumption || apply Hobs.
    + rewrite mc_emit_normal in Hstep. injection Hstep as <-.
      unfold counts_pushed, countInvocations in *. cbn in *.
      rewrite !List.filter_app, !length_app. cbn.
      split; [lia|]. split; [lia|]. split; [lia|]. split; [|exact Hpend].
      intros s. rewrite Hobs. split.
      * intros (e & Hin & Hs & Hm). exists e. split; [apply in_or_app; left; exact Hin | auto].
      * intros (e & Hin & Hs & Hm). apply in_app_or in Hin. destruct Hin as [Hin|[<-|[]]].
        -- exists e. auto.
        -- cbn in Hm. destruct Hm as [Hm|Hm]; discriminate Hm.
  - unfold mc_onWrite in Hstep. destruct (negb (mc_trackWrites c)).
    + injection Hstep as <-. repeat split; assumption || apply Hobs.
    + rewrite mc_emit_normal in Hstep. injection Hstep as <-.
      unfold counts_pushed, countInvocations in *. cbn in *.
      rewrite !List.filter_app, !length_app. cbn.
      split; [lia|]. split; [lia|]. split; [lia|]. split; [|exact Hpend].
      intros s. rewrite Hobs. split.
      * intros (e & Hin & Hs & Hm). exists e. split; [apply in_or_app; left; exact Hin | auto].
      * intros (e & Hin & Hs & Hm). apply in_app_or in Hin. destruct Hin as [Hin|[<-|[]]].
        -- exists e. auto.
        -- cbn in Hm. destruct Hm as [Hm|Hm]; discriminate Hm.
  - unfold mc_onCommit in Hstep. destruct (negb (mc_trackCommits c)).
    + injection Hstep as <-. repeat split; assumption || apply Hobs.
    + rewrite mc_emit_normal in Hstep. injection Hstep as <-.
      unfold counts_pushed, countInvocations in *. cbn in *.
      rewrite !List.filter_app, !length_app. cbn.
      split; [lia|]. split; [lia|]. split; [lia|]. split; [|exact Hpend].
      intros s. rewrite Hobs. split.
      * intros (e & Hin & Hs & Hm). exists e. split; [apply in_or_app; left; exact Hin | auto].
      * intros (e & Hin & Hs & Hm). apply in_app_or in Hin. destruct Hin as [Hin|[<-|[]]].
        -- exists e. auto.
        -- cbn in Hm. destruct Hm as [Hm|Hm]; discriminate Hm.
  - injection Hstep as <-. unfold counts_pushed, countInvocations. cbn.
    split; [reflexivity|]. split; [reflexivity|]. split; [reflexivity|]. split.
    + intros s. split; [intros Hs; apply elem_of_empty in Hs; destruct Hs|].
      intros (e & [] & _).
    + intros s Hs. rewrite lookup_empty in Hs. destruct Hs as [x Hx]. discriminate Hx.
Qed.

Lemma mc_run_counts (evs : list (RecorderEvent num)) :
  forall c c' : Recording,
    mc_run evs c = Normal c' -> counts_pushed c -> counts_pushed c'.
Proof.
  induction evs as [|ev evs IH]; intros c c' Hrun Hc; cbn [mc_run] in Hrun.
  - injection Hrun as <-. exact Hc.
  - destruct (mc_step c ev) as [c1|] eqn:Hstep; [|discriminate Hrun].
    cbn [cbind] in Hrun. exact (IH c1 c' Hrun (mc_step_counts c c1 ev Hstep Hc)).
Qed.

(** X21.  The counters of a collector count what it has handed to its
    strategy since it was constructed or last reset: with a strategy that
    records the pushes, after any run of recorder events, [totalEntries] is
    the number of recorded entries, [totalInvocations] the number of
    [stageInvocation] entries, [totalErrors] the number of [errorCount]
    entries, the observed stages are the stages of these two kinds of
    entries, and every stage with a pending start time is observed. *)
Theorem collector_counters_count_pushed_entries
  (options : CollectorOptions num (list Entry)) (evs : list (RecorderEvent num)) :
  opt_strategy options = [] ->
  exists c : Recording,
    mc_run evs (MetricCollector_new options) = Normal c /\
    mc_totalEntries c = length (mc_strategy c) /\
    mc_totalInvocations c = countInvocations (mc_strategy c) /\
    mc_totalErrors c
    = length (List.filter (fun e => MetricType_eqb (metric e) errorCount) (mc_strategy c)) /\
    (forall s, s ∈ mc_observedStages c <->
               exists e, In e (mc_strategy c) /\ stageName e = s /\
                         (metric e = stageInvocation \/ metric e = errorCount)) /\
    (forall s, is_Some (mc_stageStartTimes c !! s) -> s ∈ mc_observedStages c).
Proof.
  intros Hempty.
  destruct (mc_run_frame evs (MetricCollector_new options)) as (c & Hrun & _).
  exists c. split; [exact Hrun|].
  apply (mc_run_counts evs _ c Hrun).
  unfold counts_pushed, MetricCollector_new, countInvocations. cbn. rewrite Hempty. cbn.
  split; [reflexivity|]. split; [reflexivity|]. split; [reflexivity|]. split.
  - intros s. split; [intros Hs; apply elem_of_empty in Hs; destruct Hs|].
    intros (e & [] & _).
  - intros s Hs. rewrite lookup_empty in Hs. destruct Hs as [x Hx]. discriminate Hx.
Qed.

Lemma mc_step_untracked (m : MetricType) (c c' : Recording) (ev : RecorderEvent num) :
  mc_step c ev = Normal c' ->
  (m = readCount /\ mc_trackReads c = false) \/
  (m = writeCount /\ mc_trackWrites c = false) \/
  (m = commitCount /\ mc_trackCommits c = false) ->
  List.Forall (fun e => metric e <> m) (mc_strategy c) ->
  List.Forall (fun e => metric e <> m) (mc_strategy c').
Proof.
  intros Hstep Hoff Hall.
  assert (Hpush : forall e : Entry, metric e <> m ->
                                    List.Forall (fun e => metric e <> m) (mc_strategy c ++ [e])).
  { intros e He. apply List.Forall_app. split; [exact Hall | constructor; [exact He | constructor]]. }
  destruct ev as [event|event|event|event|event|event|now]; cbn [mc_step] in Hstep.
  - unfold mc_onStageStart in Hstep. rewrite mc_emit_normal in Hstep.
    injection Hstep as <-. cbn. apply Hpush. cbn.
    destruct Hoff as [[-> _]|[[-> _]|[-> _]]]; discriminate.
  - unfold mc_onStageEnd in Hstep.
    destruct (ev_duration event) as [d|].
    + rewrite mc_emit_normal in Hstep. cbn [cbind] in Hstep. injection Hstep as <-.
      cbn. apply Hpush. cbn. destruct Hoff as [[-> _]|[[-> _]|[-> _]]]; discriminate.
    + destruct (mc_stageStartTimes c !! ev_stageName event) as [t|].
      * rewrite mc_emit_normal in Hstep. cbn [cbind] in Hstep. injection Hstep as <-.
        cbn. apply Hpush. cbn. destruct Hoff as [[-> _]|[[-> _]|[-> _]]]; discriminate.
      * cbn [cbind] in Hstep. injection Hstep as <-. cbn. exact Hall.
  - unfold mc_onError in Hstep. rewrite mc_emit_normal in Hstep.
    injection Hstep as <-. cbn. apply Hpush. cbn.
    destruct Hoff as [[-> _]|[[-> _]|[-> _]]]; discriminate.
  - unfold mc_onRead in Hstep. destruct (mc_trackReads c) eqn:E; cbn [negb] in Hstep.
    + rewrite mc_emit_normal in Hstep. injection Hstep as <-. cbn. apply Hpush. cbn.
      destruct Hoff as [[_ Hf]|[[-> _]|[-> _]]]; discriminate.
    + injection Hstep as <-. exact Hall.
  - unfold mc_onWrite in Hstep. destruct (mc_trackWrites c) eqn:E; cbn [negb] in Hstep.
    + rewrite mc_emit_normal in Hstep. injection Hstep as <-. cbn. apply Hpush. cbn.
      destruct Hoff as [[-> _]|[[_ Hf]|[-> _]]]; discriminate.
    + injection Hstep as <-. exact Hall.
  - unfold mc_onCommit in Hstep. destruct (mc_trackCommits c) eqn:E; cbn [negb] in Hstep.
    + rewrite mc_emit_normal in Hstep. injection Hstep as <-. cbn. apply Hpush. cbn.
      destruct Hoff as [[-> _]|[[-> _]|[_ Hf]]]; discriminate.
    + injection Hstep as <-. exact Hall.
  - injection Hstep as <-. cbn. constructor.
Qed.

(** X22.  A collector constructed with [trackReads: false] never hands its
    strategy a [readCount] entry, whatever recorder events it receives;
    likewise [trackWrites: false] for [writeCount] entries and
    [trackCommits: false] for [commitCount] entries. *)
Theorem untracked_metrics_are_never_emitted
  (options : CollectorOptions num (list Entry)) (evs : list (RecorderEvent num))
  (m : MetricType) :
  opt_strategy options = [] ->
  (m = readCount /\ opt_trackReads options = Some false) \/
  (m = writeCount /\ opt_trackWrites options = Some false) \/
  (m = commitCount /\ opt_trackCommits options = Some false) ->
  exists c : Recording,
    mc_run evs (MetricCollector_new options) = Normal c /\
    forall e, In e (mc_strategy c) -> metric e <> m.
Proof.
  intros Hempty Hoff.
  assert (Hgen : forall (evs : list (RecorderEvent num)) (c : Recording),
             (m = readCount /\ mc_trackReads c = false) \/
             (m = writeCount /\ mc_trackWrites c = false) \/
             (m = commitCount /\ mc_trackCommits c = false) ->
             List.Forall (fun e => metric e <> m) (mc_strategy c) ->
             exists c', mc_run evs c = Normal c' /\
                        List.Forall (fun e => metric e <> m) (mc_strategy c')).
  { clear. induction evs as [|ev evs IH]; intros c Hoff Hall.
    - exists c. split; [reflexivity | exact Hall].
    - destruct (mc_step_frame c ev) as (c1 & Hstep & _ & Hr & Hw & Hc & _).
      destruct (IH c1) as (c' & Hrun & Hall').
      + rewrite Hr, Hw, Hc. exact Hoff.
      + exact (mc_step_untracked m c c1 ev Hstep Hoff Hall).
      + exists c'. cbn [mc_run]. rewrite Hstep. cbn [cbind]. split; [exact Hrun | exact Hall']. }
  destruct (Hgen evs (MetricCollector_new options)) as (c & Hrun & Hall).
  - unfold MetricCollector_new. cbn.
    destruct Hoff as [[Hm Ht]|[[Hm Ht]|[Hm Ht]]]; rewrite Ht; cbn; auto.
  - unfold MetricCollector_new. cbn. rewrite Hempty. constructor.
  - exists c. split; [exact Hrun|]. apply List.Forall_forall. exact Hall.
Qed.

End CollectorMore.

(** Stage A from 100 to 130, with stage B starting and ending in between. *)
Lemma latency_is_measured_across_other_events_witness :
  exists c1 c2 c3 : MetricCollector float (list (MetricEntry float)),
    mc_onStageStart collector_with_throwing_callback (mkStageEvent "A" 100 None) = Normal c1 /\
    mc_run [OnStageStart (mkStageEvent "B" 110 None); OnStageEnd (mkStageEvent "B" 120 None)] c1
    = Normal c2 /\
    mc_onStageEnd c2 (mkStageEvent "A" 130 None) = Normal c3 /\
    mc_strategy c3
    = ws_push (mc_strategy c2) (mkEntry "A" latency (of_Z (130 - 100)) 130 None) /\
    mc_totalEntries c3 = S (mc_totalEntries c2) /\
    mc_stageStartTimes c3 !! "A" = None.
Proof.
  exact (latency_is_measured_across_other_events collector_with_throwing_callback "A" 100 130
           [OnStageStart (mkStageEvent "B" 110 None); OnStageEnd (mkStageEvent "B" 120 None)]
           eq_refl).
Defined.

(** An end of stage A on a collector that has seen no start. *)
Lemma stage_end_without_start_is_dropped_witness :
  mc_onStageEnd collector_with_throwing_callback (mkStageEvent "A" 5 None)
  = Normal collector_with_throwing_callback.
Proof.
  apply (proj1 (stage_end_without_start_is_dropped collector_with_throwing_callback
                  (mkStageEvent "A" 5 None) eq_refl)).
  apply lookup_empty.
Defined.

(** A start and an error on a collector over the recording strategy. *)
Lemma collector_counters_count_pushed_entries_witness :
  exists c : MetricCollector float (list (MetricEntry float)),
    mc_run [OnStageStart (mkStageEvent "A" 1 None); OnError (mkErrorEvent "A" 2 "e" "read" "p" "k")]
           (MetricCollector_new (mkOptions "c" [] None None None None)) = Normal c /\
    mc_totalEntries c = length (mc_strategy c).
Proof.
  destruct (collector_counters_count_pushed_entries (num := float)
              (mkOptions "c" [] None None None None)
              [OnStageStart (mkStageEvent "A" 1 None);
               OnError (mkErrorEvent "A" 2 "e" "read" "p" "k")] eq_refl)
    as (c & Hrun & He & _).
  exists c. split; [exact Hrun | exact He].
Defined.

(** A read event on a collector constructed with [trackReads: false]. *)
Lemma untracked_metrics_are_never_emitted_witness :
  exists c : MetricCollector float (list (MetricEntry float)),
    mc_run [OnRead (mkStageEvent "A" 1 None)]
           (MetricCollector_new (mkOptions "c" [] (Some false) None None None)) = Normal c /\
    forall e, In e (mc_strategy c) -> metric e <> readCount.
Proof.
  apply (untracked_metrics_are_never_emitted (num := float)
           (mkOptions "c" [] (Some false) None None None)
           [OnRead (mkStageEvent "A" 1 None)] readCount eq_refl).
  left. split; reflexivity.
Defined.

(** ** Strategy configurations and the adapters' factories *)

Section FactoryFacts.

Context {num : Type} `{JSNumber num}.

(** X23.  Handing a strategy's [getConfig()] to an adapter's factory builds a
    fresh strategy of the same class: for a ring buffer, whatever was done
    to it, the buffer its constructor built; for a sliding window the cleared
    window; for a tumbling window a fresh window of the same width whose
    [maxArchivedBuckets] is the default 10, whatever the original was
    configured with.  The factories of the mock, the CloudWatch and the
    Datadog adapter return the same on every configuration that names one of
    the three strategies. *)
Theorem factory_rebuilds_from_getConfig :
  (forall (config : option (option Z)) (rb0 : RingBufferStrategy num) (ops : list (RbOp num))
          (now : Z),
      RingBufferStrategy_new config = Normal rb0 ->
      createStrategy (num := num) now (rb_getConfig (rb_run ops rb0)) = Normal (RingBufferOf rb0)) /\
  (forall (st : SlidingWindowStrategy num) (now : Z),
      createStrategy (num := num) now (sw_getConfig st) = Normal (SlidingOf (sw_clear st))) /\
  (forall (st : TumblingWindowStrategy num) (now : Z),
      createStrategy (num := num) now (tw_getConfig st)
      = Normal (TumblingOf (mkTumbling [] now (tw_windowMs st) 10 [] 0 0))) /\
  (forall (now : Z) (config : WindowConfig),
      wc_type config <> None ->
      cloudwatch_createWindowStrategy (num := num) now config = createStrategy now config /\
      datadog_createWindowStrategy (num := num) now config = createStrategy now config).
Proof.
  split; [|split; [|split]].
  - intros config rb0 ops now Hnew.
    unfold createStrategy, rb_getConfig, new_ring. cbn [wc_type wc_maxSize default].
    rewrite rb_maxSize_run.
    pose proof (rb_new_fields config rb0 Hnew) as Hrb0.
    assert (Hm : Z.of_nat (rb_maxSize rb0) = default 1000 (mjoin config)).
    { unfold RingBufferStrategy_new, new_Array in Hnew.
      destruct ((0 <=? default 1000 (mjoin config)) && (default 1000 (mjoin config) <? 2 ^ 32))
        eqn:E; [|discriminate Hnew].
      apply andb_true_iff in E. destruct E as [E0 _]. apply Z.leb_le in E0.
      rewrite Hrb0. cbn [rb_maxSize]. apply Z2Nat.id. exact E0. }
    assert (Hsame : RingBufferStrategy_new (num := num)
                      (Some (Some (Z.of_nat (rb_maxSize rb0))))
                    = RingBufferStrategy_new config).
    { rewrite Hm. reflexivity. }
    unfold id. rewrite Hsame, Hnew. reflexivity.
  - intros st now. reflexivity.
  - intros st now. reflexivity.
  - intros now config Hty.
    unfold cloudwatch_createWindowStrategy, datadog_createWindowStrategy, createStrategy.
    destruct (wc_type config) as [[| |]|]; [split; reflexivity .. | congruence].
Qed.

End FactoryFacts.

(** The factory on the configuration of a ring buffer of two slots after a push. *)
Lemma factory_rebuilds_from_getConfig_witness :
  createStrategy (num := float) 0
    (rb_getConfig (rb_run [RbPush (mkEntry "A" latency 10%float 1 None)]
                          (mkRingBuffer [None; None] (Some 0%nat) 0 2 0 0)))
  = Normal (RingBufferOf (mkRingBuffer [None; None] (Some 0%nat) 0 2 0 0)).
Proof.
  exact (proj1 factory_rebuilds_from_getConfig (Some (Some 2)) _
           [RbPush (mkEntry "A" latency 10%float 1 None)] 0 eq_refl).
Defined.

(** ** The label sanitiser *)

Lemma to_lower_label_char (c : ascii) :
  is_label_char c = true -> is_lower_label_char (to_lower c) = true.
Proof.
  destruct c as [[] [] [] [] [] [] [] []]; vm_compute; intros Hc;
    first [reflexivity | discriminate Hc].
Qed.

Lemma lower_label_char_fixed (c : ascii) :
  is_lower_label_char c = true ->
  is_label_char c = true /\ to_lower c = c.
Proof.
  destruct c as [[] [] [] [] [] [] [] []]; vm_compute; intros Hc;
    first [split; reflexivity | discriminate Hc].
Qed.

Lemma sanitizeLabel_cons (c : ascii) (s : string) :
  sanitizeLabel (String c s)
  = String (to_lower (if is_label_char c then c else "_"%char)) (sanitizeLabel s).
Proof. reflexivity. Qed.

(** X24.  [sanitizeLabel] keeps the length of a name, returns only
    lower-case letters, digits and underscores, and leaves a name that
    consists of these alone: sanitising twice is sanitising once. *)
Theorem sanitizeLabel_properties (name : string) :
  String.length (sanitizeLabel name) = String.length name /\
  string_forallb is_lower_label_char (sanitizeLabel name) = true /\
  sanitizeLabel (sanitizeLabel name) = sanitizeLabel name /\
  (string_forallb is_lower_label_char name = true -> sanitizeLabel name = name).
Proof.
  assert (Hfix : forall s, string_forallb is_lower_label_char s = true -> sanitizeLabel s = s).
  { induction s as [|c s IH]; [reflexivity|].
    cbn [string_forallb]. intros Hs. apply andb_true_iff in Hs. destruct Hs as [Hc Hs].
    rewrite sanitizeLabel_cons, (IH Hs).
    destruct (lower_label_char_fixed c Hc) as [Hl Hlow]. rewrite Hl, Hlow. reflexivity. }
  assert (Hout : string_forallb is_lower_label_char (sanitizeLabel name) = true).
  { induction name as [|c s IH]; [reflexivity|].
    rewrite sanitizeLabel_cons. cbn [string_forallb]. rewrite IH, andb_true_r.
    destruct (is_label_char c) eqn:E; [apply to_lower_label_char; exact E | reflexivity]. }
  split; [|split; [exact Hout | split; [apply Hfix; exact Hout | apply Hfix]]].
  clear Hout. induction name as [|c s IH]; [reflexivity|].
  rewrite sanitizeLabel_cons. cbn [String.length]. rewrite IH. reflexivity.
Qed.

(** A name made of lower-case letters and an underscore is its own label. *)
Lemma sanitizeLabel_properties_witness :
  sanitizeLabel "llm_call" = "llm_call"%string.
Proof.
  apply (proj2 (proj2 (proj2 (sanitizeLabel_properties "llm_call")))).
  reflexivity.
Defined.
